(** * Real-time polling backend: vote ledger, tallies, rooms and broadcasts

    A shallow embedding of the vote controller (submitVote,
    getMyVoteForPoll), the poll controller (createPoll, getPollById,
    updatePoll, publishPoll, getPollResults), the authentication and
    ownership middleware and the Socket.IO handler (join-poll,
    leave-poll, broadcastVoteUpdate, broadcastNewPoll) over an in-memory
    model of the four SQL tables of the Prisma migrations.

    Handlers are written once, as programs over awaited operations
    (each [await] of the source is a yield point).  The same program is
    given a serial meaning ([run]) and an interleaved one ([interleave]),
    so that both the one-request-at-a-time behaviour and the races
    between requests are read off the same text. *)

From Stdlib Require Import String List Bool Arith ZArith Lia DecimalString DecimalNat.
From Stdlib Require Import SpecFloat Permutation.
Import ListNotations.
Local Open Scope list_scope.
Local Open Scope string_scope.

Set Implicit Arguments.

(** ** Tables (prisma/migrations/20250912043026_init/migration.sql) *)

Definition Id := string.

Record User := mkUser
  { user_id : Id;
    user_name : string }.

(** The columns [created_at] and [updated_at] of [polls] and the
    password columns of [users] are left out: no handler modelled here
    reads them.  A poll row of the model is therefore what a write keeps
    apart from its [updated_at], which every [prisma.poll.update] sets
    anew. *)
Record Poll := mkPoll
  { poll_id : Id;
    question : string;
    isPublished : bool;
    creatorId : Id }.

Record PollOption := mkPollOption
  { option_id : Id;
    option_text : string;
    option_pollId : Id }.

Record Vote := mkVote
  { vote_id : Id;
    vote_createdAt : nat;
    vote_userId : Id;
    vote_pollOptionId : Id }.

(** [cuid_seq] stands for the generator behind [@default(cuid())]. *)
Record Database := mkDatabase
  { users : list User;
    polls : list Poll;
    poll_options : list PollOption;
    votes : list Vote;
    cuid_seq : nat }.

Definition cuid (n : nat) : Id :=
  "c" ++ NilEmpty.string_of_uint (Nat.to_uint n).
Arguments cuid : simpl never.

Definition set_polls (ps : list Poll) (d : Database) : Database :=
  mkDatabase (users d) ps (poll_options d) (votes d) (cuid_seq d).

Definition set_votes (vs : list Vote) (n : nat) (d : Database) : Database :=
  mkDatabase (users d) (polls d) (poll_options d) vs n.

(** ** Errors (src/middleware/errorHandler.ts) *)

Inductive Error :=
| CustomError (message : string) (statusCode : nat)
| PrismaClientKnownRequestError (code : string)
| PrismaClientInitializationError
| InconsistentQueryResult
| TransportError.

Inductive Outcome (X : Type) :=
| Ok (x : X)
| Thrown (e : Error).
Arguments Ok {X} x.
Arguments Thrown {X} e.

Definition createError (message : string) (statusCode : nat) : Error :=
  CustomError message statusCode.

(** ** Storage constraints

    [polls_pkey], [poll_options_pkey], [votes_pkey] and the unique index
    [votes_user_id_poll_option_id_key] on (user_id, poll_option_id). *)

Fixpoint distinct (l : list (Id * Id)) : bool :=
  match l with
  | [] => true
  | (a, b) :: r =>
      negb (existsb (fun x => (fst x =? a) && (snd x =? b)) r) && distinct r
  end.

Fixpoint distinct_ids (l : list Id) : bool :=
  match l with
  | [] => true
  | a :: r => negb (existsb (String.eqb a) r) && distinct_ids r
  end.

Definition votes_pkey (d : Database) : bool :=
  distinct_ids (map vote_id (votes d)).

Definition poll_options_pkey (d : Database) : bool :=
  distinct_ids (map option_id (poll_options d)).

Definition polls_pkey (d : Database) : bool :=
  distinct_ids (map poll_id (polls d)).

Definition votes_user_id_poll_option_id_key (d : Database) : bool :=
  distinct (map (fun v => (vote_userId v, vote_pollOptionId v)) (votes d)).

Definition constraints_hold (d : Database) : bool :=
  polls_pkey d && poll_options_pkey d && votes_pkey d
  && votes_user_id_poll_option_id_key d.

(** ** Prisma queries, as atomic functions of the database *)

Definition find_option (oid : Id) (d : Database) : option PollOption :=
  find (fun o => option_id o =? oid) (poll_options d).

Definition find_poll (pid : Id) (d : Database) : option Poll :=
  find (fun p => poll_id p =? pid) (polls d).

Definition find_user (uid : Id) (d : Database) : option User :=
  find (fun u => user_id u =? uid) (users d).

(** [_count: { select: { votes: true } }] of an option. *)
Definition count_votes (oid : Id) (d : Database) : nat :=
  length (filter (fun v => vote_pollOptionId v =? oid) (votes d)).

(** The [options] relation of a poll, in table order.  No query of the
    source carries an [orderBy], so the order in which the database
    lists the options of a poll is its own choice; the model fixes the
    order of insertion. *)
Definition options_of (pid : Id) (d : Database) : list PollOption :=
  filter (fun o => option_pollId o =? pid) (poll_options d).

(** [prisma.poll.findUnique({ where: { id, isPublished: true },
      include: { options: { where: { id: pollOptionId } } } })] *)
Definition poll_findUnique_published_option
    (pollId pollOptionId : Id) (d : Database)
  : Outcome (option (Poll * list PollOption)) * Database :=
  (Ok match find (fun p => (poll_id p =? pollId) && isPublished p) (polls d) with
      | Some p =>
          Some (p, filter (fun o => option_id o =? pollOptionId)
                          (options_of pollId d))
      | None => None
      end, d).

(** [prisma.vote.findFirst({ where: { userId, pollOption: { pollId } } })].
    The query carries no [orderBy]: of several matching rows the
    database may return any, and the model returns the first in table
    order, a row keeping its place when it is updated. *)
Definition vote_on_poll (userId pollId : Id) (d : Database) (v : Vote) : bool :=
  (vote_userId v =? userId)
  && match find_option (vote_pollOptionId v) d with
     | Some o => option_pollId o =? pollId
     | None => false
     end.

Definition vote_findFirst (userId pollId : Id) (d : Database)
  : Outcome (option Vote) * Database :=
  (Ok (find (vote_on_poll userId pollId d) (votes d)), d).

(** [include: { pollOption: { include: { poll: true } } }] *)
Definition vote_include (v : Vote) (d : Database)
  : option (Vote * PollOption * Poll) :=
  match find_option (vote_pollOptionId v) d with
  | Some o =>
      match find_poll (option_pollId o) d with
      | Some p => Some (v, o, p)
      | None => None
      end
  | None => None
  end.

(** [prisma.vote.update({ where: { id }, data: { pollOptionId }, include })]:
    P2025 when no row has the id, P2002 when another row of the same user
    already holds the option.  The row keeps its place in the table.
    The last branch, an [include] that finds no option or no poll, is a
    choice of the model: the tables have no foreign key since the second
    migration, and the model answers with an error and writes nothing.
    [submitVote] reaches the write only after it found the option among
    those of the poll. *)
Definition vote_update (id pollOptionId : Id) (d : Database)
  : Outcome (Vote * PollOption * Poll) * Database :=
  match find (fun v => vote_id v =? id) (votes d) with
  | None => (Thrown (PrismaClientKnownRequestError "P2025"), d)
  | Some old =>
      if existsb (fun v => negb (vote_id v =? id)
                           && (vote_userId v =? vote_userId old)
                           && (vote_pollOptionId v =? pollOptionId)) (votes d)
      then (Thrown (PrismaClientKnownRequestError "P2002"), d)
      else
        let v' := mkVote id (vote_createdAt old) (vote_userId old) pollOptionId in
        match vote_include v' d with
        | Some r =>
            (Ok r,
             set_votes (map (fun v => if vote_id v =? id then v' else v) (votes d))
                       (cuid_seq d) d)
        | None => (Thrown InconsistentQueryResult, d)
        end
  end.

(** [prisma.vote.create({ data: { userId, pollOptionId }, include })]:
    P2002 on [votes_pkey] or on the (user_id, poll_option_id) index.
    As in [vote_update], the branch of an [include] that finds no option
    or no poll writes nothing, a choice of the model. *)
Definition vote_create (now : nat) (userId pollOptionId : Id) (d : Database)
  : Outcome (Vote * PollOption * Poll) * Database :=
  let v := mkVote (cuid (cuid_seq d)) now userId pollOptionId in
  if existsb (fun x => vote_id x =? vote_id v) (votes d)
     || existsb (fun x => (vote_userId x =? userId)
                          && (vote_pollOptionId x =? pollOptionId)) (votes d)
  then (Thrown (PrismaClientKnownRequestError "P2002"), d)
  else
    match vote_include v d with
    | Some r => (Ok r, set_votes (votes d ++ [v])%list (S (cuid_seq d)) d)
    | None => (Thrown InconsistentQueryResult, d)
    end.

(** [prisma.poll.findUnique({ where, include: { options: { include:
      { _count: { select: { votes: true } } } } } })]; [published] is the
    optional [isPublished: true] of the where clause. *)
Definition poll_findUnique_counts (pollId : Id) (published : bool) (d : Database)
  : Outcome (option (Poll * list (PollOption * nat))) * Database :=
  (Ok match find (fun p => (poll_id p =? pollId)
                           && (if published then isPublished p else true))
                 (polls d) with
      | Some p =>
          Some (p, map (fun o => (o, count_votes (option_id o) d))
                       (options_of pollId d))
      | None => None
      end, d).

(** [include: { options: true, creator: { select: { id, name } } }] *)
Definition poll_include (p : Poll) (d : Database)
  : option (Poll * User * list PollOption) :=
  match find_user (creatorId p) d with
  | Some u => Some (p, u, options_of (poll_id p) d)
  | None => None
  end.

(** [prisma.poll.update({ where: { id }, data, include })]: P2025 when the
    poll is absent.  [data] carries the optional fields of the request. *)
Definition poll_update (id : Id) (newQuestion : option string)
    (newPublished : option bool) (d : Database)
  : Outcome (Poll * User * list PollOption) * Database :=
  match find_poll id d with
  | None => (Thrown (PrismaClientKnownRequestError "P2025"), d)
  | Some old =>
      let p' := mkPoll id
                  (match newQuestion with Some q => q | None => question old end)
                  (match newPublished with Some b => b | None => isPublished old end)
                  (creatorId old) in
      match poll_include p' d with
      | Some r =>
          (Ok r,
           set_polls (map (fun p => if poll_id p =? id then p' else p) (polls d)) d)
      | None => (Thrown InconsistentQueryResult, d)
      end
  end.

(** [prisma.poll.findUnique({ where: { id }, select: { creatorId: true } })] *)
Definition poll_findUnique_creatorId (pollId : Id) (d : Database)
  : Outcome (option Id) * Database :=
  (Ok (option_map creatorId (find_poll pollId d)), d).

(** [prisma.poll.findUnique({ where: { id }, include: { creator, options } })] *)
Definition poll_findUnique_creator (pollId : Id) (d : Database)
  : Outcome (option (Poll * User * list PollOption)) * Database :=
  match find_poll pollId d with
  | None => (Ok None, d)
  | Some p =>
      match poll_include p d with
      | Some r => (Ok (Some r), d)
      | None => (Thrown InconsistentQueryResult, d)
      end
  end.

(** ** The process: database, Socket.IO server, console *)

Definition SocketId := string.

Record OptionTally := mkOptionTally
  { tally_id : Id;
    tally_text : string;
    voteCount : nat }.

(** [PollData] of the socket handler. *)
Record PollData := mkPollData
  { pd_id : Id;
    pd_question : string;
    pd_options : list OptionTally;
    totalVotes : nat;
    timestamp : option nat }.

Inductive Payload :=
| PollDataPayload (data : PollData)
| MessagePayload (message : string)
| PresencePayload (message : string) (userCount : nat)
| NewPollPayload (id : Id) (q creatorName : string)
                 (options : list PollOption) (time : nat).

Inductive Channel :=
| ToSocket (sid : SocketId)              (* socket.emit *)
| ToRoom (room : string)                 (* io.to(room).emit *)
| ToRoomExcept (room : string) (sid : SocketId)   (* socket.to(room).emit *)
| ToEveryone.                            (* io.emit *)

(** One emitted packet, with the sockets it was delivered to. *)
Record Emission := mkEmission
  { channel : Channel;
    event : string;
    payload : Payload;
    recipients : list SocketId }.

Record World := mkWorld
  { db : Database;
    db_online : bool;          (* false: every query throws *)
    controller_io : bool;      (* VoteController.io, PollController.io set *)
    io_utilities : bool;       (* io.broadcastVoteUpdate, io.broadcastNewPoll set *)
    io_faulty : bool;          (* true: every emit throws *)
    connected : list SocketId;
    rooms : list (string * SocketId);            (* io.sockets.adapter.rooms *)
    currentPollRooms : list (SocketId * string); (* socket.currentPollRooms *)
    outbox : list Emission;
    console : list string;
    clock : nat }.

Definition set_db (d : Database) (w : World) : World :=
  mkWorld d (db_online w) (controller_io w) (io_utilities w) (io_faulty w)
          (connected w) (rooms w) (currentPollRooms w) (outbox w) (console w)
          (clock w).

Definition set_rooms (r : list (string * SocketId)) (w : World) : World :=
  mkWorld (db w) (db_online w) (controller_io w) (io_utilities w) (io_faulty w)
          (connected w) r (currentPollRooms w) (outbox w) (console w) (clock w).

Definition set_currentPollRooms (r : list (SocketId * string)) (w : World) : World :=
  mkWorld (db w) (db_online w) (controller_io w) (io_utilities w) (io_faulty w)
          (connected w) (rooms w) r (outbox w) (console w) (clock w).

Definition set_outbox (o : list Emission) (w : World) : World :=
  mkWorld (db w) (db_online w) (controller_io w) (io_utilities w) (io_faulty w)
          (connected w) (rooms w) (currentPollRooms w) o (console w) (clock w).

Definition set_console (c : list string) (w : World) : World :=
  mkWorld (db w) (db_online w) (controller_io w) (io_utilities w) (io_faulty w)
          (connected w) (rooms w) (currentPollRooms w) (outbox w) c (clock w).

(** An effect performed in one piece. *)
Definition Action (X : Type) := World -> Outcome X * World.

(** A query sent through the Prisma client. *)
Definition prisma {X} (q : Database -> Outcome X * Database) : Action X :=
  fun w =>
    if db_online w
    then let (r, d') := q (db w) in (r, set_db d' w)
    else (Thrown PrismaClientInitializationError, w).

Definition members (room : string) (w : World) : list SocketId :=
  map snd (filter (fun m => fst m =? room) (rooms w)).

Definition deliver_to (c : Channel) (w : World) : list SocketId :=
  match c with
  | ToSocket sid => [sid]
  | ToRoom room => members room w
  | ToRoomExcept room sid => filter (fun s => negb (s =? sid)) (members room w)
  | ToEveryone => connected w
  end.

Definition emit (c : Channel) (ev : string) (p : Payload) : Action unit :=
  fun w =>
    if io_faulty w then (Thrown TransportError, w)
    else (Ok tt, set_outbox (outbox w ++ [mkEmission c ev p (deliver_to c w)])%list w).

Definition console_log (line : string) : Action unit :=
  fun w => (Ok tt, set_console (console w ++ [line])%list w).

Definition now : Action nat :=
  fun w => (Ok (clock w), w).

(** [socket.join(room)] with [socket.currentPollRooms?.add(room)]. *)
Definition is_member (room : string) (sid : SocketId) (w : World) : bool :=
  existsb (fun m => (fst m =? room) && (snd m =? sid)) (rooms w).

Definition socket_join (sid : SocketId) (room : string) : Action unit :=
  fun w =>
    (Ok tt,
     if is_member room sid w then w
     else set_rooms (rooms w ++ [(room, sid)])%list w).

Definition currentPollRooms_add (sid : SocketId) (room : string) : Action unit :=
  fun w =>
    (Ok tt,
     if existsb (fun m => (fst m =? sid) && (snd m =? room)) (currentPollRooms w)
     then w
     else set_currentPollRooms (currentPollRooms w ++ [(sid, room)])%list w).

(** ** Handlers as programs

    [Await] is an awaited promise, a point where other handlers may run;
    [Sync] is an effect of the straight-line code between two awaits. *)

Inductive Prog (A : Type) : Type :=
| Ret (a : A)
| Throw (e : Error)
| Await (X : Type) (act : Action X) (k : Outcome X -> Prog A)
| Sync (X : Type) (act : Action X) (k : Outcome X -> Prog A).
Arguments Ret {A} a.
Arguments Throw {A} e.
Arguments Await {A X} act k.
Arguments Sync {A X} act k.

(** A rejected promise or a throwing call rethrows at the call site. *)
Definition rethrow {X A} (k : X -> Prog A) (r : Outcome X) : Prog A :=
  match r with
  | Ok x => k x
  | Thrown e => Throw e
  end.

Definition await {X A} (act : Action X) (k : X -> Prog A) : Prog A :=
  Await act (rethrow k).

Definition call {X A} (act : Action X) (k : X -> Prog A) : Prog A :=
  Sync act (rethrow k).

Fixpoint bind {A B} (p : Prog A) (f : A -> Prog B) : Prog B :=
  match p with
  | Ret a => f a
  | Throw e => Throw e
  | Await act k => Await act (fun r => bind (k r) f)
  | Sync act k => Sync act (fun r => bind (k r) f)
  end.

(** [try { p } catch (error) { h error }] *)
Fixpoint try_catch {A} (p : Prog A) (h : Error -> Prog A) : Prog A :=
  match p with
  | Ret a => Ret a
  | Throw e => h e
  | Await act k => Await act (fun r => try_catch (k r) h)
  | Sync act k => Sync act (fun r => try_catch (k r) h)
  end.

Notation "x <~ a ;; k" := (await a (fun x => k))
  (at level 61, a at next level, right associativity).
Notation "x <- a ;; k" := (call a (fun x => k))
  (at level 61, a at next level, right associativity).
Notation "x <<- p ;; k" := (bind p (fun x => k))
  (at level 61, p at next level, right associativity).

(** Serial meaning: the handler runs to completion with nothing in between. *)
Fixpoint run {A} (p : Prog A) (w : World) : Outcome A * World :=
  match p with
  | Ret a => (Ok a, w)
  | Throw e => (Thrown e, w)
  | Await act k => let (r, w') := act w in run (k r) w'
  | Sync act k => let (r, w') := act w in run (k r) w'
  end.

(** Interleaved meaning: [settle] runs the synchronous code up to the next
    await; [resume] lets one awaited operation complete and settles. *)
Fixpoint settle {A} (p : Prog A) (w : World) : Prog A * World :=
  match p with
  | Sync act k => let (r, w') := act w in settle (k r) w'
  | _ => (p, w)
  end.

Definition resume {A} (p : Prog A) (w : World) : Prog A * World :=
  match p with
  | Await act k => let (r, w') := act w in settle (k r) w'
  | _ => settle p w
  end.

Fixpoint resume_nth {A} (i : nat) (tasks : list (Prog A)) (w : World)
  : list (Prog A) * World :=
  match tasks, i with
  | [], _ => ([], w)
  | p :: rest, O => let (p', w') := resume p w in (p' :: rest, w')
  | p :: rest, S j => let (rest', w') := resume_nth j rest w in (p :: rest', w')
  end.

(** [schedule] names, turn by turn, the task whose awaited operation
    completes next. *)
Fixpoint interleave {A} (schedule : list nat) (tasks : list (Prog A)) (w : World)
  : list (Prog A) * World :=
  match schedule with
  | [] => (tasks, w)
  | i :: s => let (tasks', w') := resume_nth i tasks w in interleave s tasks' w'
  end.

(** What a finished task returned. *)
Definition result {A} (p : Prog A) : option (Outcome A) :=
  match p with
  | Ret a => Some (Ok a)
  | Throw e => Some (Thrown e)
  | _ => None
  end.

(** ** HTTP responses and the error handler *)

Record VoteJson := mkVoteJson
  { vj_id : Id;
    vj_pollOptionId : Id;
    vj_optionText : string;
    vj_pollQuestion : string;
    vj_createdAt : nat }.

Record OptionResult := mkOptionResult
  { res_id : Id;
    res_text : string;
    res_voteCount : nat;
    res_percentage : string }.

Record Results := mkResults
  { results_pollId : Id;
    results_question : string;
    results_totalVotes : nat;
    results_options : list OptionResult }.

Inductive Body :=
| VoteBody (message : string) (vote : VoteJson)
| PollBody (message : string) (poll : Poll) (creator : User)
           (options : list PollOption)
| ResultsBody (results : Results)
| ErrorBody (error message : string).

Record Response := mkResponse
  { status : nat;
    body : Body }.

Definition errorHandler (err : Error) : Response :=
  let '(statusCode, message) :=
    match err with
    | CustomError m (S n) => (S n, m)
    | PrismaClientKnownRequestError code =>
        if code =? "P2002" then (409, "Unique constraint violation")
        else if code =? "P2025" then (404, "Record not found")
        else if code =? "P2003" then (400, "Foreign key constraint violation")
        else (500, "Database error")
    | _ => (500, "Internal Server Error")
    end in
  mkResponse statusCode
    (ErrorBody (if (500 <=? statusCode)%nat then "Internal Server Error"
                else "Client Error")
               message).

(** [asyncHandler(fn)]: a rejection goes to [next], that is to
    [errorHandler], the last middleware of the application. *)
Definition asyncHandler (fn : Prog Response) : Prog Response :=
  try_catch fn (fun err => Ret (errorHandler err)).

(** ** Socket handler: broadcasts *)

Definition tally (oc : PollOption * nat) : OptionTally :=
  mkOptionTally (option_id (fst oc)) (option_text (fst oc)) (snd oc).

(** [poll.options.reduce((sum, option) => sum + option._count.votes, 0)] *)
Definition sum_votes (options : list (PollOption * nat)) : nat :=
  fold_left (fun sum option => sum + snd option) options 0.

Definition room_of (pollId : Id) : string := "poll-" ++ pollId.
Arguments room_of : simpl never.

Definition broadcastVoteUpdate (pollId : Id) : Prog unit :=
  try_catch
    (poll <~ prisma (poll_findUnique_counts pollId false) ;;
     match poll with
     | None => Ret tt
     | Some (p, options) =>
         let roomName := room_of pollId in
         t <- now ;;
         let pollData :=
           mkPollData (poll_id p) (question p) (map tally options)
                      (sum_votes options) (Some t) in
         _ <- emit (ToRoom roomName) "poll-updated" (PollDataPayload pollData) ;;
         _ <- console_log ("Broadcasted vote update to room: " ++ roomName) ;;
         Ret tt
     end)
    (fun error =>
       _ <- console_log "Error broadcasting vote update:" ;;
       Ret tt).

Definition broadcastNewPoll (pollId : Id) : Prog unit :=
  try_catch
    (poll <~ prisma (poll_findUnique_creator pollId) ;;
     match poll with
     | None => Ret tt
     | Some (p, creator, options) =>
         if negb (isPublished p) then Ret tt
         else
           t <- now ;;
           _ <- emit ToEveryone "new-poll-published"
                  (NewPollPayload (poll_id p) (question p) (user_name creator)
                                  options t) ;;
           _ <- console_log ("Broadcasted new poll publication: " ++ question p) ;;
           Ret tt
     end)
    (fun error =>
       _ <- console_log "Error broadcasting new poll:" ;;
       Ret tt).

(** [this.io && this.io.broadcastVoteUpdate] (and [broadcastNewPoll]):
    the controller holds the server and the server carries the utility. *)
Definition io_ready : Action bool :=
  fun w => (Ok (controller_io w && io_utilities w), w).

(** ** Vote controller *)

Definition falsy (s : option string) : bool :=
  match s with
  | None => true
  | Some s => s =? ""
  end.

Definition vote_json (r : Vote * PollOption * Poll) : VoteJson :=
  let '(v, o, p) := r in
  mkVoteJson (vote_id v) (vote_pollOptionId v) (option_text o) (question p)
             (vote_createdAt v).

Definition submitVote (user : option Id) (pollId pollOptionId : Id)
  : Prog Response :=
  if falsy user then Throw (createError "User not authenticated" 401)
  else
    let userId := match user with Some u => u | None => "" end in
    poll <~ prisma (poll_findUnique_published_option pollId pollOptionId) ;;
    match poll with
    | None => Throw (createError "Poll not found or not published" 404)
    | Some (_, options) =>
        if (length options =? 0)%nat
        then Throw (createError "Invalid poll option" 400)
        else
          existingVote <~ prisma (vote_findFirst userId pollId) ;;
          written <<-
            match existingVote with
            | Some existing =>
                if vote_pollOptionId existing =? pollOptionId
                then Throw (createError "You have already voted for this option" 409)
                else
                  vote <~ prisma (vote_update (vote_id existing) pollOptionId) ;;
                  Ret (vote, "Vote updated successfully")
            | None =>
                vote <~ (fun w => prisma (vote_create (clock w) userId pollOptionId) w) ;;
                Ret (vote, "Vote submitted successfully")
            end ;;
          ready <- io_ready ;;
          _ <<- (if ready : bool then broadcastVoteUpdate pollId else Ret tt) ;;
          Ret (mkResponse 200 (VoteBody (snd written) (vote_json (fst written))))
    end.

(** [POST /polls/:pollId/vote] after authentication and validation. *)
Definition route_submitVote (user : option Id) (pollId pollOptionId : Id)
  : Prog Response :=
  asyncHandler (submitVote user pollId pollOptionId).

(** ** Socket handler: join-poll *)

(** The argument a client sends with an event: a string or anything else. *)
Inductive EventArg :=
| ArgString (s : string)
| ArgOther.

(** [io.sockets.adapter.rooms.get(roomName)?.size] *)
Definition room_size (room : string) : Action nat :=
  fun w => (Ok (length (members room w)), w).

Definition join_poll (sid : SocketId) (arg : EventArg) : Prog unit :=
  try_catch
    (match arg with
     | ArgOther =>
         _ <- emit (ToSocket sid) "error" (MessagePayload "Invalid poll ID provided") ;;
         Ret tt
     | ArgString pollId =>
         if pollId =? ""
         then
           _ <- emit (ToSocket sid) "error" (MessagePayload "Invalid poll ID provided") ;;
           Ret tt
         else
           poll <~ prisma (poll_findUnique_counts pollId true) ;;
           match poll with
           | None =>
               _ <- emit (ToSocket sid) "error"
                      (MessagePayload "Poll not found or not published") ;;
               Ret tt
           | Some (p, options) =>
               let roomName := room_of pollId in
               _ <~ socket_join sid roomName ;;
               _ <- currentPollRooms_add sid roomName ;;
               let pollData :=
                 mkPollData (poll_id p) (question p) (map tally options)
                            (sum_votes options) None in
               _ <- emit (ToSocket sid) "poll-data" (PollDataPayload pollData) ;;
               _ <- console_log ("User joined poll room: " ++ roomName) ;;
               size <- room_size roomName ;;
               _ <- emit (ToRoomExcept roomName sid) "user-joined-poll"
                      (PresencePayload "A user joined the poll"
                                       (if (size =? 0)%nat then 1 else size)) ;;
               Ret tt
           end
     end)
    (fun error =>
       _ <- console_log "Error joining poll room:" ;;
       _ <- emit (ToSocket sid) "error" (MessagePayload "Failed to join poll room") ;;
       Ret tt).

(** ** Ownership middleware and poll controller *)

(** [requirePollOwnership]: [None] stands for the call of [next()]. *)
Definition requirePollOwnership (user : option Id) (pollId : Id)
  : Prog (option Response) :=
  try_catch
    (if pollId =? ""
     then Ret (Some (mkResponse 400 (ErrorBody "Bad Request" "Poll ID is required")))
     else
       poll <~ prisma (poll_findUnique_creatorId pollId) ;;
       match poll with
       | None => Ret (Some (mkResponse 404 (ErrorBody "Not Found" "Poll not found")))
       | Some creator =>
           if match user with Some u => creator =? u | None => false end
           then Ret None
           else Ret (Some (mkResponse 403
                   (ErrorBody "Forbidden" "You can only modify your own polls")))
       end)
    (fun error =>
       _ <- console_log "Poll ownership check error:" ;;
       Ret (Some (mkResponse 500
              (ErrorBody "Internal Server Error" "Failed to verify poll ownership")))).

Definition guarded (check : Prog (option Response)) (handler : Prog Response)
  : Prog Response :=
  refused <<- check ;;
  match refused with
  | Some response => Ret response
  | None => handler
  end.

(** [...(question && { question })]: an empty question is dropped. *)
Definition truthy (s : option string) : option string :=
  if falsy s then None else s.

Definition updatePoll (id : Id) (newQuestion : option string)
    (newPublished : option bool) : Prog Response :=
  poll <~ prisma (poll_update id (truthy newQuestion) newPublished) ;;
  ready <- io_ready ;;
  _ <<- (if match newPublished with Some true => ready | _ => false end
         then broadcastNewPoll (poll_id (fst (fst poll)))
         else Ret tt) ;;
  let '(p, creator, options) := poll in
  Ret (mkResponse 200 (PollBody "Poll updated successfully" p creator options)).

Definition publishPoll (id : Id) : Prog Response :=
  poll <~ prisma (poll_update id None (Some true)) ;;
  ready <- io_ready ;;
  _ <<- (if ready : bool then broadcastNewPoll (poll_id (fst (fst poll)))
         else Ret tt) ;;
  let '(p, creator, options) := poll in
  Ret (mkResponse 200 (PollBody "Poll published successfully" p creator options)).

(** [PUT /api/polls/:id] and [PUT /api/polls/:id/publish], after
    authentication and validation by [updatePollSchema]
    (question optional, isPublished an optional boolean). *)
Definition route_updatePoll (user : Id) (id : Id) (newQuestion : option string)
    (newPublished : option bool) : Prog Response :=
  guarded (requirePollOwnership (Some user) id)
          (asyncHandler (updatePoll id newQuestion newPublished)).

Definition route_publishPoll (user : Id) (id : Id) : Prog Response :=
  guarded (requirePollOwnership (Some user) id)
          (asyncHandler (publishPoll id)).

(** ** Numbers of the results endpoint

    JavaScript numbers are IEEE 754 binary64 values; [/] and [*] are the
    correctly rounded operations of [SpecFloat] at precision 53. *)

Definition prec : Z := 53.
Definition emax : Z := 1024.

(** A count read from the database, as a Number. *)
Definition number_of_nat (n : nat) : spec_float :=
  binary_normalize prec emax (Z.of_nat n) 0 false.

Definition number_div : spec_float -> spec_float -> spec_float := SFdiv prec emax.
Definition number_mul : spec_float -> spec_float -> spec_float := SFmul prec emax.

(** [Number.prototype.toFixed(1)] picks the integer [n] for which
    [n / 10 - x] is closest to zero, the larger one on a tie. *)
Definition tenths (m : positive) (e : Z) : Z :=
  if (0 <=? e)%Z then (10 * Zpos m * 2 ^ e)%Z
  else ((20 * Zpos m + 2 ^ (- e)) / 2 ^ (1 - e))%Z.

Definition decimal (n : Z) : string :=
  NilZero.string_of_uint (N.to_uint (Z.to_N n)).

Definition fixed1 (n : Z) : string :=
  decimal (n / 10) ++ "." ++ decimal (n mod 10).

(** Values of 1e21 and more print in exponent form; percentages never
    reach them and they are printed here like the others. *)
Definition toFixed1 (x : spec_float) : string :=
  match x with
  | S754_nan => "NaN"
  | S754_infinity s => if s then "-Infinity" else "Infinity"
  | S754_zero _ => "0.0"
  | S754_finite s m e => (if s then "-" else "") ++ fixed1 (tenths m e)
  end.

(** [totalVotes > 0 ? ((votes / totalVotes) * 100).toFixed(1) : '0'] *)
Definition percentage (votes total : nat) : string :=
  if (0 <? total)%nat
  then toFixed1 (number_mul (number_div (number_of_nat votes) (number_of_nat total))
                            (number_of_nat 100))
  else "0".

(** ** Poll controller: results *)

Definition getPollResults (id : Id) : Prog Response :=
  poll <~ prisma (poll_findUnique_counts id false) ;;
  match poll with
  | None => Throw (createError "Poll not found" 404)
  | Some (p, options) =>
      let total := sum_votes options in
      Ret (mkResponse 200 (ResultsBody
             (mkResults (poll_id p) (question p) total
                (map (fun oc =>
                        mkOptionResult (option_id (fst oc)) (option_text (fst oc))
                                       (snd oc) (percentage (snd oc) total))
                     options))))
  end.

Definition route_getPollResults (id : Id) : Prog Response :=
  asyncHandler (getPollResults id).

(** ** The requests of the system, served one at a time *)

Inductive Request :=
| SubmitVote (user : option Id) (pollId pollOptionId : Id)
| UpdatePoll (user id : Id) (newQuestion : option string)
             (newPublished : option bool)
| PublishPoll (user id : Id)
| GetPollResults (id : Id)
| JoinPoll (sid : SocketId) (arg : EventArg).

Definition discard {A} (p : Prog A) : Prog unit :=
  _ <<- p ;; Ret tt.

Definition handle (r : Request) : Prog unit :=
  match r with
  | SubmitVote user pollId pollOptionId =>
      discard (route_submitVote user pollId pollOptionId)
  | UpdatePoll user id q b => discard (route_updatePoll user id q b)
  | PublishPoll user id => discard (route_publishPoll user id)
  | GetPollResults id => discard (route_getPollResults id)
  | JoinPoll sid arg => join_poll sid arg
  end.

Definition serve (requests : list Request) (w : World) : World :=
  fold_left (fun w r => snd (run (handle r) w)) requests w.

(** ** Properties read off a database *)

(** The votes a user holds on a poll, the relation filter of
    [findFirst] in [submitVote] and [getMyVoteForPoll]. *)
Definition votes_of (userId pollId : Id) (d : Database) : list Vote :=
  filter (vote_on_poll userId pollId d) (votes d).

Definition at_most_one_vote_per_user_poll (d : Database) : Prop :=
  forall userId pollId, length (votes_of userId pollId d) <= 1.

(** The vote rows of a poll: those whose option is an option of the poll. *)
Definition on_poll (pollId : Id) (d : Database) (v : Vote) : bool :=
  match find_option (vote_pollOptionId v) d with
  | Some o => option_pollId o =? pollId
  | None => false
  end.

Definition ledger_count (pollId : Id) (d : Database) : nat :=
  length (filter (on_poll pollId d) (votes d)).

(** The per-option counts and the total that every snapshot of the
    source computes from [poll_findUnique_counts]. *)
Definition counts (pollId : Id) (d : Database) : list (PollOption * nat) :=
  map (fun o => (o, count_votes (option_id o) d)) (options_of pollId d).

Definition snapshot_total (pollId : Id) (d : Database) : nat :=
  sum_votes (counts pollId d).

Definition published (pollId : Id) (d : Database) : Prop :=
  exists p, find_poll pollId d = Some p /\ isPublished p = true.

(** The totals of the [poll-updated] packets of a poll that reached a socket. *)
Definition observe (pollId : Id) (sid : SocketId) (e : Emission) : list nat :=
  match payload e with
  | PollDataPayload data =>
      if (event e =? "poll-updated") && (pd_id data =? pollId)
         && existsb (String.eqb sid) (recipients e)
      then [totalVotes data] else []
  | _ => []
  end.

Definition observed_totals (pollId : Id) (sid : SocketId) (w : World) : list nat :=
  flat_map (observe pollId sid) (outbox w).


(** ** Derived notions used by the statements *)

(** The packet [broadcastVoteUpdate] emits for a poll that exists, read
    from the tables of [w] at that moment. *)
Definition vote_update_packet (pollId : Id) (w : World) : Emission :=
  mkEmission (ToRoom (room_of pollId)) "poll-updated"
    (PollDataPayload
       (mkPollData
          (match find_poll pollId (db w) with Some p => poll_id p | None => "" end)
          (match find_poll pollId (db w) with Some p => question p | None => "" end)
          (map tally (counts pollId (db w)))
          (snapshot_total pollId (db w))
          (Some (clock w))))
    (members (room_of pollId) w).

(** The row written by [vote_update]. *)
Definition moved (old : Vote) (O : Id) : Vote :=
  mkVote (vote_id old) (vote_createdAt old) (vote_userId old) O.

Definition move_row (old : Vote) (O : Id) (v : Vote) : Vote :=
  if vote_id v =? vote_id old then moved old O else v.

(** The process after a vote was written as [d'] and the broadcast, if
    the server is wired, has run. *)
Definition after_vote (P : Id) (d' : Database) (w w' : World) : Prop :=
  db w' = d' /\ db_online w' = db_online w
  /\ controller_io w' = controller_io w /\ io_utilities w' = io_utilities w
  /\ io_faulty w' = io_faulty w /\ rooms w' = rooms w
  /\ currentPollRooms w' = currentPollRooms w /\ clock w' = clock w
  /\ connected w' = connected w
  /\ outbox w' =
     if controller_io w && io_utilities w && negb (io_faulty w)
     then match find_poll P d' with
          | Some _ => (outbox w ++ [vote_update_packet P (set_db d' w)])%list
          | None => outbox w
          end
     else outbox w.

(** The checks of [submitVote] pass: a published poll with this id, and
    an option with that id among its options. *)
Definition poll_accepts (P O : Id) (d : Database) : Prop :=
  (exists p, find (fun p => (poll_id p =? P) && isPublished p) (polls d) = Some p)
  /\ filter (fun o => option_id o =? O) (options_of P d) <> [].

(** The outcomes of one call of [submitVote]: rejected without effect,
    a row created, or a row moved. *)
Inductive VoteCase (user : option Id) (P O : Id) (w : World)
  : Outcome Response * World -> Prop :=
| Rejected e :
    VoteCase user P O w (Thrown e, w)
| Created u row d' w' :
    user = Some u -> u <> "" -> db_online w = true ->
    poll_accepts P O (db w) ->
    find (vote_on_poll u P (db w)) (votes (db w)) = None ->
    vote_create (clock w) u O (db w) = (Ok row, d') ->
    after_vote P d' w w' ->
    VoteCase user P O w
      (Ok (mkResponse 200 (VoteBody "Vote submitted successfully" (vote_json row))), w')
| Moved u existing row d' w' :
    user = Some u -> u <> "" -> db_online w = true ->
    poll_accepts P O (db w) ->
    find (vote_on_poll u P (db w)) (votes (db w)) = Some existing ->
    vote_pollOptionId existing <> O ->
    vote_update (vote_id existing) O (db w) = (Ok row, d') ->
    after_vote P d' w w' ->
    VoteCase user P O w
      (Ok (mkResponse 200 (VoteBody "Vote updated successfully" (vote_json row))), w').

(** The columns of [votes_user_id_poll_option_id_key]. *)
Definition vote_key (v : Vote) : Id * Id := (vote_userId v, vote_pollOptionId v).

(** One vote for option id [x], counted at option [o]. *)
Definition hit (x : Id) (o : PollOption) : nat :=
  if x =? option_id o then 1 else 0.

(** The preconditions of a vote, as table lookups. *)
Definition has_published_poll (P : Id) (d : Database) : bool :=
  existsb (fun p => (poll_id p =? P) && isPublished p) (polls d).

Definition option_in_poll (P O : Id) (d : Database) : bool :=
  existsb (fun o => (option_id o =? O) && (option_pollId o =? P)) (poll_options d).

(** The three refusals of [submitVote], as [errorHandler] renders them. *)
Definition not_found_or_not_published : Response :=
  mkResponse 404 (ErrorBody "Client Error" "Poll not found or not published").

Definition invalid_poll_option : Response :=
  mkResponse 400 (ErrorBody "Client Error" "Invalid poll option").

Definition already_voted : Response :=
  mkResponse 409 (ErrorBody "Client Error" "You have already voted for this option").

(** A step that leaves the tables alone and emits no [poll-updated]. *)
Definition silent (w w' : World) : Prop :=
  db w' = db w /\ db_online w' = db_online w
  /\ exists extra,
       outbox w' = (outbox w ++ extra)%list
       /\ Forall (fun e => event e <> "poll-updated") extra.

(** Only poll rows may differ, and none was added or removed. *)
Definition polls_only (d d' : Database) : Prop :=
  votes d' = votes d /\ poll_options d' = poll_options d
  /\ map poll_id (polls d') = map poll_id (polls d).

(** A step that may rewrite polls, keeps votes and options, and emits no
    [poll-updated]; [b] is the publication flag the request carried. *)
Definition poll_step (b : option bool) (w w' : World) : Prop :=
  polls_only (db w) (db w')
  /\ (b <> Some false -> forall P, published P (db w) -> published P (db w'))
  /\ db_online w' = db_online w
  /\ exists extra,
       outbox w' = (outbox w ++ extra)%list
       /\ Forall (fun e => event e <> "poll-updated") extra.

(** The poll a join request is admitted to, if any. *)
Definition joinable (arg : EventArg) (d : Database) : option Id :=
  match arg with
  | ArgString P =>
      if P =? "" then None
      else if has_published_poll P d then Some P else None
  | ArgOther => None
  end.

(** The one request that clears a publication flag. *)
Definition unpublishes (r : Request) : bool :=
  match r with
  | UpdatePoll _ _ _ (Some false) => true
  | _ => false
  end.


(** ** Worlds of the scenarios *)

(** Two users; poll [p], published, with options [A] and [B]; poll [q],
    a draft of [u2], with options [C] and [D]; socket [s1] already in the
    room of [p]; the controllers wired as [app.ts] does. *)
Definition demo_db : Database :=
  mkDatabase
    [mkUser "u1" "Ann"; mkUser "u2" "Bob"]
    [mkPoll "p" "Tabs or spaces?" true "u1"; mkPoll "q" "Vim or Emacs?" false "u2"]
    [mkPollOption "A" "tabs" "p"; mkPollOption "B" "spaces" "p";
     mkPollOption "C" "vim" "q"; mkPollOption "D" "emacs" "q"]
    [] 0.

Definition demo : World :=
  mkWorld demo_db true true true false ["s1"; "s2"]
          [(room_of "p", "s1")] [("s1", room_of "p")] [] [] 0.

(** [u1] has voted [A]. *)
Definition demo_voted : World := serve [SubmitVote (Some "u1") "p" "A"] demo.

(** Two requests of [u1] on [p], for [A] and for [B], whose awaited
    operations complete in turn. *)
Definition race_tasks : list (Prog Response) :=
  [route_submitVote (Some "u1") "p" "A"; route_submitVote (Some "u1") "p" "B"].

Definition race : list (Prog Response) * World :=
  interleave [0; 1; 0; 1; 0; 1; 0; 1] race_tasks demo.

(** A join request of socket [s2] for [p] and a vote of [u1] on [p].  The
    read of the join completes first, then the four awaited operations
    of the vote (the two checks, the write, the read of the broadcast),
    and [socket.join] last. *)
Definition late_tasks : list (Prog unit) :=
  map handle [JoinPoll "s2" (ArgString "p"); SubmitVote (Some "u1") "p" "A"].

Definition late_vote : list (Prog unit) * World :=
  interleave [0; 1; 1; 1; 1] late_tasks demo.

Definition late_join : list (Prog unit) * World :=
  interleave [0; 1; 1; 1; 1; 0] late_tasks demo.

(** The packets that reached a socket. *)
Definition received (sid : SocketId) (w : World) : list Emission :=
  filter (fun e => existsb (String.eqb sid) (recipients e)) (outbox w).

(** ** Binary64 roundings, as relations on integers *)

Section Binary64Definitions.
Local Open Scope Z_scope.

(** A location tells where the discarded part [r / d] lies in [0, 1). *)
Definition loc_ok (l : location) (r d : Z) : Prop :=
  match l with
  | loc_Exact => r = 0
  | loc_Inexact Lt => 0 < r /\ 2 * r < d
  | loc_Inexact Eq => 2 * r = d
  | loc_Inexact Gt => d < 2 * r
  end.

(** The record stands for the number [N / D]: its mantissa is the
    integer part and its two bits locate the rest. *)
Definition Rep (mrs : shr_record) (N D : Z) : Prop :=
  0 <= shr_m mrs
  /\ exists r, N = shr_m mrs * D + r /\ 0 <= r < D
               /\ loc_ok (loc_of_shr_record mrs) r D.

Definition p52 : Z := 4503599627370496.

Definition p53 : Z := 9007199254740992.

(** An integer below 2^53 is a Number, exactly. *)
Definition is_number (x : spec_float) (c : Z) : Prop :=
  exists mf ef,
    x = S754_finite false mf ef
    /\ p52 <= Zpos mf < p53 /\ -52 <= ef <= 0
    /\ Zpos mf = c * 2 ^ (- ef).

Definition hundred : spec_float := S754_finite false 7036874417766400 (-46).

End Binary64Definitions.

(** [n / 10] is a multiple of one tenth nearest to [100 * votes / total]. *)
Definition rounds_to_tenth (n : Z) (votes total : nat) : Prop :=
  (- Z.of_nat total <= 2 * (n * Z.of_nat total - 1000 * Z.of_nat votes)
   <= Z.of_nat total)%Z.

Definition percentage_ok (total : nat) (o : OptionResult) : Prop :=
  if Nat.eqb total 0 then res_percentage o = "0"
  else exists n, res_percentage o = fixed1 n
                 /\ rounds_to_tenth n (res_voteCount o) total.

(** * The rest of the controllers, the middleware and the socket events *)

(** ** Answers whose body is not one of [Body] *)

(** What a route sent: the JSON of its handler, or the answer of
    [errorHandler]. *)
Inductive Reply (X : Type) :=
| Json (status : nat) (json : X)
| Failed (response : Response).
Arguments Json {X} status json.
Arguments Failed {X} response.

(** [asyncHandler], for a handler that sends [json] with [status]. *)
Definition asyncHandler_json {X} (fn : Prog (nat * X)) : Prog (Reply X) :=
  try_catch (sent <<- fn ;; Ret (Json (fst sent) (snd sent)))
            (fun err => Ret (Failed (errorHandler err))).

(** ** Vote controller: the vote of a user on a poll *)

Record MyVote := mkMyVote
  { my_id : Id;
    my_option : Id * string;     (* pollOption: { id, text } *)
    my_createdAt : nat }.

Record MyVoteJson := mkMyVoteJson
  { hasVoted : bool;
    my_vote : option MyVote }.

(** [prisma.vote.findFirst({ where: { userId, pollOption: { pollId } },
      include: { pollOption: { select: { id, text } } } })], the first
    matching row in table order, as in [vote_findFirst]. *)
Definition vote_findFirst_option (userId pollId : Id) (d : Database)
  : Outcome (option (Vote * PollOption)) * Database :=
  match find (vote_on_poll userId pollId d) (votes d) with
  | None => (Ok None, d)
  | Some v =>
      match find_option (vote_pollOptionId v) d with
      | Some o => (Ok (Some (v, o)), d)
      | None => (Thrown InconsistentQueryResult, d)
      end
  end.

Definition getMyVoteForPoll (user : option Id) (pollId : Id)
  : Prog (nat * MyVoteJson) :=
  if falsy user then Throw (createError "User not authenticated" 401)
  else
    let userId := match user with Some u => u | None => "" end in
    vote <~ prisma (vote_findFirst_option userId pollId) ;;
    Ret (200,
         mkMyVoteJson
           (match vote with Some _ => true | None => false end)
           (match vote with
            | Some (v, o) =>
                Some (mkMyVote (vote_id v) (option_id o, option_text o)
                               (vote_createdAt v))
            | None => None
            end)).

(** [GET /polls/:pollId/my-vote] after authentication and validation. *)
Definition route_getMyVoteForPoll (user : option Id) (pollId : Id)
  : Prog (Reply MyVoteJson) :=
  asyncHandler_json (getMyVoteForPoll user pollId).

(** ** Poll controller: one poll with its statistics *)

(** [{ ...poll, totalVotes, options: [{ ...option, voteCount }] }] *)
Record PollWithStats := mkPollWithStats
  { stats_poll : Poll;
    stats_creator : User;
    stats_totalVotes : nat;
    stats_options : list (PollOption * nat) }.

(** [prisma.poll.findUnique({ where: { id }, include: { options: { include:
      { _count } }, creator: { select: { id, name } } } })] *)
Definition poll_findUnique_stats (pollId : Id) (d : Database)
  : Outcome (option (Poll * User * list (PollOption * nat))) * Database :=
  match find_poll pollId d with
  | None => (Ok None, d)
  | Some p =>
      match find_user (creatorId p) d with
      | Some creator =>
          (Ok (Some (p, creator,
                     map (fun o => (o, count_votes (option_id o) d))
                         (options_of pollId d))), d)
      | None => (Thrown InconsistentQueryResult, d)
      end
  end.

Definition getPollById (id : Id) : Prog (nat * PollWithStats) :=
  poll <~ prisma (poll_findUnique_stats id) ;;
  match poll with
  | None => Throw (createError "Poll not found" 404)
  | Some (p, creator, options) =>
      Ret (200, mkPollWithStats p creator (sum_votes options) options)
  end.

(** [GET /api/polls/:id] *)
Definition route_getPollById (id : Id) : Prog (Reply PollWithStats) :=
  asyncHandler_json (getPollById id).

(** ** Poll controller: creation *)

(** A query, and the queries of a transaction run one after the other on
    the tables the transaction sees. *)
Definition Query (X : Type) := Database -> Outcome X * Database.

Definition and_then {X Y} (q : Query X) (k : X -> Query Y) : Query Y :=
  fun d =>
    match q d with
    | (Ok x, d') => k x d'
    | (Thrown e, d') => (Thrown e, d')
    end.

(** [prisma.$transaction(async (tx) => body)]: the writes of the body
    are kept together, or none of them is. *)
Definition transaction {X} (body : Query X) : Query X :=
  fun d =>
    match body d with
    | (Ok x, d') => (Ok x, d')
    | (Thrown e, _) => (Thrown e, d)
    end.

(** [tx.poll.create({ data: { question, isPublished, creatorId } })]:
    P2002 on [polls_pkey]. *)
Definition poll_create (question : string) (isPublished : bool) (creatorId : Id)
  : Query Poll :=
  fun d =>
    let p := mkPoll (cuid (cuid_seq d)) question isPublished creatorId in
    if existsb (fun x => poll_id x =? poll_id p) (polls d)
    then (Thrown (PrismaClientKnownRequestError "P2002"), d)
    else (Ok p, mkDatabase (users d) (polls d ++ [p])%list (poll_options d)
                           (votes d) (S (cuid_seq d))).

(** [tx.pollOption.createMany({ data: texts.map(text => ({ text, pollId })) })]:
    one statement, P2002 on [poll_options_pkey]; the result is the count. *)
Fixpoint pollOption_createMany (pollId : Id) (texts : list string) : Query nat :=
  match texts with
  | [] => fun d => (Ok 0, d)
  | text :: rest =>
      fun d =>
        let o := mkPollOption (cuid (cuid_seq d)) text pollId in
        if existsb (fun x => option_id x =? option_id o) (poll_options d)
        then (Thrown (PrismaClientKnownRequestError "P2002"), d)
        else
          match pollOption_createMany pollId rest
                  (mkDatabase (users d) (polls d) (poll_options d ++ [o])%list
                              (votes d) (S (cuid_seq d))) with
          | (Ok count, d') => (Ok (S count), d')
          | (Thrown e, _) => (Thrown e, d)
          end
  end.

(** The body of the transaction of [createPoll]. *)
Definition create_poll_with_options (question : string) (isPublished : bool)
    (userId : Id) (options : list string)
  : Query (option (Poll * User * list PollOption)) :=
  and_then (poll_create question isPublished userId) (fun createdPoll =>
  and_then (pollOption_createMany (poll_id createdPoll) options) (fun _ =>
  poll_findUnique_creator (poll_id createdPoll))).

(** [{ message, poll }]; [poll] is what [findUnique] returned. *)
Record CreatedJson := mkCreatedJson
  { created_message : string;
    created_poll : option (Poll * User * list PollOption) }.

(** [poll!.id] of [null] is a TypeError: an error without [statusCode]
    that is no known request error of Prisma, which [errorHandler]
    renders as it renders [InconsistentQueryResult]. *)
Definition createPoll (user : option Id) (question : string)
    (options : list string) (isPublished : bool) : Prog (nat * CreatedJson) :=
  if falsy user then Throw (createError "User not authenticated" 401)
  else
    let userId := match user with Some u => u | None => "" end in
    poll <~ prisma (transaction
                      (create_poll_with_options question isPublished userId options)) ;;
    ready <- io_ready ;;
    _ <<- (if isPublished && ready
           then match poll with
                | Some (p, _, _) => broadcastNewPoll (poll_id p)
                | None => Throw InconsistentQueryResult
                end
           else Ret tt) ;;
    Ret (201, mkCreatedJson "Poll created successfully" poll).

(** [POST /api/polls] after authentication and validation by
    [createPollSchema]; [options] are the texts of the options. *)
Definition route_createPoll (user : option Id) (question : string)
    (options : list string) (isPublished : bool) : Prog (Reply CreatedJson) :=
  asyncHandler_json (createPoll user question options isPublished).

(** The status of an answer. *)
Definition reply_status {X} (r : Reply X) : nat :=
  match r with
  | Json code _ => code
  | Failed response => status response
  end.

(** ** Authentication (src/utils/jwt.ts, src/middleware/auth.ts) *)

Record JWTPayload := mkJWTPayload
  { payload_userId : Id;
    payload_email : string }.

(** [authHeader.startsWith('Bearer ')] and [authHeader.substring(7)] *)
Definition extractTokenFromHeader (authHeader : string) : option string :=
  if (authHeader =? "") || negb (prefix "Bearer " authHeader) then None
  else Some (substring 7 (String.length authHeader - 7) authHeader).

Definition unauthorized (message : string) : Response :=
  mkResponse 401 (ErrorBody "Unauthorized" message).

(** [prisma.user.findUnique({ where: { id } })]; of the selected columns
    the tables of this development hold [id] and [name]. *)
Definition user_findUnique (id : Id) : Query (option User) :=
  fun d => (Ok (find_user id d), d).

Section Authentication.

(** [JWTService.verifyAccessToken]: the payload of a token that
    [jsonwebtoken] verifies, [null] otherwise. *)
Variable verifyAccessToken : string -> option JWTPayload.

(** [authenticateToken]: [inr user] stands for [req.user = user; next()]. *)
Definition authenticateToken (authorization : option string)
  : Prog (Response + User) :=
  try_catch
    (if falsy authorization
     then Ret (inl (unauthorized "Access token is required"))
     else
       let authHeader := match authorization with Some h => h | None => "" end in
       let token := extractTokenFromHeader authHeader in
       if falsy token then Ret (inl (unauthorized "Invalid token format"))
       else
         match verifyAccessToken (match token with Some t => t | None => "" end) with
         | None => Ret (inl (unauthorized "Invalid or expired token"))
         | Some payload =>
             user <~ prisma (user_findUnique (payload_userId payload)) ;;
             match user with
             | None => Ret (inl (unauthorized "User not found"))
             | Some found => Ret (inr found)
             end
         end)
    (fun error =>
       _ <- console_log "Authentication error:" ;;
       Ret (inl (mkResponse 500
              (ErrorBody "Internal Server Error" "Authentication failed")))).

(** The three ways [authenticateToken] ends. *)
Inductive AuthCase (authorization : option string) (w : World)
  : Outcome (Response + User) * World -> Prop :=
| Refused message :
    (forall token payload,
        authorization = Some ("Bearer " ++ token) -> token <> "" ->
        verifyAccessToken token = Some payload ->
        db_online w = true /\ find_user (payload_userId payload) (db w) = None) ->
    AuthCase authorization w (Ok (inl (unauthorized message)), w)
| Failed500 token payload :
    authorization = Some ("Bearer " ++ token) -> token <> "" ->
    verifyAccessToken token = Some payload ->
    db_online w = false ->
    AuthCase authorization w
      (Ok (inl (mkResponse 500
                  (ErrorBody "Internal Server Error" "Authentication failed"))),
       set_console (console w ++ ["Authentication error:"]) w)
| Passed token payload user :
    authorization = Some ("Bearer " ++ token) -> token <> "" ->
    verifyAccessToken token = Some payload ->
    db_online w = true ->
    find_user (payload_userId payload) (db w) = Some user ->
    AuthCase authorization w (Ok (inr user), w).

(** A route behind [authenticateToken]. *)
Definition authenticated (authorization : option string)
    (next : User -> Prog Response) : Prog Response :=
  checked <<- authenticateToken authorization ;;
  match checked with
  | inl response => Ret response
  | inr user => next user
  end.

(** [POST /api/polls/:pollId/vote] as the router mounts it, for a request
    that passes the validation middleware. *)
Definition post_vote (authorization : option string) (pollId pollOptionId : Id)
  : Prog Response :=
  authenticated authorization
    (fun user => route_submitVote (Some (user_id user)) pollId pollOptionId).

End Authentication.

(** ** Socket handler: leave-poll *)

(** [socket.leave(room)] *)
Definition socket_leave (sid : SocketId) (room : string) : Action unit :=
  fun w =>
    (Ok tt,
     set_rooms (filter (fun m => negb ((fst m =? room) && (snd m =? sid)))
                       (rooms w)) w).

(** [socket.currentPollRooms?.delete(room)] *)
Definition currentPollRooms_delete (sid : SocketId) (room : string) : Action unit :=
  fun w =>
    (Ok tt,
     set_currentPollRooms
       (filter (fun m => negb ((fst m =? sid) && (snd m =? room)))
               (currentPollRooms w)) w).

(** The handler of [leave-poll]; [pollId] is the text the template
    literal makes of the argument of the event. *)
Definition leave_poll (sid : SocketId) (pollId : string) : Prog unit :=
  try_catch
    (let roomName := room_of pollId in
     _ <~ socket_leave sid roomName ;;
     _ <- currentPollRooms_delete sid roomName ;;
     _ <- console_log ("User left poll room: " ++ roomName) ;;
     size <- room_size roomName ;;
     _ <- emit (ToRoomExcept roomName sid) "user-left-poll"
            (PresencePayload "A user left the poll" size) ;;
     Ret tt)
    (fun error =>
       _ <- console_log "Error leaving poll room:" ;;
       _ <- emit (ToSocket sid) "error" (MessagePayload "Failed to leave poll room") ;;
       Ret tt).

(** ** Everything served, one event at a time *)

Inductive Event :=
| Served (r : Request)
| CreatePoll (user : option Id) (question : string) (options : list string)
             (isPublished : bool)
| LeavePoll (sid : SocketId) (pollId : string).

Definition handle_event (e : Event) : Prog unit :=
  match e with
  | Served r => handle r
  | CreatePoll user question options isPublished =>
      discard (route_createPoll user question options isPublished)
  | LeavePoll sid pollId => leave_poll sid pollId
  end.

Definition serve_events (events : list Event) (w : World) : World :=
  fold_left (fun w e => snd (run (handle_event e) w)) events w.

(** ** Notions used by the statements about these handlers *)

(** The options [pollOption_createMany] adds, from the generator at [seq]. *)
Fixpoint new_options (seq : nat) (pollId : Id) (texts : list string)
  : list PollOption :=
  match texts with
  | [] => []
  | text :: rest => mkPollOption (cuid seq) text pollId :: new_options (S seq) pollId rest
  end.

(** No row has the id, and no row refers to it. *)
Definition unused (id : Id) (d : Database) : bool :=
  negb (existsb (fun p => poll_id p =? id) (polls d))
  && negb (existsb (fun o => (option_id o =? id) || (option_pollId o =? id))
                   (poll_options d))
  && negb (existsb (fun v => (vote_id v =? id) || (vote_pollOptionId v =? id))
                   (votes d)).

(** The generator has not yet reached an id in use. *)
Definition generator_ahead (d : Database) : Prop :=
  forall n, cuid_seq d <= n -> unused (cuid n) d = true.

(** [socket.currentPollRooms] lists the poll rooms of the adapter the
    socket is in. *)
Definition rooms_tracked (w : World) : Prop :=
  forall sid pollId,
    is_member (room_of pollId) sid w =
    existsb (fun m => (fst m =? sid) && (snd m =? room_of pollId))
            (currentPollRooms w).

(** The packets sent to a room that were delivered to a socket. *)
Definition to_room (room : string) (c : Channel) : bool :=
  match c with
  | ToRoom r => r =? room
  | ToRoomExcept r _ => r =? room
  | _ => false
  end.

Definition received_in_room (room : string) (sid : SocketId) (w : World)
  : list Emission :=
  filter (fun e => to_room room (channel e)
                   && existsb (String.eqb sid) (recipients e))
         (outbox w).

(** The socket is out of the room of the poll and has received [mail]
    in it. *)
Definition left_with (pollId : Id) (sid : SocketId) (mail : list Emission)
    (w : World) : Prop :=
  is_member (room_of pollId) sid w = false
  /\ received_in_room (room_of pollId) sid w = mail.

(** The memberships are these. *)
Definition rooms_are (r : list (string * SocketId)) (c : list (SocketId * string))
    (w : World) : Prop :=
  rooms w = r /\ currentPollRooms w = c.

(** The joins of an event are among those [may_join] allows. *)
Definition joins_only (may_join : SocketId -> string -> Prop) (e : Event) : Prop :=
  match e with
  | Served (JoinPoll sid (ArgString pollId)) => may_join sid (room_of pollId)
  | _ => True
  end.

(** A property of the tables, as a property of the process. *)
Definition in_db (J : Database -> Prop) (w : World) : Prop := J (db w).

(** Every action of a program keeps [I]. *)
Fixpoint keeps {A} (I : World -> Prop) (p : Prog A) : Prop :=
  match p with
  | Ret _ => True
  | Throw _ => True
  | Await act k => (forall w, I w -> I (snd (act w))) /\ forall r, keeps I (k r)
  | Sync act k => (forall w, I w -> I (snd (act w))) /\ forall r, keeps I (k r)
  end.

(** The statuses [POST /polls/:pollId/vote] answers with. *)
Definition vote_statuses : list nat := [200; 400; 401; 404; 409; 500].

(** ** Notions used by the statements about polls and results *)

(** The tables after a poll was created by [u] from a generator that is
    ahead. *)
Definition with_new_poll (q : string) (b : bool) (u : Id) (texts : list string)
    (d : Database) : Database :=
  mkDatabase (users d)
    (polls d ++ [mkPoll (cuid (cuid_seq d)) q b u])
    (poll_options d ++ new_options (S (cuid_seq d)) (cuid (cuid_seq d)) texts)
    (votes d) (S (cuid_seq d) + length texts).

(** The refusal of the ownership check, for a user who is not the
    creator of the poll. *)
Definition refusal (id : Id) (d : Database) : Response :=
  if id =? ""
  then mkResponse 400 (ErrorBody "Bad Request" "Poll ID is required")
  else match find_poll id d with
       | Some _ => mkResponse 403
                     (ErrorBody "Forbidden" "You can only modify your own polls")
       | None => mkResponse 404 (ErrorBody "Not Found" "Poll not found")
       end.

(** The row [poll_update] writes over [p]. *)
Definition updated (id : Id) (q : option string) (b : option bool) (p : Poll) : Poll :=
  mkPoll id
    (match q with Some t => t | None => question p end)
    (match b with Some x => x | None => isPublished p end)
    (creatorId p).

Definition rewrite_poll (id : Id) (p' : Poll) (d : Database) : Database :=
  set_polls (map (fun x => if poll_id x =? id then p' else x) (polls d)) d.

(** The packets sent once [broadcastNewPoll] has run for [P]. *)
Definition announced (P : Id) (w : World) : list Emission :=
  if db_online w && negb (io_faulty w)
  then match find_poll P (db w) with
       | Some p =>
           match find_user (creatorId p) (db w) with
           | Some creator =>
               if isPublished p
               then (outbox w ++
                     [mkEmission ToEveryone "new-poll-published"
                        (NewPollPayload (poll_id p) (question p)
                           (user_name creator) (options_of (poll_id p) (db w))
                           (clock w))
                        (connected w)])%list
               else outbox w
           | None => outbox w
           end
       | None => outbox w
       end
  else outbox w.

(** The sum of a list of integers. *)
Definition Zsum (l : list Z) : Z := fold_right Z.add 0%Z l.

(** ** Turns of interleaved handlers *)







(** * Proofs *)

(** ** Programs *)

Lemma run_bind {A B} (p : Prog A) (f : A -> Prog B) (w : World) :
  run (bind p f) w =
  match run p w with
  | (Ok a, w') => run (f a) w'
  | (Thrown e, w') => (Thrown e, w')
  end.
Proof.
  revert w; induction p as [a | e | X act k IH | X act k IH]; intro w; cbn;
    try reflexivity; destruct (act w) as [r w']; apply IH.
Qed.

Lemma run_try_catch {A} (p : Prog A) (h : Error -> Prog A) (w : World) :
  run (try_catch p h) w =
  match run p w with
  | (Ok a, w') => (Ok a, w')
  | (Thrown e, w') => run (h e) w'
  end.
Proof.
  revert w; induction p as [a | e | X act k IH | X act k IH]; intro w; cbn;
    try reflexivity; destruct (act w) as [r w']; apply IH.
Qed.

Lemma run_await {X A} (act : Action X) (k : X -> Prog A) (w : World) :
  run (await act k) w =
  match act w with
  | (Ok x, w') => run (k x) w'
  | (Thrown e, w') => (Thrown e, w')
  end.
Proof. cbn. destruct (act w) as [[x | e] w']; reflexivity. Qed.

Lemma run_call {X A} (act : Action X) (k : X -> Prog A) (w : World) :
  run (call act k) w =
  match act w with
  | (Ok x, w') => run (k x) w'
  | (Thrown e, w') => (Thrown e, w')
  end.
Proof. cbn. destruct (act w) as [[x | e] w']; reflexivity. Qed.

(** A handler wrapped by [asyncHandler] always answers. *)
Lemma run_asyncHandler (fn : Prog Response) (w : World) :
  run (asyncHandler fn) w =
  match run fn w with
  | (Ok r, w') => (Ok r, w')
  | (Thrown e, w') => (Ok (errorHandler e), w')
  end.
Proof. unfold asyncHandler. rewrite run_try_catch. reflexivity. Qed.

(** ** Broadcasts *)

Lemma find_agree {A} (f g : A -> bool) (l : list A) :
  (forall a, f a = g a) -> find f l = find g l.
Proof.
  intro H; induction l as [| a l IH]; cbn; [reflexivity |].
  rewrite H, IH; reflexivity.
Qed.

Lemma find_any_poll (pollId : Id) (d : Database) :
  find (fun p => (poll_id p =? pollId) && true) (polls d) = find_poll pollId d.
Proof.
  unfold find_poll. apply find_agree. intro p. apply andb_true_r.
Qed.

Lemma run_broadcastVoteUpdate (pollId : Id) (w : World) :
  exists w',
    run (broadcastVoteUpdate pollId) w = (Ok tt, w')
    /\ db w' = db w /\ db_online w' = db_online w
    /\ controller_io w' = controller_io w /\ io_utilities w' = io_utilities w
    /\ io_faulty w' = io_faulty w /\ rooms w' = rooms w
    /\ currentPollRooms w' = currentPollRooms w /\ clock w' = clock w
    /\ connected w' = connected w
    /\ outbox w' =
       if db_online w && negb (io_faulty w)
       then match find_poll pollId (db w) with
            | Some _ => (outbox w ++ [vote_update_packet pollId w])%list
            | None => outbox w
            end
       else outbox w.
Proof.
  unfold broadcastVoteUpdate. rewrite run_try_catch, run_await.
  unfold prisma at 1, poll_findUnique_counts. rewrite find_any_poll.
  destruct w as [d on cio iu f cn rm cpr ob cs ck]; cbn.
  destruct on; cbn.
  - destruct (find_poll pollId d) as [p |] eqn:Hp; cbn.
    + unfold emit; cbn. destruct f; cbn.
      * eexists; split; [reflexivity |]; cbn; repeat split; reflexivity.
      * eexists; split; [reflexivity |]; cbn; repeat split; try reflexivity.
        unfold vote_update_packet; cbn. rewrite Hp. reflexivity.
    + eexists; split; [reflexivity |]; cbn. destruct f; repeat split; reflexivity.
  - eexists; split; [reflexivity |]; cbn; repeat split; reflexivity.
Qed.

(** ** The two writes of the vote table *)

Ltac refute := let H := fresh in intro H; discriminate H.

Lemma vote_create_ok now u O d row d' :
  vote_create now u O d = (Ok row, d') ->
  exists o p,
    row = (mkVote (cuid (cuid_seq d)) now u O, o, p)
    /\ find_option O d = Some o /\ find_poll (option_pollId o) d = Some p
    /\ existsb (fun x => vote_id x =? cuid (cuid_seq d)) (votes d) = false
    /\ existsb (fun x => (vote_userId x =? u) && (vote_pollOptionId x =? O))
               (votes d) = false
    /\ d' = set_votes (votes d ++ [mkVote (cuid (cuid_seq d)) now u O])%list
                      (S (cuid_seq d)) d.
Proof.
  unfold vote_create, vote_include; cbn [vote_id vote_pollOptionId].
  destruct (_ || _) eqn:Hor; [refute |].
  apply orb_false_elim in Hor as [Hid Hkey].
  destruct (find_option O d) as [o |] eqn:Ho; [| refute].
  destruct (find_poll (option_pollId o) d) as [p |] eqn:Hp; [| refute].
  intro H; inversion H; subst. exists o, p. repeat split; assumption.
Qed.

Lemma vote_create_fails now u O d e d' :
  vote_create now u O d = (Thrown e, d') -> d' = d.
Proof.
  unfold vote_create.
  destruct (_ || _); [intro H; inversion H; reflexivity |].
  destruct (vote_include _ d); intro H; inversion H; reflexivity.
Qed.

Lemma vote_update_ok id O d row d' :
  vote_update id O d = (Ok row, d') ->
  exists old o p,
    find (fun v => vote_id v =? id) (votes d) = Some old
    /\ vote_id old = id
    /\ row = (moved old O, o, p)
    /\ find_option O d = Some o /\ find_poll (option_pollId o) d = Some p
    /\ existsb (fun v => negb (vote_id v =? id)
                         && (vote_userId v =? vote_userId old)
                         && (vote_pollOptionId v =? O)) (votes d) = false
    /\ d' = set_votes (map (move_row old O) (votes d)) (cuid_seq d) d.
Proof.
  unfold vote_update, vote_include; cbn [vote_id vote_pollOptionId].
  destruct (find _ (votes d)) as [old |] eqn:Hold; [| refute].
  destruct (existsb _ (votes d)) eqn:Hkey; [refute |].
  destruct (find_option O d) as [o |] eqn:Ho; [| refute].
  destruct (find_poll (option_pollId o) d) as [p |] eqn:Hp; [| refute].
  pose proof (find_some _ _ Hold) as [_ Hid]. apply String.eqb_eq in Hid.
  intro H; inversion H; subst. exists old, o, p.
  unfold moved, move_row. repeat split; assumption || reflexivity.
Qed.

Lemma vote_update_fails id O d e d' :
  vote_update id O d = (Thrown e, d') -> d' = d.
Proof.
  unfold vote_update.
  destruct (find _ (votes d)); [| intro H; inversion H; reflexivity].
  destruct (existsb _ (votes d)); [intro H; inversion H; reflexivity |].
  destruct (vote_include _ d); intro H; inversion H; reflexivity.
Qed.

(** ** The cases of [submitVote] *)

Lemma set_db_same (w : World) : set_db (db w) w = w.
Proof. destruct w; reflexivity. Qed.

Lemma after_write (P : Id) (d' : Database) (w : World) (r : Response) :
  db_online w = true ->
  exists w',
    run (ready <- io_ready ;;
         _ <<- (if ready : bool then broadcastVoteUpdate P else Ret tt) ;;
         Ret r) (set_db d' w) = (Ok r, w')
    /\ after_vote P d' w w'.
Proof.
  intro Hon. rewrite run_call. unfold io_ready; cbn [set_db controller_io io_utilities].
  rewrite run_bind.
  destruct (controller_io w && io_utilities w) eqn:Hready; cbn [andb].
  - destruct (run_broadcastVoteUpdate P (set_db d' w))
      as (w' & Hrun & Hdb & Hon' & Hc & Hu & Hf & Hr & Hcp & Hck & Hcn & Hout).
    rewrite Hrun. exists w'. split; [reflexivity |].
    unfold after_vote.
    cbn [set_db db db_online controller_io io_utilities io_faulty rooms
         currentPollRooms clock connected outbox]
      in Hdb, Hon', Hc, Hu, Hf, Hr, Hcp, Hck, Hcn, Hout.
    rewrite Hon in Hout. cbn [andb] in Hout.
    repeat split; try assumption. rewrite Hready. exact Hout.
  - cbn. exists (set_db d' w). split; [reflexivity |].
    unfold after_vote; rewrite Hready; cbn. repeat split; reflexivity.
Qed.

Lemma submitVote_cases user P O w :
  VoteCase user P O w (run (submitVote user P O) w).
Proof.
  unfold submitVote.
  destruct (falsy user) eqn:Hfalsy; [apply Rejected |].
  destruct user as [u |]; [| discriminate]. cbn in Hfalsy.
  assert (Hu : u <> "") by (apply String.eqb_neq; exact Hfalsy).
  rewrite run_await. unfold prisma at 1.
  destruct (db_online w) eqn:Hon; [| apply Rejected].
  unfold poll_findUnique_published_option. rewrite set_db_same.
  destruct (find _ (polls (db w))) as [p |] eqn:Hp; [| apply Rejected].
  destruct (filter _ (options_of P (db w))) as [| o os] eqn:Hopts;
    [apply Rejected |]. cbn [length Nat.eqb].
  assert (Hacc : poll_accepts P O (db w)).
  { split; [exists p; exact Hp | rewrite Hopts; discriminate]. }
  rewrite run_await. unfold prisma at 1. rewrite Hon.
  unfold vote_findFirst. rewrite set_db_same.
  destruct (find (vote_on_poll u P (db w)) (votes (db w))) as [existing |] eqn:Hex.
  - destruct (vote_pollOptionId existing =? O) eqn:Hsame.
    + rewrite run_bind. cbn. apply Rejected.
    + apply String.eqb_neq in Hsame.
      rewrite run_bind, run_await. unfold prisma at 1. rewrite Hon.
      destruct (vote_update (vote_id existing) O (db w)) as [[row | e] d'] eqn:Hupd.
      * cbn [run fst snd].
        destruct (after_write P d' w
                    (mkResponse 200 (VoteBody "Vote updated successfully"
                                              (vote_json row))) Hon)
          as (w' & Hrun & Hafter).
        rewrite Hrun. eapply Moved; eauto.
      * apply vote_update_fails in Hupd. subst d'. rewrite set_db_same.
        apply Rejected.
  - rewrite run_bind, run_await. unfold prisma at 1. rewrite Hon.
    destruct (vote_create (clock w) u O (db w)) as [[row | e] d'] eqn:Hcr.
    + cbn [run fst snd].
      destruct (after_write P d' w
                  (mkResponse 200 (VoteBody "Vote submitted successfully"
                                            (vote_json row))) Hon)
        as (w' & Hrun & Hafter).
      rewrite Hrun. eapply Created; eauto.
    + apply vote_create_fails in Hcr. subst d'. rewrite set_db_same.
      apply Rejected.
Qed.

(** ** Keys and rows *)

Section Keys.
Context {A : Type} (key : A -> Id).

Lemma existsb_key_false (k : Id) (l : list A) :
  existsb (String.eqb k) (map key l) = false <->
  (forall a, In a l -> key a <> k).
Proof.
  induction l as [| b l IH]; cbn.
  - split; [intros _ a [] | reflexivity].
  - rewrite orb_false_iff, IH. split.
    + intros [Hb Hl] a [-> | Ha]; [| apply Hl; exact Ha].
      apply String.eqb_neq in Hb. congruence.
    + intro H. split.
      * apply String.eqb_neq. intro E. apply (H b); [left; reflexivity | congruence].
      * intros a Ha. apply H. right; exact Ha.
Qed.

Lemma distinct_ids_cons (b : A) (l : list A) :
  distinct_ids (map key (b :: l)) = true <->
  (forall a, In a l -> key a <> key b) /\ distinct_ids (map key l) = true.
Proof.
  cbn. rewrite andb_true_iff, negb_true_iff, existsb_key_false. reflexivity.
Qed.

(** Two rows with the same key are the same row. *)
Lemma same_key_same_row (l : list A) (a b : A) :
  distinct_ids (map key l) = true ->
  In a l -> In b l -> key a = key b -> a = b.
Proof.
  induction l as [| c l IH]; [intros _ [] |].
  intros Hd Ha Hb E. apply distinct_ids_cons in Hd as [Hc Hl].
  destruct Ha as [-> | Ha], Hb as [-> | Hb].
  - reflexivity.
  - exfalso. apply (Hc b Hb). congruence.
  - exfalso. apply (Hc a Ha). congruence.
  - apply IH; assumption.
Qed.

Lemma find_by_key (l : list A) (a : A) :
  distinct_ids (map key l) = true ->
  In a l -> find (fun x => key x =? key a) l = Some a.
Proof.
  intros Hd Ha.
  destruct (find (fun x => key x =? key a) l) as [b |] eqn:Hf.
  - apply find_some in Hf as [Hb E]. apply String.eqb_eq in E.
    f_equal. apply (same_key_same_row l); assumption.
  - exfalso. apply (find_none _ _ Hf) in Ha. rewrite String.eqb_refl in Ha.
    discriminate Ha.
Qed.

Lemma distinct_ids_snoc (l : list A) (b : A) :
  distinct_ids (map key l) = true ->
  existsb (fun x => key x =? key b) l = false ->
  distinct_ids (map key (l ++ [b])) = true.
Proof.
  induction l as [| c l IH]; [reflexivity |].
  intros Hd Hb. apply distinct_ids_cons in Hd as [Hc Hl].
  cbn in Hb. apply orb_false_elim in Hb as [Hcb Hb].
  change ((c :: l) ++ [b])%list with (c :: (l ++ [b]))%list.
  apply distinct_ids_cons. split; [| apply IH; assumption].
  intros a Ha. apply in_app_or in Ha as [Ha | [<- | []]].
  - apply Hc; exact Ha.
  - apply String.eqb_neq in Hcb. congruence.
Qed.
End Keys.

Lemma find_none_filter {A} (f : A -> bool) (l : list A) :
  find f l = None -> filter f l = [].
Proof.
  induction l as [| a l IH]; cbn; [reflexivity |].
  destruct (f a); [refute | exact IH].
Qed.

Lemma filter_length_map {A} (f : A -> bool) (g : A -> A) (l : list A) :
  (forall a, In a l -> f (g a) = f a) ->
  length (filter f (map g l)) = length (filter f l).
Proof.
  induction l as [| a l IH]; intro H; cbn; [reflexivity |].
  rewrite (H a (or_introl eq_refl)).
  destruct (f a); cbn; rewrite IH; auto; intros b Hb; apply H; right; exact Hb.
Qed.

Lemma filter_length_snoc {A} (f : A -> bool) (l : list A) (a : A) :
  length (filter f (l ++ [a])) = length (filter f l) + (if f a then 1 else 0).
Proof.
  rewrite filter_app, length_app. cbn. destruct (f a); reflexivity.
Qed.

(** The pair index, through the key "user/option" of a row. *)
Lemma distinct_cons (a b : Id) (l : list (Id * Id)) :
  distinct ((a, b) :: l) = true <->
  (forall x, In x l -> x <> (a, b)) /\ distinct l = true.
Proof.
  cbn. rewrite andb_true_iff, negb_true_iff. split; intros [H Hl]; split; try exact Hl.
  - intros x Hx E. subst x.
    assert (existsb (fun x => (fst x =? a) && (snd x =? b)) l = true).
    { apply existsb_exists. exists (a, b). split; [exact Hx |].
      cbn. rewrite !String.eqb_refl. reflexivity. }
    congruence.
  - apply not_true_is_false. intro Hex.
    apply existsb_exists in Hex as ([x y] & Hx & E). cbn in E.
    apply andb_true_iff in E as [E1 E2].
    apply String.eqb_eq in E1, E2. subst. exfalso. apply (H _ Hx). reflexivity.
Qed.

Lemma index_snoc (l : list Vote) (v : Vote) :
  distinct (map vote_key l) = true ->
  existsb (fun x => (vote_userId x =? vote_userId v)
                    && (vote_pollOptionId x =? vote_pollOptionId v)) l = false ->
  distinct (map vote_key (l ++ [v])) = true.
Proof.
  induction l as [| c l IH]; [reflexivity |].
  intros Hd Hv. change (map vote_key (c :: l)) with (vote_key c :: map vote_key l) in Hd.
  unfold vote_key at 1 in Hd. apply distinct_cons in Hd as [Hc Hl].
  cbn in Hv. apply orb_false_elim in Hv as [Hcv Hv].
  change (map vote_key ((c :: l) ++ [v]))
    with ((vote_userId c, vote_pollOptionId c) :: map vote_key (l ++ [v])).
  apply distinct_cons. split; [| apply IH; assumption].
  intros x Hx. rewrite map_app in Hx. apply in_app_or in Hx as [Hx | [<- | []]].
  - apply Hc; exact Hx.
  - unfold vote_key. intro E. inversion E as [[E1 E2]].
    rewrite E1, E2, !String.eqb_refl in Hcv. discriminate Hcv.
Qed.

Lemma index_move (old : Vote) (O : Id) (l : list Vote) :
  distinct_ids (map vote_id l) = true ->
  distinct (map vote_key l) = true ->
  (forall v, In v l -> vote_id v <> vote_id old -> vote_key v <> (vote_userId old, O)) ->
  distinct (map vote_key (map (move_row old O) l)) = true.
Proof.
  induction l as [| a l IH]; [reflexivity |].
  intros Hid Hkey Hfree.
  apply distinct_ids_cons in Hid as [Ha Hid].
  change (map vote_key (a :: l)) with (vote_key a :: map vote_key l) in Hkey.
  unfold vote_key at 1 in Hkey. apply distinct_cons in Hkey as [Hka Hkey].
  change (map vote_key (map (move_row old O) (a :: l)))
    with ((vote_userId (move_row old O a), vote_pollOptionId (move_row old O a))
            :: map vote_key (map (move_row old O) l)).
  apply distinct_cons. split.
  - intros x Hx. apply in_map_iff in Hx as (v' & <- & Hv').
    apply in_map_iff in Hv' as (v & <- & Hv).
    unfold move_row. destruct (vote_id a =? vote_id old) eqn:Ea.
    + apply String.eqb_eq in Ea.
      assert (Hv_id : vote_id v <> vote_id old) by (rewrite <- Ea; apply Ha; exact Hv).
      apply String.eqb_neq in Hv_id. rewrite Hv_id. cbn.
      apply Hfree; [right; exact Hv | apply String.eqb_neq; exact Hv_id].
    + apply String.eqb_neq in Ea.
      destruct (vote_id v =? vote_id old) eqn:Ev.
      * cbn. intro E. apply (Hfree a (or_introl eq_refl) Ea). symmetry. exact E.
      * apply Hka. apply in_map. exact Hv.
  - apply IH; try assumption. intros v Hv. apply Hfree. right; exact Hv.
Qed.

Lemma move_keeps_ids (old : Vote) (O : Id) (l : list Vote) :
  map vote_id (map (move_row old O) l) = map vote_id l.
Proof.
  rewrite map_map. apply map_ext. intro v. unfold move_row.
  destruct (vote_id v =? vote_id old) eqn:E; [| reflexivity].
  apply String.eqb_eq in E. cbn. congruence.
Qed.

(** ** Options and polls of an accepted vote *)

Lemma accepted_option (P O : Id) (d : Database) :
  poll_options_pkey d = true ->
  poll_accepts P O d ->
  exists o, find_option O d = Some o /\ option_pollId o = P.
Proof.
  intros Hpk [_ Hne].
  destruct (filter _ (options_of P d)) as [| o os] eqn:Hf; [contradiction |].
  assert (Ho : In o (filter (fun o => option_id o =? O) (options_of P d)))
    by (rewrite Hf; left; reflexivity).
  apply filter_In in Ho as [Ho HO]. apply filter_In in Ho as [Ho HP].
  apply String.eqb_eq in HO, HP. exists o. split; [| exact HP].
  unfold find_option. rewrite <- HO.
  apply (find_by_key option_id); assumption.
Qed.

Lemma accepted_poll (P O : Id) (d : Database) :
  poll_accepts P O d -> exists p, find_poll P d = Some p.
Proof.
  intros [[p Hp] _]. unfold find_poll.
  destruct (find (fun p => poll_id p =? P) (polls d)) as [q |] eqn:Hq;
    [exists q; reflexivity |].
  apply find_some in Hp as [Hin Hp]. apply andb_true_iff in Hp as [Hp _].
  apply (find_none _ _ Hq) in Hin. congruence.
Qed.

Lemma constraints_split (d : Database) :
  constraints_hold d = true <->
  polls_pkey d = true /\ poll_options_pkey d = true /\ votes_pkey d = true
  /\ votes_user_id_poll_option_id_key d = true.
Proof.
  unfold constraints_hold. rewrite !andb_true_iff. tauto.
Qed.

Lemma on_poll_of_option (P' O : Id) (d : Database) (o : PollOption) (v : Vote) :
  find_option O d = Some o -> vote_pollOptionId v = O ->
  on_poll P' d v = (option_pollId o =? P').
Proof. intros Ho E. unfold on_poll. rewrite E, Ho. reflexivity. Qed.

Lemma vote_on_poll_split (u P : Id) (d : Database) (v : Vote) :
  vote_on_poll u P d v = (vote_userId v =? u) && on_poll P d v.
Proof. reflexivity. Qed.

(** ** What a created vote and a moved vote do to the tables *)

Lemma created_db (d d' : Database) (u P O : Id) (now : nat)
    (row : Vote * PollOption * Poll) :
  constraints_hold d = true ->
  poll_accepts P O d ->
  find (vote_on_poll u P d) (votes d) = None ->
  vote_create now u O d = (Ok row, d') ->
  constraints_hold d' = true
  /\ (at_most_one_vote_per_user_poll d -> at_most_one_vote_per_user_poll d')
  /\ (forall P', ledger_count P' d' =
                 ledger_count P' d + (if P =? P' then 1 else 0))
  /\ polls d' = polls d /\ poll_options d' = poll_options d
  /\ votes d' = (votes d ++ [fst (fst row)])%list
  /\ vote_userId (fst (fst row)) = u /\ vote_pollOptionId (fst (fst row)) = O.
Proof.
  intros Hc Hacc Hnone Hcr.
  apply constraints_split in Hc as (Hp & Ho & Hv & Hk).
  destruct (accepted_option Ho Hacc) as (o & Hfo & HoP).
  apply vote_create_ok in Hcr as (o' & p & -> & Hfo' & Hfp & Hid & Hkey & ->).
  set (v := mkVote (cuid (cuid_seq d)) now u O).
  cbn [fst snd set_votes polls poll_options votes].
  split; [| split; [| split; [| repeat split]]].
  - apply constraints_split. unfold polls_pkey, poll_options_pkey, votes_pkey,
      votes_user_id_poll_option_id_key; cbn [set_votes polls poll_options votes].
    repeat split; try assumption.
    + apply distinct_ids_snoc; assumption.
    + apply index_snoc; assumption.
  - intros Hone u' P'. unfold votes_of; cbn [set_votes votes].
    rewrite filter_length_snoc.
    change (vote_on_poll u' P' (set_votes (votes d ++ [v]) (S (cuid_seq d)) d))
      with (vote_on_poll u' P' d).
    destruct (vote_on_poll u' P' d v) eqn:Hv'; [| rewrite Nat.add_0_r; apply Hone].
    rewrite vote_on_poll_split, (on_poll_of_option P' d v Hfo eq_refl), HoP in Hv'.
    apply andb_true_iff in Hv' as [Eu EP].
    apply String.eqb_eq in Eu, EP. cbn in Eu. subst u' P'.
    rewrite (find_none_filter _ _ Hnone). reflexivity.
  - intro P'. unfold ledger_count; cbn [set_votes votes].
    rewrite filter_length_snoc.
    change (on_poll P' (set_votes (votes d ++ [v]) (S (cuid_seq d)) d))
      with (on_poll P' d).
    rewrite (on_poll_of_option P' d v Hfo eq_refl), HoP. reflexivity.
Qed.

Lemma moved_db (d d' : Database) (u P O : Id) (existing : Vote)
    (row : Vote * PollOption * Poll) :
  constraints_hold d = true ->
  poll_accepts P O d ->
  find (vote_on_poll u P d) (votes d) = Some existing ->
  vote_update (vote_id existing) O d = (Ok row, d') ->
  constraints_hold d' = true
  /\ (at_most_one_vote_per_user_poll d -> at_most_one_vote_per_user_poll d')
  /\ (forall P', ledger_count P' d' = ledger_count P' d)
  /\ polls d' = polls d /\ poll_options d' = poll_options d
  /\ votes d' = map (move_row existing O) (votes d)
  /\ fst (fst row) = moved existing O.
Proof.
  intros Hc Hacc Hex Hupd.
  apply constraints_split in Hc as (Hp & Ho & Hv & Hk).
  destruct (accepted_option Ho Hacc) as (o & Hfo & HoP).
  apply find_some in Hex as [Hin Hon].
  apply vote_update_ok in Hupd as (old & o' & p & Hold & Hid & -> & Hfo' & Hfp & Hfree & ->).
  assert (old = existing) as ->.
  { apply find_some in Hold as [Hold _].
    apply (same_key_same_row vote_id (votes d)); assumption. }
  rewrite vote_on_poll_split in Hon. apply andb_true_iff in Hon as [Hu HonP].
  assert (Hsame : forall P' v, In v (votes d) ->
            on_poll P' d (move_row existing O v) = on_poll P' d v).
  { intros P' v Hv'. unfold move_row.
    destruct (vote_id v =? vote_id existing) eqn:E; [| reflexivity].
    apply String.eqb_eq in E.
    assert (v = existing) as -> by (apply (same_key_same_row vote_id (votes d)); assumption).
    rewrite (on_poll_of_option P' d (moved existing O) Hfo eq_refl), HoP.
    unfold on_poll in HonP |- *.
    destruct (find_option (vote_pollOptionId existing) d) as [o2 |]; [| discriminate HonP].
    apply String.eqb_eq in HonP. rewrite HonP. reflexivity. }
  cbn [fst snd set_votes polls poll_options votes].
  split; [| split; [| split; [| repeat split]]].
  - apply constraints_split. unfold polls_pkey, poll_options_pkey, votes_pkey,
      votes_user_id_poll_option_id_key; cbn [set_votes polls poll_options votes].
    repeat split; try assumption.
    + rewrite move_keeps_ids. exact Hv.
    + apply index_move; try assumption.
      intros v Hv' Hne E.
      assert (existsb (fun v => negb (vote_id v =? vote_id existing)
                                && (vote_userId v =? vote_userId existing)
                                && (vote_pollOptionId v =? O)) (votes d) = true);
        [| congruence].
      apply existsb_exists. exists v. split; [exact Hv' |].
      unfold vote_key in E. inversion E as [[E1 E2]].
      apply String.eqb_neq in Hne. rewrite Hne, !String.eqb_refl. reflexivity.
  - intros Hone u' P'. unfold votes_of; cbn [set_votes votes].
    change (vote_on_poll u' P' (set_votes (map (move_row existing O) (votes d))
                                          (cuid_seq d) d))
      with (vote_on_poll u' P' d).
    rewrite filter_length_map; [apply Hone |].
    intros v Hv'. rewrite !vote_on_poll_split, Hsame by exact Hv'.
    f_equal. unfold move_row.
    destruct (vote_id v =? vote_id existing) eqn:E; [| reflexivity].
    apply String.eqb_eq in E.
    assert (v = existing) as -> by (apply (same_key_same_row vote_id (votes d)); assumption).
    reflexivity.
  - intro P'. unfold ledger_count; cbn [set_votes votes].
    change (on_poll P' (set_votes (map (move_row existing O) (votes d))
                                  (cuid_seq d) d))
      with (on_poll P' d).
    apply filter_length_map. intros v Hv'. apply Hsame; exact Hv'.
Qed.

(** ** Totals: the sum of the option counts is the number of vote rows *)

Lemma sum_votes_from (options : list (PollOption * nat)) (n : nat) :
  fold_left (fun sum option => sum + snd option) options n =
  n + list_sum (map snd options).
Proof.
  unfold list_sum.
  revert n; induction options as [| o l IH]; intro n; cbn; [lia |].
  rewrite IH. lia.
Qed.

Lemma sum_votes_spec (options : list (PollOption * nat)) :
  sum_votes options = list_sum (map snd options).
Proof. unfold sum_votes. rewrite sum_votes_from. reflexivity. Qed.

Lemma list_sum_cons (a : nat) (l : list nat) : list_sum (a :: l) = a + list_sum l.
Proof. reflexivity. Qed.

Lemma no_hit (x P : Id) (l : list PollOption) :
  (forall o, In o l -> option_id o <> x) ->
  list_sum (map (hit x) (filter (fun o => option_pollId o =? P) l)) = 0.
Proof.
  induction l as [| a l IH]; intro H; cbn [filter]; [reflexivity |].
  assert (Hl : forall o, In o l -> option_id o <> x)
    by (intros o Ho; apply H; right; exact Ho).
  destruct (option_pollId a =? P); [| apply IH; exact Hl].
  cbn [map]. rewrite list_sum_cons, (IH Hl). unfold hit.
  destruct (x =? option_id a) eqn:E; [| reflexivity].
  apply String.eqb_eq in E. exfalso. apply (H a); [left; reflexivity | congruence].
Qed.

Lemma one_hit (x P : Id) (l : list PollOption) :
  distinct_ids (map option_id l) = true ->
  list_sum (map (hit x) (filter (fun o => option_pollId o =? P) l)) =
  match find (fun o => option_id o =? x) l with
  | Some o => if option_pollId o =? P then 1 else 0
  | None => 0
  end.
Proof.
  induction l as [| a l IH]; intro Hd; [reflexivity |].
  apply distinct_ids_cons in Hd as [Ha Hd]. cbn [find filter].
  destruct (option_id a =? x) eqn:E.
  - apply String.eqb_eq in E. subst x.
    destruct (option_pollId a =? P).
    + cbn [map]. rewrite list_sum_cons, (@no_hit (option_id a) P l Ha). unfold hit.
      rewrite String.eqb_refl. reflexivity.
    + apply no_hit. exact Ha.
  - destruct (option_pollId a =? P); [| apply IH; exact Hd].
    cbn [map]. rewrite list_sum_cons, (IH Hd). unfold hit.
    rewrite String.eqb_sym, E. reflexivity.
Qed.

Lemma list_sum_zero {A} (l : list A) : list_sum (map (fun _ => 0) l) = 0.
Proof. induction l as [| a l IH]; [reflexivity |]. cbn [map]. rewrite list_sum_cons. exact IH. Qed.

Lemma list_sum_plus {A} (f g : A -> nat) (l : list A) :
  list_sum (map (fun a => f a + g a) l) = list_sum (map f l) + list_sum (map g l).
Proof.
  induction l as [| a l IH]; [reflexivity |].
  cbn [map]. rewrite !list_sum_cons, IH. lia.
Qed.

Lemma counts_total (P : Id) (d : Database) :
  map snd (counts P d) = map (fun o => count_votes (option_id o) d) (options_of P d).
Proof. unfold counts. rewrite map_map. reflexivity. Qed.

Theorem snapshot_total_ledger (P : Id) (d : Database) :
  poll_options_pkey d = true ->
  snapshot_total P d = ledger_count P d.
Proof.
  intro Hpk. unfold snapshot_total, ledger_count.
  rewrite sum_votes_spec, counts_total. unfold count_votes.
  induction (votes d) as [| v vs IH]; cbn [filter length].
  - apply list_sum_zero.
  - transitivity (list_sum (map (hit (vote_pollOptionId v)) (options_of P d))
                  + length (filter (on_poll P d) vs)).
    + rewrite <- IH, <- list_sum_plus. f_equal. apply map_ext. intro o.
      unfold hit. destruct (vote_pollOptionId v =? option_id o); reflexivity.
    + unfold options_of. rewrite (@one_hit (vote_pollOptionId v) P (poll_options d) Hpk).
      unfold on_poll, find_option.
      destruct (find (fun o => option_id o =? vote_pollOptionId v) (poll_options d))
        as [o |]; [destruct (option_pollId o =? P) |]; reflexivity.
Qed.

(** ** The preconditions of a vote, read off the tables *)

Lemma find_existsb {A} (f : A -> bool) (l : list A) :
  existsb f l = match find f l with Some _ => true | None => false end.
Proof.
  induction l as [| a l IH]; cbn; [reflexivity |].
  destruct (f a); [reflexivity | exact IH].
Qed.

Lemma option_in_poll_filter (P O : Id) (d : Database) :
  option_in_poll P O d =
  negb (Nat.eqb (length (filter (fun o => option_id o =? O) (options_of P d))) 0).
Proof.
  unfold option_in_poll, options_of.
  induction (poll_options d) as [| o l IH]; cbn [existsb filter]; [reflexivity |].
  destruct (option_pollId o =? P); cbn [filter];
    destruct (option_id o =? O); cbn; try exact IH; reflexivity.
Qed.

Lemma poll_accepts_iff (P O : Id) (d : Database) :
  poll_accepts P O d <->
  has_published_poll P d = true /\ option_in_poll P O d = true.
Proof.
  unfold poll_accepts, has_published_poll.
  rewrite find_existsb, option_in_poll_filter. split.
  - intros [[p Hp] Hne]. rewrite Hp. split; [reflexivity |].
    destruct (filter _ (options_of P d)); [contradiction | reflexivity].
  - intros [Hp Ho]. split.
    + destruct (find _ (polls d)) as [p |]; [exists p; reflexivity | discriminate Hp].
    + intro E. rewrite E in Ho. discriminate Ho.
Qed.

Lemma filter_unique {A} (f : A -> bool) (l : list A) (a b : A) :
  length (filter f l) <= 1 -> In a l -> In b l -> f a = true -> f b = true -> a = b.
Proof.
  induction l as [| c l IH]; [intros _ [] |].
  intros Hlen Ha Hb Hfa Hfb. cbn [filter] in Hlen.
  assert (Hsingle : forall x, In x l -> f x = true -> f c = true -> False).
  { intros x Hx Hfx Hfc. rewrite Hfc in Hlen. cbn in Hlen.
    assert (In x (filter f l)) as Hin by (apply filter_In; split; assumption).
    destruct (filter f l); [contradiction | cbn in Hlen; lia]. }
  destruct Ha as [-> | Ha], Hb as [-> | Hb].
  - reflexivity.
  - exfalso. eapply Hsingle; eauto.
  - exfalso. eapply Hsingle; eauto.
  - apply IH; try assumption. destruct (f c); cbn in Hlen; lia.
Qed.

Lemma find_the_one {A} (f : A -> bool) (l : list A) (a : A) :
  length (filter f l) <= 1 -> In a l -> f a = true -> find f l = Some a.
Proof.
  intros Hlen Ha Hfa. destruct (find f l) as [b |] eqn:Hb.
  - apply find_some in Hb as [Hb Hfb]. f_equal.
    apply (@filter_unique A f l); assumption.
  - apply (find_none _ _ Hb) in Ha. congruence.
Qed.

(** ** The three paths of [submitVote] *)

Lemma submitVote_checks (u P O : Id) (w : World) :
  u <> "" -> db_online w = true -> poll_accepts P O (db w) ->
  run (submitVote (Some u) P O) w =
  run (match find (vote_on_poll u P (db w)) (votes (db w)) with
       | Some existing =>
           written <<-
             (if vote_pollOptionId existing =? O
              then Throw (createError "You have already voted for this option" 409)
              else
                vote <~ prisma (vote_update (vote_id existing) O) ;;
                Ret (vote, "Vote updated successfully")) ;;
           ready <- io_ready ;;
           _ <<- (if ready : bool then broadcastVoteUpdate P else Ret tt) ;;
           Ret (mkResponse 200 (VoteBody (snd written) (vote_json (fst written))))
       | None =>
           written <<-
             (vote <~ (fun w => prisma (vote_create (clock w) u O) w) ;;
              Ret (vote, "Vote submitted successfully")) ;;
           ready <- io_ready ;;
           _ <<- (if ready : bool then broadcastVoteUpdate P else Ret tt) ;;
           Ret (mkResponse 200 (VoteBody (snd written) (vote_json (fst written))))
       end) w.
Proof.
  intros Hu Hon [[p Hp] Hopts]. unfold submitVote.
  apply String.eqb_neq in Hu. cbn [falsy]. rewrite Hu.
  rewrite run_await. unfold prisma at 1. rewrite Hon.
  unfold poll_findUnique_published_option. rewrite set_db_same, Hp.
  destruct (filter _ (options_of P (db w))) as [| o os]; [contradiction |].
  cbn [length Nat.eqb].
  rewrite run_await. unfold prisma at 1. rewrite Hon.
  unfold vote_findFirst. rewrite set_db_same.
  destruct (find _ (votes (db w))); reflexivity.
Qed.

(** * Vote ledger *)

(** C5. A vote on a poll that does not exist or is not published, or for
    an option that is not an option of that poll, is answered with an
    error (404 "Poll not found or not published" in the first two cases,
    400 "Invalid poll option" in the third) and leaves the whole process
    as it was: no row is written and nothing is emitted. *)
Theorem rejected_vote_changes_nothing (u P O : Id) (w : World) :
  u <> "" ->
  db_online w = true ->
  has_published_poll P (db w) && option_in_poll P O (db w) = false ->
  run (route_submitVote (Some u) P O) w =
  (Ok (if has_published_poll P (db w) then invalid_poll_option
       else not_found_or_not_published), w).
Proof.
  intros Hu Hon Hpre. unfold route_submitVote. rewrite run_asyncHandler.
  unfold submitVote. apply String.eqb_neq in Hu. cbn [falsy]. rewrite Hu.
  rewrite run_await. unfold prisma at 1. rewrite Hon.
  unfold poll_findUnique_published_option. rewrite set_db_same.
  unfold has_published_poll in *. rewrite find_existsb in *.
  destruct (find _ (polls (db w))) as [p |]; [| reflexivity].
  cbn [andb] in Hpre. rewrite option_in_poll_filter in Hpre.
  apply negb_false_iff in Hpre. rewrite Hpre. reflexivity.
Qed.

Lemma votes_of_on_option (u P O : Id) (d : Database) (v : Vote) :
  poll_options_pkey d = true -> poll_accepts P O d ->
  vote_userId v = u -> vote_pollOptionId v = O ->
  vote_on_poll u P d v = true.
Proof.
  intros Hpk Hacc Eu EO. destruct (accepted_option Hpk Hacc) as (o & Ho & HP).
  rewrite vote_on_poll_split, (on_poll_of_option P d v Ho EO), Eu, HP.
  rewrite !String.eqb_refl. reflexivity.
Qed.

(** C4. When the poll is published, the option is one of its options and
    the user already holds a vote for that very option, the vote is
    answered with 409 "You have already voted for this option"; the
    process is left as it was, so the stored vote is unchanged and nothing
    is broadcast. *)
Theorem duplicate_vote_conflict (u P O : Id) (v : Vote) (w : World) :
  u <> "" ->
  db_online w = true ->
  constraints_hold (db w) = true ->
  at_most_one_vote_per_user_poll (db w) ->
  has_published_poll P (db w) = true ->
  option_in_poll P O (db w) = true ->
  In v (votes (db w)) -> vote_userId v = u -> vote_pollOptionId v = O ->
  run (route_submitVote (Some u) P O) w = (Ok already_voted, w).
Proof.
  intros Hu Hon Hc Hone Hp Ho Hv Eu EO.
  assert (Hacc : poll_accepts P O (db w)) by (apply poll_accepts_iff; auto).
  apply constraints_split in Hc as (_ & Hopk & _ & _).
  unfold route_submitVote. rewrite run_asyncHandler, submitVote_checks by assumption.
  rewrite (find_the_one (vote_on_poll u P (db w)) (votes (db w)) v (Hone u P) Hv
             (votes_of_on_option v Hopk Hacc Eu EO)).
  rewrite EO, String.eqb_refl. reflexivity.
Qed.

Lemma vote_update_succeeds (u P O : Id) (v : Vote) (d : Database) :
  constraints_hold d = true ->
  at_most_one_vote_per_user_poll d ->
  poll_accepts P O d ->
  In v (votes d) -> vote_on_poll u P d v = true ->
  exists o p,
    vote_update (vote_id v) O d =
    (Ok (moved v O, o, p), set_votes (map (move_row v O) (votes d)) (cuid_seq d) d).
Proof.
  intros Hc Hone Hacc Hv Hon.
  apply constraints_split in Hc as (_ & Hopk & Hvpk & _).
  destruct (accepted_option Hopk Hacc) as (o & Ho & HP).
  destruct (accepted_poll Hacc) as (p & Hp).
  exists o, p. unfold vote_update.
  rewrite (find_by_key vote_id (votes d) v Hvpk Hv).
  assert (Hfree : existsb (fun x => negb (vote_id x =? vote_id v)
                                    && (vote_userId x =? vote_userId v)
                                    && (vote_pollOptionId x =? O)) (votes d) = false).
  { apply not_true_is_false. intro Hex.
    apply existsb_exists in Hex as (x & Hx & E).
    apply andb_true_iff in E as [E EO]. apply andb_true_iff in E as [Eid Eu].
    apply String.eqb_eq in EO, Eu. apply negb_true_iff, String.eqb_neq in Eid.
    apply Eid. f_equal.
    rewrite vote_on_poll_split in Hon. apply andb_true_iff in Hon as [Hu HonP].
    apply String.eqb_eq in Hu.
    apply (@filter_unique Vote (vote_on_poll u P d) (votes d));
      [apply Hone | exact Hx | exact Hv | | ].
    - apply votes_of_on_option with (O := O); auto. congruence.
    - rewrite vote_on_poll_split, Hu, String.eqb_refl. exact HonP. }
  rewrite Hfree. unfold vote_include. cbn [vote_pollOptionId].
  rewrite Ho, HP, Hp. reflexivity.
Qed.

(** C3. A user who holds a vote on a published poll and votes for another
    option of that poll is answered "Vote updated successfully": the
    existing row is rewritten in place to point at the new option, no row
    is added, and the total of the poll is what it was. *)
Theorem revote_moves_vote (u P O : Id) (v : Vote) (w : World) :
  u <> "" ->
  db_online w = true ->
  constraints_hold (db w) = true ->
  at_most_one_vote_per_user_poll (db w) ->
  has_published_poll P (db w) = true ->
  option_in_poll P O (db w) = true ->
  In v (votes (db w)) -> vote_userId v = u -> on_poll P (db w) v = true ->
  vote_pollOptionId v <> O ->
  exists o p w',
    run (route_submitVote (Some u) P O) w =
    (Ok (mkResponse 200 (VoteBody "Vote updated successfully"
                                  (vote_json (moved v O, o, p)))), w')
    /\ votes (db w') = map (move_row v O) (votes (db w))
    /\ length (votes (db w')) = length (votes (db w))
    /\ In (moved v O) (votes (db w'))
    /\ snapshot_total P (db w') = snapshot_total P (db w).
Proof.
  intros Hu Hon Hc Hone Hp Ho Hv Eu HonP Hne.
  assert (Hacc : poll_accepts P O (db w)) by (apply poll_accepts_iff; auto).
  assert (Hvote : vote_on_poll u P (db w) v = true).
  { rewrite vote_on_poll_split, Eu, String.eqb_refl. exact HonP. }
  assert (Hfind : find (vote_on_poll u P (db w)) (votes (db w)) = Some v)
    by (apply find_the_one; auto; apply Hone).
  destruct (@vote_update_succeeds u P O v (db w) Hc Hone Hacc Hv Hvote)
    as (o & p & Hupd).
  exists o, p.
  unfold route_submitVote. rewrite run_asyncHandler, submitVote_checks by assumption.
  rewrite Hfind. apply String.eqb_neq in Hne. rewrite Hne.
  rewrite run_bind, run_await. unfold prisma at 1. rewrite Hon, Hupd.
  cbn [run fst snd].
  destruct (after_write P (set_votes (map (move_row v O) (votes (db w)))
                                     (cuid_seq (db w)) (db w)) w
              (mkResponse 200 (VoteBody "Vote updated successfully"
                                        (vote_json (moved v O, o, p)))) Hon)
    as (w' & Hrun & Hdb & _).
  rewrite Hrun. exists w'. split; [reflexivity |].
  destruct (@moved_db (db w) _ u P O v _ Hc Hacc Hfind Hupd)
    as (Hc' & _ & Hledger & _ & _ & Hvotes & _).
  rewrite Hdb. cbn [set_votes votes]. split; [reflexivity |].
  split; [apply length_map |]. split.
  - apply in_map_iff. exists v. split; [| exact Hv].
    unfold move_row. rewrite String.eqb_refl. reflexivity.
  - rewrite !snapshot_total_ledger.
    + apply Hledger.
    + apply constraints_split in Hc. tauto.
    + apply constraints_split in Hc'. tauto.
Qed.

(** ** Effects of the other handlers *)

Lemma silent_refl (w : World) : silent w w.
Proof.
  repeat split. exists []. split; [symmetry; apply app_nil_r | constructor].
Qed.

Lemma silent_trans (w1 w2 w3 : World) : silent w1 w2 -> silent w2 w3 -> silent w1 w3.
Proof.
  intros (Hd1 & Ho1 & e1 & He1 & Hf1) (Hd2 & Ho2 & e2 & He2 & Hf2).
  split; [congruence |]. split; [congruence |].
  exists (e1 ++ e2)%list. split.
  - rewrite He2, He1, app_assoc. reflexivity.
  - apply Forall_app. split; assumption.
Qed.

Lemma silent_console (line : string) (w : World) :
  silent w (set_console (console w ++ [line])%list w).
Proof.
  repeat split. exists []. split; [symmetry; apply app_nil_r | constructor].
Qed.

Lemma silent_emit (c : Channel) (ev : string) (p : Payload) (w w' : World) (r : Outcome unit) :
  ev <> "poll-updated" -> emit c ev p w = (r, w') -> silent w w'.
Proof.
  intros Hev. unfold emit. destruct (io_faulty w); intro H; inversion H; subst.
  - apply silent_refl.
  - repeat split. eexists. split; [reflexivity |].
    constructor; [exact Hev | constructor].
Qed.

Lemma run_broadcastNewPoll (pollId : Id) (w : World) :
  exists w', run (broadcastNewPoll pollId) w = (Ok tt, w') /\ silent w w'.
Proof.
  unfold broadcastNewPoll. rewrite run_try_catch, run_await.
  unfold prisma at 1. destruct (db_online w) eqn:Hon.
  - unfold poll_findUnique_creator.
    destruct (find_poll pollId (db w)) as [p |]; rewrite ?set_db_same.
    + destruct (poll_include p (db w)) as [[[p' creator] options] |];
        rewrite ?set_db_same.
      * destruct (isPublished p'); cbn [negb].
        -- rewrite run_call. cbn [now]. rewrite run_call.
           destruct (emit ToEveryone "new-poll-published"
                       (NewPollPayload (poll_id p') (question p')
                          (user_name creator) options (clock w)) w)
             as [[[] | e] w1] eqn:Hemit;
             assert (Hs : silent w w1)
               by (eapply silent_emit; [| exact Hemit]; discriminate).
           ++ cbn. eexists. split; [reflexivity |].
              eapply silent_trans; [exact Hs | apply silent_console].
           ++ cbn. eexists. split; [reflexivity |].
              eapply silent_trans; [exact Hs | apply silent_console].
        -- cbn. eexists. split; [reflexivity | apply silent_refl].
      * cbn. eexists. split; [reflexivity | apply silent_console].
    + cbn. eexists. split; [reflexivity | apply silent_refl].
  - cbn. eexists. split; [reflexivity | apply silent_console].
Qed.

Lemma run_requirePollOwnership (user : option Id) (pollId : Id) (w : World) :
  exists r w', run (requirePollOwnership user pollId) w = (Ok r, w') /\ silent w w'.
Proof.
  unfold requirePollOwnership. rewrite run_try_catch.
  destruct (pollId =? "").
  - cbn. eexists _, _. split; [reflexivity | apply silent_refl].
  - rewrite run_await. unfold prisma at 1. destruct (db_online w).
    + unfold poll_findUnique_creatorId. rewrite set_db_same.
      destruct (find_poll pollId (db w)) as [p |]; cbn [option_map].
      * destruct (match user with Some u => creatorId p =? u | None => false end);
          cbn; eexists _, _; (split; [reflexivity | apply silent_refl]).
      * cbn. eexists _, _. split; [reflexivity | apply silent_refl].
    + cbn. eexists _, _. split; [reflexivity | apply silent_console].
Qed.

Lemma run_getPollResults (id : Id) (w : World) :
  snd (run (route_getPollResults id) w) = w.
Proof.
  unfold route_getPollResults. rewrite run_asyncHandler.
  unfold getPollResults. rewrite run_await. unfold prisma at 1.
  destruct (db_online w); [| reflexivity].
  unfold poll_findUnique_counts. rewrite set_db_same.
  destruct (find _ (polls (db w))) as [p |]; reflexivity.
Qed.

(** ** Poll writes *)

Lemma polls_only_refl (d : Database) : polls_only d d.
Proof. repeat split. Qed.

Lemma find_poll_rewritten (P id : Id) (p' : Poll) (l : list Poll) :
  poll_id p' = id ->
  find (fun p => poll_id p =? P) (map (fun p => if poll_id p =? id then p' else p) l) =
  match find (fun p => poll_id p =? P) l with
  | Some p => Some (if poll_id p =? id then p' else p)
  | None => None
  end.
Proof.
  intro Hid. induction l as [| a l IH]; [reflexivity |]. cbn [map find].
  destruct (poll_id a =? id) eqn:Ea.
  - assert (E : poll_id p' = poll_id a)
      by (apply String.eqb_eq in Ea; congruence).
    rewrite E. destruct (poll_id a =? P); [rewrite Ea; reflexivity | exact IH].
  - destruct (poll_id a =? P); [rewrite Ea; reflexivity | exact IH].
Qed.

Lemma poll_update_effect (id : Id) (q : option string) (b : option bool)
    (d d' : Database) (r : Outcome (Poll * User * list PollOption)) :
  poll_update id q b d = (r, d') ->
  polls_only d d'
  /\ (b <> Some false -> forall P, published P d -> published P d').
Proof.
  unfold poll_update.
  destruct (find_poll id d) as [old |] eqn:Hold;
    [| intro H; inversion H; subst; split; [apply polls_only_refl | auto]].
  destruct (poll_include _ d);
    [| intro H; inversion H; subst; split; [apply polls_only_refl | auto]].
  intro H; inversion H; subst; clear H. split.
  - repeat split. cbn [set_polls polls]. rewrite map_map. apply map_ext.
    intro x. destruct (poll_id x =? id) eqn:E; [| reflexivity].
    apply String.eqb_eq in E. cbn. congruence.
  - intros Hb P (x & Hx & Hpub). unfold published, find_poll in *.
    cbn [set_polls polls]. rewrite find_poll_rewritten by reflexivity.
    rewrite Hx. eexists. split; [reflexivity |].
    destruct (poll_id x =? id) eqn:E; [| exact Hpub]. cbn [isPublished].
    destruct b as [[|] |]; [reflexivity | congruence |].
    pose proof (find_some _ _ Hx) as [_ HP]. apply String.eqb_eq in HP, E.
    assert (P = id) as -> by congruence.
    assert (old = x) as -> by congruence.
    exact Hpub.
Qed.

Lemma silent_poll_step (b : option bool) (w w' : World) :
  silent w w' -> poll_step b w w'.
Proof.
  intros (Hd & Ho & Hex). unfold poll_step. rewrite Hd.
  split; [apply polls_only_refl |]. split; [auto |]. split; assumption.
Qed.

Lemma poll_step_trans (b : option bool) (w1 w2 w3 : World) :
  poll_step b w1 w2 -> poll_step b w2 w3 -> poll_step b w1 w3.
Proof.
  intros ((Hv1 & Ho1 & Hp1) & Hpub1 & Hon1 & e1 & He1 & Hf1)
         ((Hv2 & Ho2 & Hp2) & Hpub2 & Hon2 & e2 & He2 & Hf2).
  split; [repeat split; congruence |]. split; [auto |]. split; [congruence |].
  exists (e1 ++ e2)%list. split.
  - rewrite He2, He1, app_assoc. reflexivity.
  - apply Forall_app. split; assumption.
Qed.

Lemma poll_write_step (id : Id) (q : option string) (b : option bool) (w w' : World)
    (r : Outcome (Poll * User * list PollOption)) :
  prisma (poll_update id q b) w = (r, w') -> poll_step b w w'.
Proof.
  unfold prisma. destruct (db_online w) eqn:Hon.
  - destruct (poll_update id q b (db w)) as [r' d'] eqn:Hupd.
    intro H; inversion H; subst.
    apply poll_update_effect in Hupd as [Honly Hpub].
    split; [exact Honly |]. split; [exact Hpub |]. split; [reflexivity |].
    exists []. split; [symmetry; apply app_nil_r | constructor].
  - intro H; inversion H; subst. apply silent_poll_step, silent_refl.
Qed.

Lemma run_updatePoll (id : Id) (q : option string) (b : option bool) (w : World) :
  exists r w', run (asyncHandler (updatePoll id q b)) w = (Ok r, w')
               /\ poll_step b w w'.
Proof.
  rewrite run_asyncHandler. unfold updatePoll. rewrite run_await.
  destruct (prisma (poll_update id (truthy q) b) w) as [[[[p c] os] | e] w1] eqn:Hw;
    apply poll_write_step in Hw.
  - rewrite run_call. cbn [io_ready]. rewrite run_bind.
    destruct (match b with Some true => controller_io w1 && io_utilities w1
                         | _ => false end).
    + destruct (run_broadcastNewPoll (poll_id (fst (fst (p, c, os)))) w1)
        as (w2 & Hrun & Hs).
      rewrite Hrun. cbn [run]. eexists _, _. split; [reflexivity |].
      eapply poll_step_trans; [exact Hw | apply silent_poll_step; exact Hs].
    + cbn [run]. eexists _, _. split; [reflexivity | exact Hw].
  - eexists _, _. split; [reflexivity | exact Hw].
Qed.

Lemma run_publishPoll (id : Id) (w : World) :
  exists r w', run (asyncHandler (publishPoll id)) w = (Ok r, w')
               /\ poll_step (Some true) w w'.
Proof.
  rewrite run_asyncHandler. unfold publishPoll. rewrite run_await.
  destruct (prisma (poll_update id None (Some true)) w) as [[[[p c] os] | e] w1] eqn:Hw;
    apply poll_write_step in Hw.
  - rewrite run_call. cbn [io_ready]. rewrite run_bind.
    destruct (controller_io w1 && io_utilities w1).
    + destruct (run_broadcastNewPoll (poll_id (fst (fst (p, c, os)))) w1)
        as (w2 & Hrun & Hs).
      rewrite Hrun. cbn [run]. eexists _, _. split; [reflexivity |].
      eapply poll_step_trans; [exact Hw | apply silent_poll_step; exact Hs].
    + cbn [run]. eexists _, _. split; [reflexivity | exact Hw].
  - eexists _, _. split; [reflexivity | exact Hw].
Qed.

Lemma run_guarded (check : Prog (option Response)) (handler : Prog Response)
    (b : option bool) (w : World) :
  (forall w1, exists r w', run check w1 = (Ok r, w') /\ silent w1 w') ->
  (forall w1, exists r w', run handler w1 = (Ok r, w') /\ poll_step b w1 w') ->
  exists r w', run (guarded check handler) w = (Ok r, w') /\ poll_step b w w'.
Proof.
  intros Hcheck Hhandler. unfold guarded. rewrite run_bind.
  destruct (Hcheck w) as (r0 & w1 & Hrun & Hs). rewrite Hrun.
  destruct r0 as [response |].
  - cbn [run]. eexists _, _. split; [reflexivity | apply silent_poll_step; exact Hs].
  - destruct (Hhandler w1) as (r & w' & Hrun' & Hstep). rewrite Hrun'.
    eexists _, _. split; [reflexivity |].
    eapply poll_step_trans; [apply silent_poll_step; exact Hs | exact Hstep].
Qed.

Lemma run_route_updatePoll (u id : Id) (q : option string) (b : option bool)
    (w : World) :
  exists r w', run (route_updatePoll u id q b) w = (Ok r, w') /\ poll_step b w w'.
Proof.
  apply run_guarded; intro w1;
    [apply run_requirePollOwnership | apply run_updatePoll].
Qed.

Lemma run_route_publishPoll (u id : Id) (w : World) :
  exists r w', run (route_publishPoll u id) w = (Ok r, w')
               /\ poll_step (Some true) w w'.
Proof.
  apply run_guarded; intro w1;
    [apply run_requirePollOwnership | apply run_publishPoll].
Qed.

(** * Rooms *)

Ltac silent_by_computation :=
  unfold silent; cbn; split; [reflexivity |]; split; [reflexivity |];
  rewrite <- ?app_assoc; eexists; split;
  [first [reflexivity | symmetry; apply app_nil_r]
  | repeat constructor; discriminate].

Lemma run_join_poll (sid : SocketId) (arg : EventArg) (w : World) :
  silent w (snd (run (join_poll sid arg) w)).
Proof.
  unfold join_poll. rewrite run_try_catch.
  destruct w as [d on cio iu f cn rm cpr ob cs ck].
  destruct arg as [P |].
  - destruct (P =? ""); [destruct f; silent_by_computation |].
    rewrite run_await. unfold prisma at 1. cbn [db_online].
    destruct on; [| destruct f; silent_by_computation].
    unfold poll_findUnique_counts. cbn [db set_db].
    destruct (find _ (polls d)) as [p |]; [| destruct f; silent_by_computation].
    cbn [rethrow]. rewrite run_await. unfold socket_join at 1.
    destruct (is_member (room_of P) sid _); cbn [rethrow];
      rewrite run_call; unfold currentPollRooms_add at 1;
      cbn [currentPollRooms set_rooms set_db];
      match goal with |- context [existsb ?g cpr] => destruct (existsb g cpr) end;
      cbn [rethrow];
      destruct f; silent_by_computation.
  - destruct f; silent_by_computation.
Qed.

Lemma find_published_id (P : Id) (d : Database) (p : Poll) :
  find (fun p => (poll_id p =? P) && isPublished p) (polls d) = Some p ->
  poll_id p = P.
Proof.
  intro H. apply find_some in H as [_ H]. apply andb_true_iff in H as [H _].
  apply String.eqb_eq. exact H.
Qed.

(** The handler of [join-poll], run to completion with nothing in
    between, admits a join request only for a poll that exists and is
    published.  Otherwise the socket receives one [error] packet and the
    rooms are what they were.  On admission the socket is a member of the
    poll's room and has received exactly one [poll-data] snapshot, whose
    total is the number of vote rows of the poll in the store when the
    handler started; the only other packet is the presence notice to the
    others. *)
Theorem join_poll_gate (sid : SocketId) (arg : EventArg) (w : World) :
  db_online w = true ->
  io_faulty w = false ->
  poll_options_pkey (db w) = true ->
  exists w',
    run (join_poll sid arg) w = (Ok tt, w') /\ db w' = db w
    /\ match joinable arg (db w) with
       | Some P =>
           is_member (room_of P) sid w' = true
           /\ exists data n others,
                outbox w' =
                (outbox w ++
                 [mkEmission (ToSocket sid) "poll-data" (PollDataPayload data) [sid];
                  mkEmission (ToRoomExcept (room_of P) sid) "user-joined-poll"
                             (PresencePayload "A user joined the poll" n) others])%list
                /\ pd_id data = P
                /\ totalVotes data = ledger_count P (db w)
       | None =>
           rooms w' = rooms w /\ currentPollRooms w' = currentPollRooms w
           /\ exists message,
                outbox w' =
                (outbox w ++ [mkEmission (ToSocket sid) "error"
                                         (MessagePayload message) [sid]])%list
       end.
Proof.
  intros Hon Hf Hpk. unfold join_poll, joinable. rewrite run_try_catch.
  destruct w as [d on cio iu f cn rm cpr ob cs ck]. cbn in Hon, Hf, Hpk. subst on f.
  destruct arg as [P |].
  - destruct (P =? "").
    + cbn. eexists. split; [reflexivity |]. repeat split. eexists; reflexivity.
    + rewrite run_await. unfold prisma at 1, poll_findUnique_counts.
      cbn [db_online db set_db]. unfold has_published_poll. rewrite find_existsb.
      destruct (find _ (polls d)) as [p |] eqn:Hp.
      * apply find_published_id in Hp.
        pose proof (snapshot_total_ledger P d Hpk) as Htotal.
        unfold snapshot_total, counts in Htotal.
        cbn [rethrow]. rewrite run_await. unfold socket_join at 1.
        destruct (is_member (room_of P) sid _) eqn:Hmem; cbn [rethrow];
          rewrite run_call; unfold currentPollRooms_add at 1;
          cbn [currentPollRooms set_rooms set_db];
          match goal with |- context [existsb ?g cpr] => destruct (existsb g cpr) end;
      cbn [rethrow]; cbn;
          (eexists; split; [reflexivity |]; split; [reflexivity |]; split;
           [ unfold is_member in *;
             cbn [rooms set_outbox set_console set_rooms set_currentPollRooms
                  set_db] in *;
             first [ exact Hmem
                   | rewrite existsb_app; cbn; rewrite !String.eqb_refl;
                     apply orb_true_r ]
           | eexists _, _, _;
             cbn [outbox set_outbox set_console set_rooms set_currentPollRooms
                  set_db];
             rewrite <- app_assoc; split; [reflexivity |];
             split; [exact Hp | exact Htotal] ]).
      * cbn. eexists. split; [reflexivity |]. repeat split. eexists; reflexivity.
  - cbn. eexists. split; [reflexivity |]. repeat split. eexists; reflexivity.
Qed.

(** * Broadcast dispatcher *)

(** C10. [broadcastVoteUpdate] never throws, whatever the state of the
    database connection and of the transport: it returns normally, leaves
    the tables and the rooms alone, and the code of the caller that
    follows it always runs.  For a poll id that matches no stored poll
    nothing is emitted. *)
Theorem broadcast_never_throws (pollId : Id) (w : World) :
  (exists w',
      run (broadcastVoteUpdate pollId) w = (Ok tt, w')
      /\ db w' = db w /\ rooms w' = rooms w
      /\ (find_poll pollId (db w) = None -> outbox w' = outbox w))
  /\ (forall (A : Type) (k : unit -> Prog A),
         run (x <<- broadcastVoteUpdate pollId ;; k x) w =
         run (k tt) (snd (run (broadcastVoteUpdate pollId) w))).
Proof.
  destruct (run_broadcastVoteUpdate pollId w)
    as (w' & Hrun & Hdb & _ & _ & _ & _ & Hrooms & _ & _ & _ & Hout).
  split.
  - exists w'. repeat split; try assumption.
    intro Hnone. rewrite Hout, Hnone. destruct (_ && _); reflexivity.
  - intros A k. rewrite run_bind, Hrun. reflexivity.
Qed.

(** * Publication gate *)

Lemma VoteCase_tables (user : option Id) (P O : Id) (w : World)
    (res : Outcome Response * World) :
  VoteCase user P O w res ->
  polls (db (snd res)) = polls (db w)
  /\ poll_options (db (snd res)) = poll_options (db w).
Proof.
  intros [e | u row d' w' _ _ _ _ _ Hcr (Hdb & _) | u ex row d' w' _ _ _ _ _ _ Hupd (Hdb & _)];
    cbn [snd]; [split; reflexivity | |]; rewrite Hdb.
  - apply vote_create_ok in Hcr as (o & p & _ & _ & _ & _ & _ & ->). split; reflexivity.
  - apply vote_update_ok in Hupd as (old & o & p & _ & _ & _ & _ & _ & _ & ->).
    split; reflexivity.
Qed.

Lemma published_same_polls (P : Id) (d d' : Database) :
  polls d' = polls d -> published P d -> published P d'.
Proof. unfold published, find_poll. intros ->. auto. Qed.

Lemma run_discard {A} (p : Prog A) (w : World) :
  snd (run (discard p) w) = snd (run p w).
Proof.
  unfold discard. rewrite run_bind. destruct (run p w) as [[a | e] w']; reflexivity.
Qed.

Lemma handle_keeps_publication (r : Request) (w : World) (P : Id) :
  unpublishes r = false ->
  published P (db w) -> published P (db (snd (run (handle r) w))).
Proof.
  intros Hr Hpub. destruct r as [user pollId O | u id q b | u id | id | sid arg];
    cbn [handle]; rewrite ?run_discard.
  - unfold route_submitVote. rewrite run_asyncHandler.
    destruct (VoteCase_tables (submitVote_cases user pollId O w)) as [Hpolls _].
    destruct (run (submitVote user pollId O) w) as [[resp | e] w']; cbn [snd] in *;
      eapply published_same_polls; eauto.
  - destruct (run_route_updatePoll u id q b w) as (resp & w' & Hrun & _ & Hkeep & _).
    rewrite Hrun. cbn [snd]. apply Hkeep; [| exact Hpub].
    intros ->. discriminate Hr.
  - destruct (run_route_publishPoll u id w) as (resp & w' & Hrun & _ & Hkeep & _).
    rewrite Hrun. cbn [snd]. apply Hkeep; [discriminate | exact Hpub].
  - rewrite run_getPollResults. exact Hpub.
  - destruct (run_join_poll sid arg w) as (Hdb & _). rewrite Hdb. exact Hpub.
Qed.

(** C9 (amended). Served one after another, requests never clear the
    publication flag of a poll unless one of them is an update carrying
    [isPublished: false]: votes, results, joins, publish requests and
    updates that omit the flag or carry [true] keep every published poll
    published. *)
Theorem publication_kept_without_unpublish (requests : list Request) (w : World)
    (P : Id) :
  forallb (fun r => negb (unpublishes r)) requests = true ->
  published P (db w) ->
  published P (db (serve requests w)).
Proof.
  revert w. induction requests as [| r rs IH]; intros w Hrs Hpub; [exact Hpub |].
  cbn [forallb] in Hrs. apply andb_true_iff in Hrs as [Hr Hrs].
  apply negb_true_iff in Hr. cbn [serve fold_left].
  apply IH; [exact Hrs |]. apply handle_keeps_publication; assumption.
Qed.

(** * Invariants of the tables under served requests *)

Lemma polls_only_invariants (d d' : Database) :
  polls_only d d' ->
  constraints_hold d' = constraints_hold d
  /\ (forall u P, votes_of u P d' = votes_of u P d)
  /\ (forall P, ledger_count P d' = ledger_count P d).
Proof.
  intros (Hv & Ho & Hp).
  unfold constraints_hold, polls_pkey, poll_options_pkey, votes_pkey,
    votes_user_id_poll_option_id_key, votes_of, ledger_count, vote_on_poll,
    on_poll, find_option.
  rewrite Hv, Ho, Hp. repeat split.
Qed.

Lemma VoteCase_invariants (user : option Id) (P O : Id) (w : World)
    (res : Outcome Response * World) :
  VoteCase user P O w res ->
  constraints_hold (db w) = true ->
  constraints_hold (db (snd res)) = true
  /\ (at_most_one_vote_per_user_poll (db w) ->
      at_most_one_vote_per_user_poll (db (snd res)))
  /\ (forall P', ledger_count P' (db w) <= ledger_count P' (db (snd res))).
Proof.
  intros [e | u row d' w' _ _ _ Hacc Hnone Hcr (Hdb & _)
          | u ex row d' w' _ _ _ Hacc Hfind _ Hupd (Hdb & _)] Hc; cbn [snd].
  - split; [exact Hc |]. split; [auto |]. intro; apply Nat.le_refl.
  - rewrite Hdb.
    destruct (@created_db (db w) d' u P O (clock w) row Hc Hacc Hnone Hcr)
      as (Hc' & Hone & Hledger & _).
    split; [exact Hc' |]. split; [exact Hone |].
    intro P'. rewrite Hledger. lia.
  - rewrite Hdb.
    destruct (@moved_db (db w) d' u P O ex row Hc Hacc Hfind Hupd)
      as (Hc' & Hone & Hledger & _).
    split; [exact Hc' |]. split; [exact Hone |].
    intro P'. rewrite Hledger. lia.
Qed.

Lemma handle_tables (r : Request) (w : World) :
  constraints_hold (db w) = true ->
  constraints_hold (db (snd (run (handle r) w))) = true
  /\ (at_most_one_vote_per_user_poll (db w) ->
      at_most_one_vote_per_user_poll (db (snd (run (handle r) w))))
  /\ (forall P, ledger_count P (db w) <= ledger_count P (db (snd (run (handle r) w)))).
Proof.
  intro Hc.
  assert (Hpolls : forall w', polls_only (db w) (db w') ->
            constraints_hold (db w') = true
            /\ (at_most_one_vote_per_user_poll (db w) ->
                at_most_one_vote_per_user_poll (db w'))
            /\ (forall P, ledger_count P (db w) <= ledger_count P (db w'))).
  { intros w' Honly. apply polls_only_invariants in Honly as (Hc' & Hvotes & Hledger).
    split; [congruence |]. split.
    - intros Hone u P. rewrite Hvotes. apply Hone.
    - intro P. rewrite Hledger. apply Nat.le_refl. }
  destruct r as [user P O | u id q b | u id | id | sid arg];
    cbn [handle]; rewrite ?run_discard.
  - unfold route_submitVote. rewrite run_asyncHandler.
    pose proof (VoteCase_invariants (submitVote_cases user P O w) Hc) as Hcase.
    destruct (run (submitVote user P O) w) as [[resp | e] w']; exact Hcase.
  - destruct (run_route_updatePoll u id q b w) as (resp & w' & Hrun & Honly & _).
    rewrite Hrun. cbn [snd]. apply Hpolls. exact Honly.
  - destruct (run_route_publishPoll u id w) as (resp & w' & Hrun & Honly & _).
    rewrite Hrun. cbn [snd]. apply Hpolls. exact Honly.
  - rewrite run_getPollResults. apply Hpolls, polls_only_refl.
  - destruct (run_join_poll sid arg w) as (Hdb & _).
    apply Hpolls. rewrite Hdb. apply polls_only_refl.
Qed.

(** C1 (amended). The unique index of the vote table is on (user, option):
    together with the primary keys it holds after every served request, so
    no two rows ever share a user and an option.  That a user holds at most
    one vote per poll is kept by the handlers themselves, for requests
    served one after another. *)
Theorem one_vote_per_user_poll_when_serial (requests : list Request) (w : World) :
  constraints_hold (db w) = true ->
  at_most_one_vote_per_user_poll (db w) ->
  constraints_hold (db (serve requests w)) = true
  /\ votes_user_id_poll_option_id_key (db (serve requests w)) = true
  /\ at_most_one_vote_per_user_poll (db (serve requests w)).
Proof.
  revert w. induction requests as [| r rs IH]; intros w Hc Hone.
  - cbn. split; [exact Hc |]. split; [| exact Hone].
    apply constraints_split in Hc. tauto.
  - cbn [serve fold_left]. destruct (handle_tables r w Hc) as (Hc' & Hone' & _).
    apply IH; auto.
Qed.

(** ** What a socket observes *)



Lemma errorHandler_body (e : Error) : exists kind message,
  body (errorHandler e) = ErrorBody kind message.
Proof.
  unfold errorHandler.
  destruct (match e with
            | CustomError m (S n) => (S n, m)
            | PrismaClientKnownRequestError code =>
                if code =? "P2002" then (409, "Unique constraint violation")
                else if code =? "P2025" then (404, "Record not found")
                else if code =? "P2003" then (400, "Foreign key constraint violation")
                else (500, "Database error")
            | _ => (500, "Internal Server Error")
            end) as [statusCode message].
  cbn. eexists _, _. reflexivity.
Qed.








(** * Scenarios *)

Lemma at_most_one_when_few (d : Database) :
  length (votes d) <= 1 -> at_most_one_vote_per_user_poll d.
Proof.
  intros H u P. unfold votes_of.
  pose proof (filter_length_le (vote_on_poll u P d) (votes d)). lia.
Qed.

(** C1, as stated, fails: after the two interleaved requests every
    storage constraint holds, the unique index included, and [u1] has two
    vote rows on [p]. *)
Lemma index_admits_two_votes_on_one_poll :
  constraints_hold (db (snd race)) = true
  /\ votes_user_id_poll_option_id_key (db (snd race)) = true
  /\ length (votes_of "u1" "p" (db (snd race))) = 2
  /\ ~ at_most_one_vote_per_user_poll (db (snd race)).
Proof.
  split; [vm_compute; reflexivity |]. split; [vm_compute; reflexivity |].
  assert (H : length (votes_of "u1" "p" (db (snd race))) = 2)
    by (vm_compute; reflexivity).
  split; [exact H |]. intro Hone. specialize (Hone "u1" "p"). lia.
Qed.

Example one_vote_per_user_poll_when_serial_witness :
  constraints_hold (db demo) = true
  /\ constraints_hold
       (db (serve [SubmitVote (Some "u1") "p" "A"; SubmitVote (Some "u2") "p" "B";
                   SubmitVote (Some "u1") "p" "B"] demo)) = true
  /\ at_most_one_vote_per_user_poll
       (db (serve [SubmitVote (Some "u1") "p" "A"; SubmitVote (Some "u2") "p" "B";
                   SubmitVote (Some "u1") "p" "B"] demo)).
Proof.
  split; [reflexivity |].
  destruct (one_vote_per_user_poll_when_serial
              [SubmitVote (Some "u1") "p" "A"; SubmitVote (Some "u2") "p" "B";
               SubmitVote (Some "u1") "p" "B"] demo) as (Hc & _ & Hone).
  - reflexivity.
  - apply at_most_one_when_few. cbn. lia.
  - split; assumption.
Defined.

(** C2: the three branches of [submitVote] are not resolved atomically.
    When the awaited operations of two requests of one user alternate,
    both existence checks complete while the vote table is still empty,
    both requests take the create branch and are answered "Vote submitted
    successfully", two rows of [u1] on [p] are stored and two packets are
    broadcast. *)
Theorem concurrent_votes_both_created :
  votes (db (snd (interleave [0; 1; 0; 1] race_tasks demo))) = []
  /\ map result (fst race) =
     [Some (Ok (mkResponse 200 (VoteBody "Vote submitted successfully"
                  (mkVoteJson "c0" "A" "tabs" "Tabs or spaces?" 0))));
      Some (Ok (mkResponse 200 (VoteBody "Vote submitted successfully"
                  (mkVoteJson "c1" "B" "spaces" "Tabs or spaces?" 0))))]
  /\ votes (db (snd race)) = [mkVote "c0" 0 "u1" "A"; mkVote "c1" 0 "u1" "B"]
  /\ length (votes_of "u1" "p" (db (snd race))) = 2
  /\ length (outbox (snd race)) = 2.
Proof. repeat split; vm_compute; reflexivity. Qed.

(** Served one after the other, the same two requests leave one row. *)
Example serial_votes_leave_one_row :
  votes (db (serve [SubmitVote (Some "u1") "p" "A"; SubmitVote (Some "u1") "p" "B"]
                   demo))
  = [mkVote "c0" 0 "u1" "B"].
Proof. vm_compute. reflexivity. Qed.

Example revote_moves_vote_witness :
  exists o p w',
    run (route_submitVote (Some "u1") "p" "B") demo_voted =
    (Ok (mkResponse 200 (VoteBody "Vote updated successfully"
           (vote_json (moved (mkVote "c0" 0 "u1" "A") "B", o, p)))), w')
    /\ votes (db w') = map (move_row (mkVote "c0" 0 "u1" "A") "B") (votes (db demo_voted))
    /\ length (votes (db w')) = length (votes (db demo_voted))
    /\ In (moved (mkVote "c0" 0 "u1" "A") "B") (votes (db w'))
    /\ snapshot_total "p" (db w') = snapshot_total "p" (db demo_voted).
Proof.
  apply (@revote_moves_vote "u1" "p" "B" (mkVote "c0" 0 "u1" "A") demo_voted).
  - discriminate.
  - reflexivity.
  - vm_compute. reflexivity.
  - apply at_most_one_when_few. vm_compute. lia.
  - reflexivity.
  - reflexivity.
  - vm_compute. left. reflexivity.
  - reflexivity.
  - reflexivity.
  - discriminate.
Defined.

Example duplicate_vote_conflict_witness :
  run (route_submitVote (Some "u1") "p" "A") demo_voted = (Ok already_voted, demo_voted).
Proof.
  apply (@duplicate_vote_conflict "u1" "p" "A" (mkVote "c0" 0 "u1" "A") demo_voted).
  - discriminate.
  - reflexivity.
  - vm_compute. reflexivity.
  - apply at_most_one_when_few. vm_compute. lia.
  - reflexivity.
  - reflexivity.
  - vm_compute. left. reflexivity.
  - reflexivity.
  - reflexivity.
Defined.

(** A vote on the draft [q], and a vote on [p] for an option of [q]. *)
Example rejected_vote_changes_nothing_witness :
  run (route_submitVote (Some "u1") "q" "C") demo = (Ok not_found_or_not_published, demo)
  /\ run (route_submitVote (Some "u1") "p" "C") demo = (Ok invalid_poll_option, demo).
Proof.
  split.
  - apply (@rejected_vote_changes_nothing "u1" "q" "C" demo);
      [discriminate | reflexivity | reflexivity].
  - apply (@rejected_vote_changes_nothing "u1" "p" "C" demo);
      [discriminate | reflexivity | reflexivity].
Defined.

(** The scenario of the specification: [u1] votes [A], [u2] votes [B],
    [u1] moves to [B]; socket [s1] sees the totals 1, 2, 2. *)
Example scenario_totals :
  observed_totals "p" "s1"
    (serve [SubmitVote (Some "u1") "p" "A"; SubmitVote (Some "u2") "p" "B";
            SubmitVote (Some "u1") "p" "B"] demo) = [1; 2; 2]
  /\ map (fun e => match payload e with
                   | PollDataPayload data => map voteCount (pd_options data)
                   | _ => []
                   end)
         (outbox (serve [SubmitVote (Some "u1") "p" "A"; SubmitVote (Some "u2") "p" "B";
                         SubmitVote (Some "u1") "p" "B"] demo))
     = [[1; 0]; [1; 1]; [0; 2]].
Proof. split; vm_compute; reflexivity. Qed.

Example join_poll_gate_witness :
  (exists w',
      run (join_poll "s2" (ArgString "p")) demo_voted = (Ok tt, w')
      /\ is_member (room_of "p") "s2" w' = true
      /\ exists data n others,
           outbox w' =
           (outbox demo_voted ++
            [mkEmission (ToSocket "s2") "poll-data" (PollDataPayload data) ["s2"];
             mkEmission (ToRoomExcept (room_of "p") "s2") "user-joined-poll"
                        (PresencePayload "A user joined the poll" n) others])%list
           /\ totalVotes data = 1)
  /\ (exists w',
         run (join_poll "s2" (ArgString "q")) demo_voted = (Ok tt, w')
         /\ rooms w' = rooms demo_voted).
Proof.
  split.
  - destruct (@join_poll_gate "s2" (ArgString "p") demo_voted)
      as (w' & Hrun & _ & Hmem & data & n & others & Hout & _ & Htotal);
      [reflexivity | reflexivity | reflexivity |].
    exists w'. split; [exact Hrun |]. split; [exact Hmem |].
    exists data, n, others. split; [exact Hout | exact Htotal].
  - destruct (@join_poll_gate "s2" (ArgString "q") demo_voted)
      as (w' & Hrun & _ & Hrooms & _);
      [reflexivity | reflexivity | reflexivity |].
    exists w'. split; [exact Hrun | exact Hrooms].
Defined.

(** C8. [join-poll] reads the poll with its counts, then awaits
    [socket.join], then emits what it read.  When a vote is stored and
    broadcast between the read and the join, the joiner misses the
    broadcast, which went to the room before it was a member, and is
    sent the counts of the earlier read: [s2] joins the room of [p]
    while the ledger of [p] holds one vote, and the one packet it ever
    receives is a [poll-data] snapshot with [totalVotes] 0 and no vote
    on any option. *)
Theorem late_joiner_gets_stale_snapshot :
  result (nth 0 (fst late_vote) (Ret tt)) = None
  /\ ledger_count "p" (db (snd late_vote)) = 1
  /\ is_member (room_of "p") "s2" (snd late_vote) = false
  /\ map recipients (outbox (snd late_vote)) = [["s1"]]
  /\ map result (fst late_join) = [Some (Ok tt); Some (Ok tt)]
  /\ is_member (room_of "p") "s2" (snd late_join) = true
  /\ ledger_count "p" (db (snd late_join)) = 1
  /\ received "s2" (snd late_join) =
     [mkEmission (ToSocket "s2") "poll-data"
        (PollDataPayload
           (mkPollData "p" "Tabs or spaces?"
              [mkOptionTally "A" "tabs" 0; mkOptionTally "B" "spaces" 0] 0 None))
        ["s2"]].
Proof. repeat split; vm_compute; reflexivity. Qed.

(** Served one after the other, the same two requests give the joiner
    the vote: on its own the join handler is as claimed. *)
Example joiner_after_vote_sees_it :
  received "s2" (serve [SubmitVote (Some "u1") "p" "A"; JoinPoll "s2" (ArgString "p")]
                       demo) =
  [mkEmission (ToSocket "s2") "poll-data"
     (PollDataPayload
        (mkPollData "p" "Tabs or spaces?"
           [mkOptionTally "A" "tabs" 1; mkOptionTally "B" "spaces" 0] 1 None))
     ["s2"]].
Proof. vm_compute. reflexivity. Qed.

(** C9, as stated, fails: the creator of [p] updates it with
    [isPublished: false] and the published poll is a draft again. *)
Lemma update_unpublishes_poll :
  published "p" (db demo)
  /\ run (route_updatePoll "u1" "p" None (Some false)) demo
     = (Ok (mkResponse 200 (PollBody "Poll updated successfully"
              (mkPoll "p" "Tabs or spaces?" false "u1") (mkUser "u1" "Ann")
              [mkPollOption "A" "tabs" "p"; mkPollOption "B" "spaces" "p"])),
        set_db (set_polls [mkPoll "p" "Tabs or spaces?" false "u1";
                           mkPoll "q" "Vim or Emacs?" false "u2"] demo_db) demo)
  /\ ~ published "p" (db (serve [UpdatePoll "u1" "p" None (Some false)] demo)).
Proof.
  split; [eexists; split; reflexivity |]. split; [vm_compute; reflexivity |].
  intros (p & Hfind & Hpub). vm_compute in Hfind. inversion Hfind; subst.
  discriminate Hpub.
Qed.

Example publication_kept_without_unpublish_witness :
  published "p" (db demo)
  /\ published "p"
       (db (serve [UpdatePoll "u1" "p" (Some "Tabs, really?") None;
                   PublishPoll "u2" "q"; SubmitVote (Some "u2") "p" "A";
                   UpdatePoll "u1" "p" None (Some true)] demo)).
Proof.
  assert (H : published "p" (db demo)) by (eexists; split; reflexivity).
  split; [exact H |].
  apply (@publication_kept_without_unpublish
           [UpdatePoll "u1" "p" (Some "Tabs, really?") None;
            PublishPoll "u2" "q"; SubmitVote (Some "u2") "p" "A";
            UpdatePoll "u1" "p" None (Some true)] demo "p");
    [reflexivity | exact H].
Defined.

(** A broadcast for a poll id that matches nothing, with the transport down. *)
Example broadcast_never_throws_witness :
  exists w',
    run (broadcastVoteUpdate "nowhere") demo = (Ok tt, w')
    /\ outbox w' = outbox demo.
Proof.
  destruct (broadcast_never_throws "nowhere" demo)
    as [(w' & Hrun & _ & _ & Hout) _].
  exists w'. split; [exact Hrun | apply Hout; reflexivity].
Defined.

(** With the transport down the vote is stored and answered; the
    failure of the broadcast stays inside [broadcastVoteUpdate]. *)
Example vote_survives_failed_broadcast :
  let down := mkWorld demo_db true true true true ["s1"] [(room_of "p", "s1")]
                      [] [] [] 0 in
  fst (run (route_submitVote (Some "u1") "p" "A") down)
    = Ok (mkResponse 200 (VoteBody "Vote submitted successfully"
            (mkVoteJson "c0" "A" "tabs" "Tabs or spaces?" 0)))
  /\ outbox (snd (run (route_submitVote (Some "u1") "p" "A") down)) = []
  /\ console (snd (run (route_submitVote (Some "u1") "p" "A") down))
     = ["Error broadcasting vote update:"].
Proof. repeat split; vm_compute; reflexivity. Qed.

(** * Numbers: the percentage of the results endpoint *)

Unset Implicit Arguments.

Section Binary64.
Local Open Scope Z_scope.

Lemma digits2_pos_bounds (p : positive) :
  2 ^ (Zpos (digits2_pos p) - 1) <= Zpos p < 2 ^ Zpos (digits2_pos p).
Proof.
  induction p as [p IH | p IH |]; cbn [digits2_pos].
  - rewrite Pos2Z.inj_succ. change (Zpos p~1) with (2 * Zpos p + 1).
    replace (Z.succ (Zpos (digits2_pos p)) - 1) with (Z.succ (Zpos (digits2_pos p) - 1)) by lia.
    rewrite !Z.pow_succ_r by lia.
    revert IH. generalize (2 ^ (Zpos (digits2_pos p) - 1)) (2 ^ Zpos (digits2_pos p)).
    intros; lia.
  - rewrite Pos2Z.inj_succ. change (Zpos p~0) with (2 * Zpos p).
    replace (Z.succ (Zpos (digits2_pos p)) - 1) with (Z.succ (Zpos (digits2_pos p) - 1)) by lia.
    rewrite !Z.pow_succ_r by lia.
    revert IH. generalize (2 ^ (Zpos (digits2_pos p) - 1)) (2 ^ Zpos (digits2_pos p)).
    intros; lia.
  - cbn. lia.
Qed.

Lemma Zdigits2_unique (m d : Z) :
  2 ^ (d - 1) <= m < 2 ^ d -> 0 < m -> Zdigits2 m = d.
Proof.
  intros Hm Hpos. destruct m as [| p | p]; try lia. cbn [Zdigits2].
  pose proof (digits2_pos_bounds p) as Hp.
  set (d' := Zpos (digits2_pos p)) in *.
  assert (Hd : 0 < d).
  { destruct (Z_lt_le_dec 0 d) as [H | H]; [exact H |].
    exfalso. destruct (Z.eq_dec d 0) as [-> | Hne]; [cbn in Hm; lia |].
    rewrite (Z.pow_neg_r 2 d) in Hm by lia. lia. }
  destruct (Z_lt_le_dec d d') as [Hlt | Hle].
  - assert (2 ^ d <= 2 ^ (d' - 1)) by (apply Z.pow_le_mono_r; lia). lia.
  - destruct (Z_lt_le_dec d' d) as [Hlt | Hle']; [| lia].
    assert (2 ^ d' <= 2 ^ (d - 1)) by (apply Z.pow_le_mono_r; lia). lia.
Qed.

Lemma shr_1_Rep (mrs : shr_record) (N D : Z) :
  Rep mrs N D -> Rep (shr_1 mrs) N (2 * D).
Proof.
  destruct mrs as [m rb sb]. intros [Hm (r & HN & Hr & Hloc)]. cbn [shr_m] in *.
  destruct m as [| [p | p |] | p]; try lia.
  - split; [cbn [shr_1 shr_m]; lia |]. exists r.
    destruct rb, sb; cbn [shr_1 shr_m loc_of_shr_record loc_ok orb] in Hloc |- *; lia.
  - split; [cbn [shr_1 shr_m]; lia |]. exists (D + r).
    change (Zpos p~1) with (2 * Zpos p + 1) in HN.
    destruct rb, sb; cbn [shr_1 shr_m loc_of_shr_record loc_ok orb] in Hloc |- *; lia.
  - split; [cbn [shr_1 shr_m]; lia |]. exists r.
    change (Zpos p~0) with (2 * Zpos p) in HN.
    destruct rb, sb; cbn [shr_1 shr_m loc_of_shr_record loc_ok orb] in Hloc |- *; lia.
  - split; [cbn [shr_1 shr_m]; lia |]. exists (D + r).
    destruct rb, sb; cbn [shr_1 shr_m loc_of_shr_record loc_ok orb] in Hloc |- *; lia.
Qed.

Lemma iter_shr_1_Rep (p : positive) (mrs : shr_record) (N D : Z) :
  Rep mrs N D -> Rep (iter_pos shr_1 p mrs) N (2 ^ Zpos p * D).
Proof.
  revert mrs D. induction p as [p IH | p IH |]; intros mrs D H; cbn [iter_pos].
  - replace (2 ^ Zpos p~1 * D) with (2 ^ Zpos p * (2 ^ Zpos p * (2 * D))).
    + apply IH, IH, shr_1_Rep, H.
    + replace (Zpos p~1) with (Zpos p + Zpos p + 1) by lia.
      rewrite !Z.pow_add_r, Z.pow_1_r by lia. ring.
  - replace (2 ^ Zpos p~0 * D) with (2 ^ Zpos p * (2 ^ Zpos p * D)).
    + apply IH, IH, H.
    + replace (Zpos p~0) with (Zpos p + Zpos p) by lia.
      rewrite !Z.pow_add_r by lia. ring.
  - rewrite Z.pow_1_r. apply shr_1_Rep, H.
Qed.

Lemma shr_Rep (mrs : shr_record) (e n N D : Z) :
  0 <= n -> Rep mrs N D ->
  exists mrs', shr mrs e n = (mrs', e + n) /\ Rep mrs' N (2 ^ n * D).
Proof.
  intros Hn H. destruct n as [| p | p]; [| | lia].
  - exists mrs. cbn [shr]. rewrite Z.add_0_r, Z.pow_0_r, Z.mul_1_l. auto.
  - eexists. split; [reflexivity |]. apply iter_shr_1_Rep, H.
Qed.

Lemma Rep_of_loc (m : Z) (l : location) (N D : Z) :
  0 <= m -> (exists r, N = m * D + r /\ 0 <= r < D /\ loc_ok l r D) ->
  Rep (shr_record_of_loc m l) N D.
Proof.
  intros Hm (r & HN & Hr & Hl). destruct l as [| []]; (split; [exact Hm |]);
    exists r; cbn [shr_record_of_loc shr_m loc_of_shr_record]; auto.
Qed.

Lemma Rep_bounds (mrs : shr_record) (N D : Z) :
  Rep mrs N D -> shr_m mrs * D <= N < (shr_m mrs + 1) * D /\ 0 < D.
Proof. intros [_ (r & -> & Hr & _)]. lia. Qed.

(** Rounding to nearest, ties to even, lands within half a unit. *)
Lemma round_nearest_even_Rep (mrs : shr_record) (N D : Z) :
  Rep mrs N D ->
  let m1 := round_nearest_even (shr_m mrs) (loc_of_shr_record mrs) in
  shr_m mrs <= m1 <= shr_m mrs + 1
  /\ - D <= 2 * (m1 * D - N) <= D.
Proof.
  intros [Hm (r & -> & Hr & Hl)].
  destruct (loc_of_shr_record mrs) as [| []]; cbn [round_nearest_even loc_ok] in *;
    try destruct (Z.even (shr_m mrs)); lia.
Qed.

Lemma p52_pow : 2 ^ 52 = p52. Proof. reflexivity. Qed.
Lemma p53_pow : 2 ^ 53 = p53. Proof. reflexivity. Qed.

Lemma fexp_normal (e : Z) : -1074 <= e - 53 -> fexp 53 1024 e = e - 53.
Proof. intro H. unfold fexp, emin. lia. Qed.

Lemma round_aux_spec (s : bool) (mx ex : Z) (lx : location) (N D n : Z) :
  0 <= n -> p52 * 2 ^ n <= mx < p53 * 2 ^ n ->
  -1074 <= ex + n -> ex + n + 1 <= 971 ->
  Rep (shr_record_of_loc mx lx) N D ->
  exists mf ef m1,
    binary_round_aux 53 1024 s mx ex lx = S754_finite s mf ef
    /\ p52 <= Zpos mf < p53
    /\ p52 <= m1 <= p53
    /\ - (2 ^ n * D) <= 2 * (m1 * (2 ^ n * D) - N) <= 2 ^ n * D
    /\ ((Zpos mf = m1 /\ ef = ex + n)
        \/ (m1 = p53 /\ Zpos mf = p52 /\ ef = ex + n + 1)).
Proof.
  intros Hn Hmx He1 He2 HRep.
  assert (Hpow : 0 < 2 ^ n) by (apply Z.pow_pos_nonneg; lia).
  assert (Hdig : Zdigits2 mx = 53 + n).
  { apply Zdigits2_unique; [| unfold p52 in Hmx; lia].
    replace (53 + n - 1) with (52 + n) by lia.
    rewrite !Z.pow_add_r, p52_pow, p53_pow by lia. exact Hmx. }
  unfold binary_round_aux, shr_fexp.
  rewrite Hdig, fexp_normal by lia.
  replace (53 + n + ex - 53 - ex) with n by lia.
  destruct (shr_Rep (shr_record_of_loc mx lx) ex n N D Hn HRep) as (mrs' & Hshr & HRep').
  rewrite Hshr.
  pose proof (round_nearest_even_Rep _ _ _ HRep') as [Hm1 Herr].
  set (m1 := round_nearest_even (shr_m mrs') (loc_of_shr_record mrs')) in *.
  cbv zeta in Hm1, Herr.
  assert (Hm' : p52 <= shr_m mrs' < p53).
  { apply Rep_bounds in HRep as [HN HD], HRep' as [HN' HD'].
    assert (Hmx0 : shr_m (shr_record_of_loc mx lx) = mx) by (destruct lx as [| []]; reflexivity).
    rewrite Hmx0 in HN. split.
    - assert (p52 * (2 ^ n * D) < (shr_m mrs' + 1) * (2 ^ n * D)) by nia.
      apply Z.mul_lt_mono_pos_r in H; lia.
    - assert (shr_m mrs' * (2 ^ n * D) < p53 * (2 ^ n * D)) by nia.
      apply Z.mul_lt_mono_pos_r in H; lia. }
  destruct (Z.eq_dec m1 p53) as [Heq | Hne].
  - rewrite Heq. change (Zdigits2 p53) with 54. rewrite fexp_normal by lia.
    replace (54 + (ex + n) - 53 - (ex + n)) with 1 by lia.
    unfold p53 at 1. cbn [shr shr_record_of_loc iter_pos shr_1 shr_m].
    exists 4503599627370496%positive, (ex + n + 1), m1.
    replace (ex + n + 1 <=? 1024 - 53) with true by (symmetry; apply Z.leb_le; lia).
    split; [reflexivity |]. unfold p52, p53 in *. repeat split; try lia.
  - assert (Hdig1 : Zdigits2 m1 = 53)
      by (apply Zdigits2_unique; cbn; unfold p52, p53 in *; lia).
    rewrite Hdig1, fexp_normal by lia.
    replace (53 + (ex + n) - 53 - (ex + n)) with 0 by lia.
    cbn [shr shr_record_of_loc shr_m].
    destruct m1 as [| mf | mf] eqn:Em1; try (unfold p52 in *; lia).
    exists mf, (ex + n), (Zpos mf).
    replace (ex + n <=? 1024 - 53) with true by (symmetry; apply Z.leb_le; lia).
    split; [reflexivity |]. unfold p52, p53 in *. repeat split; try lia.
Qed.

Lemma iter_xO (m d : positive) : Zpos (Pos.iter xO m d) = Zpos m * 2 ^ Zpos d.
Proof.
  induction d as [| d IH] using Pos.peano_ind.
  - cbn [Pos.iter]. rewrite Z.pow_1_r. lia.
  - rewrite Pos.iter_succ, Pos2Z.inj_succ, Z.pow_succ_r by lia.
    change (Zpos (Pos.iter xO m d)~0) with (2 * Zpos (Pos.iter xO m d)).
    rewrite IH. ring.
Qed.

Lemma Rep_exact (m : Z) : 0 <= m -> Rep (shr_record_of_loc m loc_Exact) m 1.
Proof.
  intro Hm. apply Rep_of_loc; [exact Hm |]. exists 0. cbn. lia.
Qed.

Lemma binary_normalize_number (c : positive) :
  Zpos c < p53 -> is_number (binary_normalize 53 1024 (Zpos c) 0 false) (Zpos c).
Proof.
  intro Hc. cbn [binary_normalize]. unfold binary_round.
  pose proof (digits2_pos_bounds c) as Hd.
  set (d := Zpos (digits2_pos c)) in *.
  assert (Hd53 : 1 <= d <= 53).
  { split; [unfold d; lia |].
    destruct (Z_lt_le_dec 53 d) as [H | H]; [| exact H].
    assert (2 ^ 53 <= 2 ^ (d - 1)) by (apply Z.pow_le_mono_r; lia).
    rewrite p53_pow in *. lia. }
  rewrite Z.add_0_r, fexp_normal by lia.
  assert (Hshl : exists mz, shl_align c 0 (d - 53) = (mz, d - 53)
                            /\ Zpos mz = Zpos c * 2 ^ (53 - d)).
  { unfold shl_align. rewrite Z.sub_0_r.
    destruct (d - 53) as [| q | q] eqn:E; try lia.
    - exists c. split; [reflexivity |]. replace (53 - d) with 0 by lia.
      rewrite Z.pow_0_r. lia.
    - eexists. split; [reflexivity |]. rewrite iter_xO.
      replace (53 - d) with (Zpos q) by lia. reflexivity. }
  destruct Hshl as (mz & -> & Hmz).
  assert (Hrange : p52 * 2 ^ 0 <= Zpos mz < p53 * 2 ^ 0).
  { assert (E52 : p52 = 2 ^ (d - 1) * 2 ^ (53 - d))
      by (rewrite <- Z.pow_add_r, <- p52_pow by lia; f_equal; lia).
    assert (E53 : p53 = 2 ^ d * 2 ^ (53 - d))
      by (rewrite <- Z.pow_add_r, <- p53_pow by lia; f_equal; lia).
    rewrite Z.pow_0_r, !Z.mul_1_r, Hmz, E52, E53.
    assert (0 < 2 ^ (53 - d)) by (apply Z.pow_pos_nonneg; lia).
    split; [apply Z.mul_le_mono_nonneg_r | apply Z.mul_lt_mono_pos_r]; lia. }
  destruct (round_aux_spec false (Zpos mz) (d - 53) loc_Exact (Zpos mz) 1 0)
    as (mf & ef & m1 & Hres & Hmf & Hm1 & Herr & Hcase);
    try lia; try exact Hrange; try (apply Rep_exact; lia).
  rewrite Z.pow_0_r in Herr.
  assert (m1 = Zpos mz) by lia. subst m1.
  rewrite Z.pow_0_r, !Z.mul_1_r in Hrange.
  destruct Hcase as [[E1 E2] | [E1 _]]; [| lia].
  exists mf, ef. split; [exact Hres |]. split; [exact Hmf |].
  split; [lia |]. rewrite E1, Hmz, E2. f_equal. f_equal. lia.
Qed.

Lemma new_location_ok (d r : Z) :
  0 <= r < d -> loc_ok (new_location d r) r d.
Proof.
  intro Hr. unfold new_location.
  destruct (Z.even d) eqn:Hev.
  - unfold new_location_even. destruct (Z.eqb_spec r 0) as [-> | Hne]; [reflexivity |].
    destruct (Z.compare_spec (2 * r) d); cbn [loc_ok]; lia.
  - unfold new_location_odd. destruct (Z.eqb_spec r 0) as [-> | Hne]; [reflexivity |].
    assert (Hodd : Z.odd d = true) by (rewrite <- Z.negb_even, Hev; reflexivity).
    apply Z.odd_spec in Hodd as [k Hk].
    destruct (Z.compare_spec (2 * r + 1) d); cbn [loc_ok]; lia.
Qed.

(** Division of two integers below 2^53, the smaller by the larger:
    [m1 / 2^k1] is the quotient [c / t] rounded to 53 bits. *)
Lemma SFdiv_spec (x y : spec_float) (c t : Z) :
  is_number x c -> is_number y t -> 0 < c <= t ->
  exists mq eq m1 k1,
    SFdiv 53 1024 x y = S754_finite false mq eq
    /\ p52 <= Zpos mq < p53 /\ p52 <= m1 <= p53
    /\ 52 <= k1 <= 106
    /\ - t <= 2 * (m1 * t - c * 2 ^ k1) <= t
    /\ ((Zpos mq = m1 /\ eq = - k1)
        \/ (m1 = p53 /\ Zpos mq = p52 /\ eq = - k1 + 1)).
Proof.
  intros (mx & ex & -> & Hmx & Hex & Emx) (my & ey & -> & Hmy & Hey & Emy) Hct.
  cbn [SFdiv xorb]. unfold SFdiv_core_binary.
  assert (Hdx : Zdigits2 (Zpos mx) = 53)
    by (apply Zdigits2_unique; [cbn; unfold p52, p53 in *; lia | lia]).
  assert (Hdy : Zdigits2 (Zpos my) = 53)
    by (apply Zdigits2_unique; [cbn; unfold p52, p53 in *; lia | lia]).
  rewrite Hdx, Hdy.
  replace (53 + ex - (53 + ey)) with (ex - ey) by lia.
  rewrite fexp_normal by lia.
  replace (Z.min (ex - ey - 53) (ex - ey)) with (ex - ey - 53) by lia.
  replace (ex - ey - (ex - ey - 53)) with 53 by lia.
  rewrite Z.shiftl_mul_pow2 by lia. rewrite p53_pow.
  pose proof (Z_div_mod (Zpos mx * p53) (Zpos my) ltac:(lia)) as Hdiv.
  destruct (Z.div_eucl (Zpos mx * p53) (Zpos my)) as [q r].
  destruct Hdiv as [HN Hr].
  (* exponents: the numerator is not above the denominator *)
  assert (Pa : 0 < 2 ^ (- ex)) by (apply Z.pow_pos_nonneg; lia).
  assert (Pb : 0 < 2 ^ (- ey)) by (apply Z.pow_pos_nonneg; lia).
  assert (Hab : ex <= ey).
  { destruct (Z_lt_le_dec ey ex) as [Hlt | Hle]; [| lia]. exfalso.
    assert (E : 2 ^ (- ey) = 2 ^ (- ex) * 2 ^ (ex - ey))
      by (rewrite <- Z.pow_add_r by lia; f_equal; lia).
    assert (2 <= 2 ^ (ex - ey))
      by (change 2 with (2 ^ 1) at 1; apply Z.pow_le_mono_r; lia).
    rewrite E in Emy. unfold p52, p53 in *. nia. }
  (* the quotient has 53 or 54 bits *)
  assert (Hq : p52 <= q < 2 * p53) by (unfold p52, p53 in *; nia).
  set (n := if q <? p53 then 0 else 1).
  assert (Hn : 0 <= n <= 1) by (unfold n; destruct (q <? p53); lia).
  assert (Hqn : p52 * 2 ^ n <= q < p53 * 2 ^ n).
  { unfold n. destruct (Z.ltb_spec q p53); cbn; unfold p52, p53 in *; lia. }
  destruct (round_aux_spec false q (ex - ey - 53) (new_location (Zpos my) r)
              (Zpos mx * p53) (Zpos my) n)
    as (mq & eq & m1 & Hres & Hmq & Hm1 & Herr & Hcase); try lia.
  { apply Rep_of_loc; [unfold p52 in *; lia |]. exists r.
    split; [lia |]. split; [lia |]. apply new_location_ok. lia. }
  exists mq, eq, m1, (- (ex - ey - 53 + n)).
  split; [exact Hres |]. split; [exact Hmq |]. split; [exact Hm1 |].
  split; [lia |]. split; [| destruct Hcase as [[? ?] | (? & ? & ?)]; [left | right]; lia].
  (* scale the bound down by 2^(n - ey) *)
  set (k1 := - (ex - ey - 53 + n)).
  assert (Hk1 : 2 ^ (- ex) * p53 = 2 ^ k1 * (2 ^ n * 2 ^ (- ey))).
  { rewrite <- p53_pow, <- !Z.pow_add_r by lia. f_equal. unfold k1. lia. }
  assert (Pn : 0 < 2 ^ n * 2 ^ (- ey)) by (apply Z.mul_pos_pos; [apply Z.pow_pos_nonneg |]; lia).
  set (G := 2 ^ n * 2 ^ (- ey)) in *.
  assert (E1 : m1 * (2 ^ n * Zpos my) - Zpos mx * p53 = G * (m1 * t - c * 2 ^ k1)).
  { rewrite Emx, Emy. unfold G.
    replace (c * 2 ^ (- ex) * p53) with (c * (2 ^ (- ex) * p53)) by ring.
    rewrite Hk1. unfold G. ring. }
  assert (E2 : 2 ^ n * Zpos my = G * t) by (rewrite Emy; unfold G; ring).
  rewrite E1 in Herr. rewrite E2 in Herr. nia.
Qed.

Lemma hundred_number : binary_normalize 53 1024 100 0 false = hundred.
Proof. reflexivity. Qed.

(** Multiplication by 100: [m2 * 2^s2] is [100 * mq] rounded to 53 bits. *)
Lemma SFmul_hundred_spec (mq : positive) (eq : Z) :
  p52 <= Zpos mq < p53 -> -200 <= eq <= 0 ->
  exists mf ef m2 s2,
    SFmul 53 1024 (S754_finite false mq eq) hundred = S754_finite false mf ef
    /\ p52 <= Zpos mf < p53 /\ p52 <= m2 <= p53
    /\ 6 <= s2 <= 7
    /\ - 2 ^ s2 <= 2 * (m2 * 2 ^ s2 - 100 * Zpos mq) <= 2 ^ s2
    /\ ((Zpos mf = m2 /\ ef = eq + s2)
        \/ (m2 = p53 /\ Zpos mf = p52 /\ ef = eq + s2 + 1)).
Proof.
  intros Hmq Heq. unfold hundred. cbn [SFmul xorb]. rewrite Pos2Z.inj_mul.
  set (m100 := Zpos 7036874417766400).
  change (2 ^ 52) with 4503599627370496 in *.
  change (2 ^ 53) with 9007199254740992 in *.
  destruct (Z_lt_le_dec (Zpos mq * m100) (p53 * 4503599627370496)) as [Hlt | Hge].
  - destruct (round_aux_spec false (Zpos mq * m100) (eq + -46) loc_Exact
                (Zpos mq * m100) 1 52)
      as (mf & ef & m2 & Hres & Hmf & Hm2 & Herr & Hcase);
      try (unfold m100, p52, p53 in *; lia); try (apply Rep_exact; lia).
    exists mf, ef, m2, 6. split; [exact Hres |]. split; [exact Hmf |].
    split; [exact Hm2 |]. split; [lia |].
    split; [| destruct Hcase as [[? ?] | (? & ? & ?)]; [left | right]; lia].
    unfold m100 in Herr. change (2 ^ 52) with 4503599627370496 in Herr.
    change (2 ^ 6) with 64. lia.
  - destruct (round_aux_spec false (Zpos mq * m100) (eq + -46) loc_Exact
                (Zpos mq * m100) 1 53)
      as (mf & ef & m2 & Hres & Hmf & Hm2 & Herr & Hcase);
      try (unfold m100, p52, p53 in *; lia); try (apply Rep_exact; lia).
    exists mf, ef, m2, 7. split; [exact Hres |]. split; [exact Hmf |].
    split; [exact Hm2 |]. split; [lia |].
    split; [| destruct Hcase as [[? ?] | (? & ? & ?)]; [left | right]; lia].
    unfold m100 in Herr. change (2 ^ 53) with 9007199254740992 in Herr.
    change (2 ^ 7) with 128. lia.
Qed.

(** The three roundings together: quotient, product by 100, one decimal. *)

Lemma combine (c t m1 A mq D1 m2 S mf D2 B n : Z) :
  0 < c <= t -> t < 2 ^ 40 -> 2 ^ 52 <= A ->
  - t <= 2 * (m1 * t - c * A) <= t ->
  m1 = mq * D1 -> 1 <= D1 <= 2 ->
  - S <= 2 * (m2 * S - 100 * mq) <= S -> 64 <= S <= 128 ->
  m2 = mf * D2 -> 1 <= D2 <= 2 ->
  B * D2 * S * D1 = A -> 0 < B ->
  n * (2 * B) <= 20 * mf + B < (n + 1) * (2 * B) ->
  - t <= 2 * (n * t - 1000 * c) <= t.
Proof.
  intros Hc Ht HA H1 E1 HD1 H2 HS E2 HD2 EA HB Hn.
  change (2 ^ 40) with 1099511627776 in Ht.
  change (2 ^ 52) with 4503599627370496 in HA.
  subst m1 m2.
  assert (HSD : 0 < S * D1 <= 256).
  { split; [apply Z.mul_pos_pos; lia |].
    transitivity (128 * D1); [apply Z.mul_le_mono_nonneg_r; lia | lia]. }
  assert (HG : 0 < D2 * (S * D1)) by (apply Z.mul_pos_pos; lia).
  assert (HW : 0 < D2 * (S * D1) * t) by (apply Z.mul_pos_pos; lia).
  assert (HV : 0 < D1 * t) by (apply Z.mul_pos_pos; lia).
  destruct Hn as [Hn1 Hn2].
  apply (Z.mul_le_mono_nonneg_r _ _ (D2 * (S * D1) * t)) in Hn1; [| lia].
  apply (Z.mul_lt_mono_pos_r (D2 * (S * D1) * t)) in Hn2; [| lia].
  destruct H2 as [H2a H2b].
  apply (Z.mul_le_mono_nonneg_r _ _ (D1 * t)) in H2a; [| lia].
  apply (Z.mul_le_mono_nonneg_r _ _ (D1 * t)) in H2b; [| lia].
  assert (HSt : S * (D1 * t) <= 256 * t).
  { rewrite Z.mul_assoc. apply Z.mul_le_mono_nonneg_r; lia. }
  set (X := mf * D2 * S * D1 * t) in *.
  set (Y := mq * D1 * t) in *.
  replace (n * (2 * B) * (D2 * (S * D1) * t)) with (2 * (A * (n * t))) in Hn1
    by (rewrite <- EA; ring).
  replace ((20 * mf + B) * (D2 * (S * D1) * t)) with (20 * X + A * t) in Hn1, Hn2
    by (rewrite <- EA; unfold X; ring).
  replace ((n + 1) * (2 * B) * (D2 * (S * D1) * t))
    with (2 * (A * (n * t)) + 2 * (A * t)) in Hn2
    by (rewrite <- EA; ring).
  replace (2 * (mf * D2 * S - 100 * mq) * (D1 * t)) with (2 * X - 200 * Y) in H2a, H2b
    by (unfold X, Y; ring).
  replace (- S * (D1 * t)) with (- (S * (D1 * t))) in H2a by ring.
  replace (2 * (mq * D1 * t - c * A)) with (2 * Y - 2 * (c * A)) in H1
    by (unfold Y; ring).
  assert (HAt : A * t + A = A * (t + 1)) by ring.
  assert (Hup : A * (2 * (n * t - 1000 * c)) < A * (t + 1)).
  { replace (A * (2 * (n * t - 1000 * c))) with (2 * (A * (n * t)) - 2000 * (c * A)) by ring.
    rewrite <- HAt.
    generalize dependent (A * (n * t)). generalize dependent (c * A).
    generalize dependent (A * t). generalize dependent (S * (D1 * t)).
    intros; lia. }
  assert (Hlo : A * (- (t + 1)) < A * (2 * (n * t - 1000 * c))).
  { replace (A * (2 * (n * t - 1000 * c))) with (2 * (A * (n * t)) - 2000 * (c * A)) by ring.
    replace (A * (- (t + 1))) with (- (A * t + A)) by ring.
    generalize dependent (A * (n * t)). generalize dependent (c * A).
    generalize dependent (A * t). generalize dependent (S * (D1 * t)).
    intros; lia. }
  apply Z.mul_lt_mono_pos_l in Hup; [| lia].
  apply Z.mul_lt_mono_pos_l in Hlo; [| lia].
  lia.
Qed.

End Binary64.

Lemma tenths_spec (mf : positive) (ef : Z) :
  (ef < 0)%Z ->
  (tenths mf ef * (2 * 2 ^ (- ef)) <= 20 * Zpos mf + 2 ^ (- ef)
   < (tenths mf ef + 1) * (2 * 2 ^ (- ef)))%Z.
Proof.
  intro Hef. unfold tenths.
  destruct (Z.leb_spec 0 ef) as [H | _]; [lia |].
  assert (Hpos : (0 < 2 ^ (- ef))%Z) by (apply Z.pow_pos_nonneg; lia).
  replace (2 ^ (1 - ef))%Z with (2 * 2 ^ (- ef))%Z
    by (rewrite <- Z.pow_succ_r by lia; f_equal; lia).
  split.
  - rewrite Z.mul_comm. apply Z.mul_div_le. lia.
  - rewrite (Z.mul_comm (_ + 1)), Z.mul_add_distr_l, Z.mul_1_r.
    pose proof (Z.mul_succ_div_gt (20 * Zpos mf + 2 ^ (- ef)) (2 * 2 ^ (- ef))
                  ltac:(lia)) as H.
    rewrite Z.mul_succ_r in H. exact H.
Qed.

Lemma number_of_positive (c : nat) :
  (0 < c)%nat -> (Z.of_nat c < 2 ^ 40)%Z -> is_number (number_of_nat c) (Z.of_nat c).
Proof.
  intros Hc Hlt. unfold number_of_nat, prec, emax.
  destruct (Z.of_nat c) as [| q | q] eqn:E; try lia.
  apply binary_normalize_number. unfold p53.
  change (2 ^ 40)%Z with 1099511627776%Z in Hlt. lia.
Qed.

(** With fewer than 2^40 votes the printed percentage is [n / 10] for an
    integer [n] nearest to [1000 * votes / total]. *)
Lemma percentage_nearest (votes total : nat) :
  (0 < total)%nat -> (votes <= total)%nat -> (Z.of_nat total < 2 ^ 40)%Z ->
  exists n : Z,
    percentage votes total = fixed1 n
    /\ (- Z.of_nat total <= 2 * (n * Z.of_nat total - 1000 * Z.of_nat votes)
        <= Z.of_nat total)%Z.
Proof.
  intros Ht Hvt Hbound. unfold percentage.
  destruct (Nat.ltb_spec 0 total) as [_ | H]; [| lia].
  change (number_of_nat 100) with hundred.
  destruct (number_of_positive total Ht Hbound) as (my & ey & Ey & Hy).
  destruct votes as [| v].
  - exists 0%Z. rewrite Ey. split; [reflexivity | lia].
  - assert (Hv : (0 < S v)%nat) by lia.
    assert (Hvb : (Z.of_nat (S v) < 2 ^ 40)%Z) by lia.
    pose proof (number_of_positive (S v) Hv Hvb) as Hx.
    assert (Hy' : is_number (number_of_nat total) (Z.of_nat total))
      by (exists my, ey; split; [exact Ey | exact Hy]).
    destruct (SFdiv_spec _ _ _ _ Hx Hy' ltac:(lia))
      as (mq & eq & m1 & k1 & Hdiv & Hmq & Hm1 & Hk1 & Herr1 & Hcase1).
    unfold number_div, number_mul, prec, emax. rewrite Hdiv.
    destruct (SFmul_hundred_spec mq eq Hmq ltac:(destruct Hcase1 as [[_ ->] | (_ & _ & ->)]; lia))
      as (mf & ef & m2 & s2 & Hmul & Hmf & Hm2 & Hs2 & Herr2 & Hcase2).
    rewrite Hmul. cbn [toFixed1]. exists (tenths mf ef). split; [reflexivity |].
    (* the exponents of the three steps add up *)
    assert (Hd1 : exists d1, (0 <= d1 <= 1 /\ m1 = Zpos mq * 2 ^ d1 /\ eq = - k1 + d1)%Z).
    { destruct Hcase1 as [[E1 E2] | (E1 & E2 & E3)].
      - exists 0%Z. rewrite Z.pow_0_r. lia.
      - exists 1%Z. rewrite Z.pow_1_r. unfold p52, p53 in *. lia. }
    assert (Hd2 : exists d2, (0 <= d2 <= 1 /\ m2 = Zpos mf * 2 ^ d2 /\ ef = eq + s2 + d2)%Z).
    { destruct Hcase2 as [[E1 E2] | (E1 & E2 & E3)].
      - exists 0%Z. rewrite Z.pow_0_r. lia.
      - exists 1%Z. rewrite Z.pow_1_r. unfold p52, p53 in *. lia. }
    destruct Hd1 as (d1 & Hd1 & Em1 & Eeq), Hd2 as (d2 & Hd2 & Em2 & Eef).
    assert (Hef : (ef < 0)%Z) by lia.
    pose proof (tenths_spec mf ef Hef) as Hn.
    assert (Hpow1 : (1 <= 2 ^ d1 <= 2)%Z)
      by (assert (d1 = 0 \/ d1 = 1)%Z as [-> | ->] by lia; cbn; lia).
    assert (Hpow2 : (1 <= 2 ^ d2 <= 2)%Z)
      by (assert (d2 = 0 \/ d2 = 1)%Z as [-> | ->] by lia; cbn; lia).
    assert (HpowS : (64 <= 2 ^ s2 <= 128)%Z)
      by (assert (s2 = 6 \/ s2 = 7)%Z as [-> | ->] by lia; cbn; lia).
    apply (combine (Z.of_nat (S v)) (Z.of_nat total) m1 (2 ^ k1) (Zpos mq) (2 ^ d1)
                   m2 (2 ^ s2) (Zpos mf) (2 ^ d2) (2 ^ (- ef)) (tenths mf ef));
      try assumption; try lia;
      try (apply Z.pow_le_mono_r; lia);
      try (rewrite <- !Z.pow_add_r by lia; f_equal; lia);
      try (apply Z.pow_pos_nonneg; lia).
Qed.

(** * Tally aggregator *)

Lemma le_list_sum (x : nat) (l : list nat) : In x l -> x <= list_sum l.
Proof.
  induction l as [| a l IH]; [intros [] |].
  rewrite list_sum_cons. intros [-> | H]; [lia | apply IH in H; lia].
Qed.

(** C7. The results of a poll list, per option, the number of vote rows
    of that option; these counts add up to the total, which is the number
    of vote rows of the poll.  With no vote the total is 0 and every
    percentage is "0"; otherwise (and below 2^40 votes) every percentage
    is printed with one decimal and is a tenth nearest to
    count / total * 100. *)
Theorem results_counts_and_percentages (P : Id) (w : World) (p : Poll) :
  db_online w = true ->
  poll_options_pkey (db w) = true ->
  find_poll P (db w) = Some p ->
  (Z.of_nat (ledger_count P (db w)) < 2 ^ 40)%Z ->
  exists r,
    run (route_getPollResults P) w = (Ok (mkResponse 200 (ResultsBody r)), w)
    /\ results_pollId r = P
    /\ results_totalVotes r = ledger_count P (db w)
    /\ map res_voteCount (results_options r) = map snd (counts P (db w))
    /\ list_sum (map res_voteCount (results_options r)) = ledger_count P (db w)
    /\ Forall (percentage_ok (results_totalVotes r)) (results_options r).
Proof.
  intros Hon Hpk Hp Hbound.
  pose proof (snapshot_total_ledger P (db w) Hpk) as Htotal.
  unfold snapshot_total in Htotal.
  unfold route_getPollResults. rewrite run_asyncHandler.
  unfold getPollResults. rewrite run_await. unfold prisma at 1. rewrite Hon.
  unfold poll_findUnique_counts. rewrite find_any_poll, Hp, set_db_same.
  fold (counts P (db w)). cbn [run].
  eexists. split; [reflexivity |]. cbn [results_pollId results_totalVotes results_options].
  assert (Hcounts : map res_voteCount
            (map (fun oc : PollOption * nat =>
                    mkOptionResult (option_id (fst oc)) (option_text (fst oc)) (snd oc)
                      (percentage (snd oc) (sum_votes (counts P (db w)))))
                 (counts P (db w))) = map snd (counts P (db w))).
  { rewrite map_map. apply map_ext. reflexivity. }
  split; [apply find_some in Hp as [_ Hp]; apply String.eqb_eq; exact Hp |].
  split; [exact Htotal |]. split; [exact Hcounts |].
  split; [rewrite Hcounts, <- sum_votes_spec; exact Htotal |].
  apply Forall_forall. intros o Ho. apply in_map_iff in Ho as (oc & <- & Hoc).
  unfold percentage_ok. cbn [res_percentage res_voteCount].
  rewrite Htotal in *.
  destruct (Nat.eqb_spec (ledger_count P (db w)) 0) as [E | E].
  - rewrite E. reflexivity.
  - apply percentage_nearest; [lia | | exact Hbound].
    rewrite <- Htotal, sum_votes_spec. apply le_list_sum, in_map, Hoc.
Qed.

Example results_counts_and_percentages_witness :
  exists r,
    run (route_getPollResults "p") demo_voted = (Ok (mkResponse 200 (ResultsBody r)), demo_voted)
    /\ results_totalVotes r = 1
    /\ list_sum (map res_voteCount (results_options r)) = 1
    /\ Forall (percentage_ok 1) (results_options r).
Proof.
  destruct (results_counts_and_percentages "p" demo_voted
              (mkPoll "p" "Tabs or spaces?" true "u1"))
    as (r & Hrun & _ & Htotal & _ & Hsum & Hpct).
  - reflexivity.
  - reflexivity.
  - reflexivity.
  - vm_compute. reflexivity.
  - exists r. rewrite Htotal in Hpct. repeat split; assumption.
Defined.

(** The results of the specification's scenario, and of a poll without votes. *)
Example scenario_results :
  fst (run (route_getPollResults "p")
           (serve [SubmitVote (Some "u1") "p" "A"; SubmitVote (Some "u2") "p" "B"] demo))
  = Ok (mkResponse 200 (ResultsBody
         (mkResults "p" "Tabs or spaces?" 2
            [mkOptionResult "A" "tabs" 1 "50.0"; mkOptionResult "B" "spaces" 1 "50.0"])))
  /\ fst (run (route_getPollResults "p")
              (serve [SubmitVote (Some "u1") "p" "A"; SubmitVote (Some "u2") "p" "B";
                      SubmitVote (Some "u1") "p" "B"] demo))
     = Ok (mkResponse 200 (ResultsBody
            (mkResults "p" "Tabs or spaces?" 2
               [mkOptionResult "A" "tabs" 0 "0.0"; mkOptionResult "B" "spaces" 2 "100.0"])))
  /\ fst (run (route_getPollResults "p") demo)
     = Ok (mkResponse 200 (ResultsBody
            (mkResults "p" "Tabs or spaces?" 0
               [mkOptionResult "A" "tabs" 0 "0"; mkOptionResult "B" "spaces" 0 "0"]))).
Proof. repeat split; vm_compute; reflexivity. Qed.

(** Ties go with the binary value of the product, not with the decimal
    one: 247 of 2000 votes is 12.35 percent and prints as 12.3, 7 of 2000
    is 0.35 percent and prints as 0.4. *)
Example percentage_ties :
  percentage 247 2000 = "12.3" /\ percentage 7 2000 = "0.4"
  /\ percentage 1 3 = "33.3" /\ percentage 2 3 = "66.7" /\ percentage 1 16 = "6.3".
Proof. repeat split; vm_compute; reflexivity. Qed.

(** * The rest of the controllers, the middleware and the socket events *)

(** * The rest of the vote controller *)

Lemma run_asyncHandler_json {X} (fn : Prog (nat * X)) (w : World) :
  run (asyncHandler_json fn) w =
  match run fn w with
  | (Ok sent, w') => (Ok (Json (fst sent) (snd sent)), w')
  | (Thrown e, w') => (Ok (Failed (errorHandler e)), w')
  end.
Proof.
  unfold asyncHandler_json. rewrite run_try_catch, run_bind.
  destruct (run fn w) as [[sent | e] w']; reflexivity.
Qed.

Lemma vote_update_errors id O d e d' :
  vote_update id O d = (Thrown e, d') ->
  In (status (errorHandler e)) [404; 409; 500].
Proof.
  unfold vote_update.
  destruct (find _ (votes d)); [| intro H; inversion H; cbn; auto].
  destruct (existsb _ (votes d)); [intro H; inversion H; cbn; auto |].
  destruct (vote_include _ d); intro H; inversion H; cbn; auto.
Qed.

Lemma vote_create_errors now u O d e d' :
  vote_create now u O d = (Thrown e, d') ->
  In (status (errorHandler e)) [409; 500].
Proof.
  unfold vote_create.
  destruct (_ || _); [intro H; inversion H; cbn; auto |].
  destruct (vote_include _ d); intro H; inversion H; cbn; auto.
Qed.

Lemma submitVote_errors user P O w e w' :
  run (submitVote user P O) w = (Thrown e, w') ->
  In (status (errorHandler e)) [400; 401; 404; 409; 500].
Proof.
  unfold submitVote.
  destruct (falsy user) eqn:Hfalsy; [intro H; inversion H; cbn; auto |].
  destruct user as [u |]; [| discriminate]. cbn in Hfalsy.
  rewrite run_await. unfold prisma at 1.
  destruct (db_online w) eqn:Hon; [| intro H; inversion H; cbn; auto 6].
  unfold poll_findUnique_published_option. rewrite set_db_same.
  destruct (find _ (polls (db w))) as [p |]; [| intro H; inversion H; cbn; auto].
  destruct (filter _ (options_of P (db w))) as [| o os];
    [intro H; inversion H; cbn; auto |]. cbn [length Nat.eqb].
  rewrite run_await. unfold prisma at 1. rewrite Hon.
  unfold vote_findFirst. rewrite set_db_same.
  destruct (find (vote_on_poll u P (db w)) (votes (db w))) as [existing |].
  - destruct (vote_pollOptionId existing =? O).
    + rewrite run_bind. cbn. intro H; inversion H; cbn; auto 6.
    + rewrite run_bind, run_await. unfold prisma at 1. rewrite Hon.
      destruct (vote_update (vote_id existing) O (db w)) as [[row | e'] d'] eqn:Hupd.
      * cbn [run fst snd].
        destruct (after_write P d' w
                    (mkResponse 200 (VoteBody "Vote updated successfully"
                                              (vote_json row))) Hon)
          as (w1 & Hrun & _).
        rewrite Hrun. discriminate.
      * intro H; inversion H; subst.
        apply vote_update_errors in Hupd. cbn in Hupd |- *. intuition.
  - rewrite run_bind, run_await. unfold prisma at 1. rewrite Hon.
    destruct (vote_create (clock w) u O (db w)) as [[row | e'] d'] eqn:Hcr.
    + cbn [run fst snd].
      destruct (after_write P d' w
                  (mkResponse 200 (VoteBody "Vote submitted successfully"
                                            (vote_json row))) Hon)
        as (w1 & Hrun & _).
      rewrite Hrun. discriminate.
    + intro H; inversion H; subst.
      apply vote_create_errors in Hcr. cbn in Hcr |- *. intuition.
Qed.

(** X1. [POST /polls/:pollId/vote] always answers, with one of six
    statuses; a 200 carries the vote, and any other answer leaves the
    tables, the rooms and the packets sent as they were. *)
Theorem vote_answer_or_no_trace (user : option Id) (P O : Id) (w : World) :
  exists r w',
    run (route_submitVote user P O) w = (Ok r, w')
    /\ In (status r) vote_statuses
    /\ (status r = 200 <-> exists message vote, body r = VoteBody message vote)
    /\ (status r <> 200 ->
        db w' = db w /\ rooms w' = rooms w /\ outbox w' = outbox w).
Proof.
  unfold route_submitVote. rewrite run_asyncHandler.
  pose proof (submitVote_cases user P O w) as Hcase.
  destruct (run (submitVote user P O) w) as [[resp | e] w'] eqn:Hrun.
  - exists resp, w'. split; [reflexivity |].
    assert (Hok : status resp = 200 /\ exists message vote, body resp = VoteBody message vote).
    { remember (Ok resp, w') as res eqn:Hres.
      destruct Hcase; inversion Hres; subst; cbn; split; eauto. }
    destruct Hok as [Hs Hb]. rewrite Hs.
    split; [cbn; auto |]. split; [tauto |]. intro H; contradiction.
  - pose proof (submitVote_errors _ _ _ _ _ _ Hrun) as Hst.
    assert (w' = w) as ->.
    { remember (Thrown e, w') as res eqn:Hres.
      destruct Hcase; inversion Hres; subst; reflexivity. }
    exists (errorHandler e), w. split; [reflexivity |].
    split; [unfold vote_statuses; cbn in Hst |- *; intuition |].
    split; [| auto].
    destruct (errorHandler_body e) as (kind & m & Hbody). rewrite Hbody.
    split.
    + intro H. rewrite H in Hst. cbn in Hst.
      intuition discriminate.
    + intros (message & vote & H). discriminate H.
Qed.

(** ** The vote a user holds *)

Lemma find_snoc {A} (f : A -> bool) (l : list A) (a : A) :
  find f (l ++ [a]) =
  match find f l with
  | Some x => Some x
  | None => if f a then Some a else None
  end.
Proof.
  induction l as [| b l IH]; cbn; [destruct (f a); reflexivity |].
  destruct (f b); [reflexivity | exact IH].
Qed.

Lemma same_options_same_lookup (d d' : Database) :
  poll_options d' = poll_options d ->
  (forall O, find_option O d' = find_option O d)
  /\ (forall u P v, vote_on_poll u P d' v = vote_on_poll u P d v).
Proof.
  intro H. unfold vote_on_poll, find_option. rewrite H. split; reflexivity.
Qed.

Lemma run_getMyVoteForPoll (u P : Id) (w : World) :
  u <> "" -> db_online w = true ->
  run (route_getMyVoteForPoll (Some u) P) w =
  (match find (vote_on_poll u P (db w)) (votes (db w)) with
   | None => Ok (Json 200 (mkMyVoteJson false None))
   | Some v =>
       match find_option (vote_pollOptionId v) (db w) with
       | Some o =>
           Ok (Json 200
                 (mkMyVoteJson true
                    (Some (mkMyVote (vote_id v) (option_id o, option_text o)
                                    (vote_createdAt v)))))
       | None => Ok (Failed (errorHandler InconsistentQueryResult))
       end
   end, w).
Proof.
  intros Hu Hon. unfold route_getMyVoteForPoll. rewrite run_asyncHandler_json.
  unfold getMyVoteForPoll. apply String.eqb_neq in Hu. cbn [falsy]. rewrite Hu.
  rewrite run_await. unfold prisma at 1. rewrite Hon.
  unfold vote_findFirst_option.
  destruct (find _ (votes (db w))) as [v |]; rewrite ?set_db_same; [| reflexivity].
  destruct (find_option (vote_pollOptionId v) (db w)) as [o |];
    rewrite set_db_same; reflexivity.
Qed.

(** The first row of a user on a poll, once it is moved, is again the
    first row of the user on the poll. *)
Lemma find_moved (u P O : Id) (d : Database) (existing : Vote) (l : list Vote) :
  (forall v, In v l -> vote_id v = vote_id existing -> v = existing) ->
  find (vote_on_poll u P d) l = Some existing ->
  vote_on_poll u P d (moved existing O) = true ->
  find (vote_on_poll u P d) (map (move_row existing O) l) = Some (moved existing O).
Proof.
  intros Hkey Hfind Hmoved. induction l as [| a l IH]; [discriminate Hfind |].
  cbn [find map] in *. destruct (vote_on_poll u P d a) eqn:Ha.
  - inversion Hfind; subst a.
    assert (E : move_row existing O existing = moved existing O)
      by (unfold move_row; rewrite String.eqb_refl; reflexivity).
    rewrite E, Hmoved. reflexivity.
  - assert (E : move_row existing O a = a).
    { unfold move_row. destruct (vote_id a =? vote_id existing) eqn:E; [| reflexivity].
      apply String.eqb_eq in E.
      rewrite (Hkey a (or_introl eq_refl) E) in Ha.
      apply find_some in Hfind as [_ Hex]. congruence. }
    rewrite E, Ha. apply IH; [| exact Hfind].
    intros v Hv. apply Hkey. right; exact Hv.
Qed.

(** After a vote answered with 200, the first row of the user on the
    poll, in table order, is the row of that answer. *)
Lemma voted_row_first (u P O : Id) (w w' : World) (message : string)
    (vote : VoteJson) :
  constraints_hold (db w) = true ->
  run (route_submitVote (Some u) P O) w =
    (Ok (mkResponse 200 (VoteBody message vote)), w') ->
  vj_pollOptionId vote = O
  /\ run (route_getMyVoteForPoll (Some u) P) w' =
     (Ok (Json 200
            (mkMyVoteJson true
               (Some (mkMyVote (vj_id vote) (O, vj_optionText vote)
                               (vj_createdAt vote))))), w').
Proof.
  intros Hc Hrun. unfold route_submitVote in Hrun. rewrite run_asyncHandler in Hrun.
  pose proof (submitVote_cases (Some u) P O w) as Hcase.
  destruct (run (submitVote (Some u) P O) w) as [[resp | e] w1] eqn:Hsub.
  2:{ inversion Hrun as [[Hresp Hw]].
      destruct (errorHandler_body e) as (kind & m & Hbody).
      rewrite Hresp in Hbody. discriminate Hbody. }
  inversion Hrun; subst resp w1; clear Hrun.
  pose proof Hc as Hc0. apply constraints_split in Hc0 as (_ & Hopk & Hvpk & _).
  remember (Ok (mkResponse 200 (VoteBody message vote)), w') as res eqn:Hres.
  destruct Hcase as [e | u0 row d' w2 Hu0 Hne Hon Hacc Hnone Hcr Hafter
                     | u0 ex row d' w2 Hu0 Hne Hon Hacc Hfind Hdiff Hupd Hafter];
    inversion Hres; subst; clear Hres; inversion Hu0; subst u0.
  - destruct (@created_db (db w) d' u P O (clock w) row Hc Hacc Hnone Hcr)
      as (_ & _ & _ & _ & Hopts & Hvotes & _).
    apply vote_create_ok in Hcr as (o & p & -> & Ho & _ & _ & _ & _).
    destruct Hafter as (Hdb & Hon' & _).
    split; [reflexivity |].
    rewrite run_getMyVoteForPoll by congruence.
    destruct (same_options_same_lookup (db w) (db w'))
      as [Hlook Hvote]; [congruence |].
    rewrite (@find_agree _ _ _ (votes (db w')) (Hvote u P)).
    rewrite Hdb, Hvotes. cbn [fst]. rewrite find_snoc, Hnone.
    rewrite (@votes_of_on_option u P O (db w) (mkVote (cuid (cuid_seq (db w))) (clock w) u O)
               Hopk Hacc eq_refl eq_refl).
    cbn [vote_pollOptionId]. rewrite <- Hdb, Hlook, Ho.
    pose proof (find_some _ _ Ho) as [_ HoO]. apply String.eqb_eq in HoO.
    cbn. rewrite HoO. reflexivity.
  - destruct (@moved_db (db w) d' u P O ex row Hc Hacc Hfind Hupd)
      as (_ & _ & _ & _ & Hopts & Hvotes & _).
    apply vote_update_ok in Hupd as (old & o & p & Hold & Hid & -> & Ho & _ & _ & _).
    assert (old = ex) as ->.
    { apply find_some in Hold as [Hold _]. apply find_some in Hfind as [Hin _].
      apply (@same_key_same_row _ vote_id (votes (db w))); assumption. }
    destruct Hafter as (Hdb & Hon' & _).
    split; [reflexivity |].
    rewrite run_getMyVoteForPoll by congruence.
    destruct (same_options_same_lookup (db w) (db w'))
      as [Hlook Hvote]; [congruence |].
    rewrite (@find_agree _ _ _ (votes (db w')) (Hvote u P)).
    rewrite Hdb, Hvotes.
    rewrite (find_moved u P O (db w) ex (votes (db w))).
    + cbn [moved vote_pollOptionId]. rewrite <- Hdb, Hlook, Ho.
      pose proof (find_some _ _ Ho) as [_ HoO]. apply String.eqb_eq in HoO.
      cbn. rewrite HoO. reflexivity.
    + intros v Hv E. apply find_some in Hfind as [Hin _].
      apply (@same_key_same_row _ vote_id (votes (db w))); assumption.
    + exact Hfind.
    + apply find_some in Hfind as [_ Hex].
      rewrite vote_on_poll_split in Hex. apply andb_true_iff in Hex as [Hu _].
      apply String.eqb_eq in Hu.
      apply (@votes_of_on_option u P O (db w) _ Hopk Hacc); [exact Hu | reflexivity].
Qed.

Lemma filter_of_find {A} (f : A -> bool) (l : list A) (a : A) :
  find f l = Some a -> length (filter f l) <= 1 -> filter f l = [a].
Proof.
  induction l as [| b l IH]; [discriminate |]. cbn [find filter].
  destruct (f b).
  - intros E Hlen. inversion E; subst b. cbn [length] in Hlen.
    destruct (filter f l); [reflexivity | cbn in Hlen; lia].
  - exact IH.
Qed.

Lemma voted_keeps_one (u P O : Id) (w w' : World) (r : Response) :
  constraints_hold (db w) = true ->
  at_most_one_vote_per_user_poll (db w) ->
  run (route_submitVote (Some u) P O) w = (Ok r, w') ->
  at_most_one_vote_per_user_poll (db w').
Proof.
  intros Hc Hone Hrun. unfold route_submitVote in Hrun. rewrite run_asyncHandler in Hrun.
  destruct (VoteCase_invariants (submitVote_cases (Some u) P O w) Hc) as (_ & Hkeep & _).
  destruct (run (submitVote (Some u) P O) w) as [[resp | e] w1];
    inversion Hrun; subst; exact (Hkeep Hone).
Qed.

(** X2. Round trip of a vote, in tables where no user holds two votes
    on one poll: after a vote was answered with 200, the user holds
    exactly one vote row on that poll, the row of that answer on the
    option just voted for, and [getMyVoteForPoll] reports that row, the
    only one its [findFirst] can return. *)
Theorem vote_then_my_vote (u P O : Id) (w w' : World) (message : string)
    (vote : VoteJson) :
  constraints_hold (db w) = true ->
  at_most_one_vote_per_user_poll (db w) ->
  run (route_submitVote (Some u) P O) w =
    (Ok (mkResponse 200 (VoteBody message vote)), w') ->
  vj_pollOptionId vote = O
  /\ (exists v,
        votes_of u P (db w') = [v]
        /\ vote_id v = vj_id vote /\ vote_pollOptionId v = O)
  /\ run (route_getMyVoteForPoll (Some u) P) w' =
     (Ok (Json 200
            (mkMyVoteJson true
               (Some (mkMyVote (vj_id vote) (O, vj_optionText vote)
                               (vj_createdAt vote))))), w').
Proof.
  intros Hc Hone Hrun.
  destruct (voted_row_first u P O w w' message vote Hc Hrun) as [HO Hmine].
  pose proof (voted_keeps_one u P O w w' _ Hc Hone Hrun) as Hone'.
  split; [exact HO |]. split; [| exact Hmine].
  assert (Hu : u <> "").
  { intro E. subst u. unfold route_submitVote in Hrun. rewrite run_asyncHandler in Hrun.
    cbn in Hrun. inversion Hrun. }
  assert (Hon : db_online w' = true).
  { destruct (db_online w') eqn:E; [reflexivity |]. exfalso.
    unfold route_getMyVoteForPoll in Hmine. rewrite run_asyncHandler_json in Hmine.
    unfold getMyVoteForPoll in Hmine. apply String.eqb_neq in Hu.
    cbn [falsy] in Hmine. rewrite Hu, run_await in Hmine.
    unfold prisma in Hmine. rewrite E in Hmine. cbn in Hmine. inversion Hmine. }
  rewrite (run_getMyVoteForPoll u P w' Hu Hon) in Hmine.
  destruct (find (vote_on_poll u P (db w')) (votes (db w'))) as [v |] eqn:Hfind;
    [| inversion Hmine].
  exists v. split; [apply filter_of_find; [exact Hfind | apply Hone'] |].
  pose proof (find_some _ _ Hfind) as [_ Hv].
  unfold vote_on_poll in Hv. apply andb_true_iff in Hv as [_ Hv].
  destruct (find_option (vote_pollOptionId v) (db w')) as [o |] eqn:Ho;
    [| discriminate Hv].
  inversion Hmine as [[Eid EO Etext Eat]]. split; [reflexivity |].
  apply find_some in Ho as [_ Ho]. apply String.eqb_eq in Ho. congruence.
Qed.

Example vote_then_my_vote_witness :
  run (route_getMyVoteForPoll (Some "u1") "p") demo_voted =
  (Ok (Json 200 (mkMyVoteJson true (Some (mkMyVote "c0" ("A", "tabs") 0)))),
   demo_voted).
Proof.
  apply (vote_then_my_vote "u1" "p" "A" demo demo_voted "Vote submitted successfully"
           (mkVoteJson "c0" "A" "tabs" "Tabs or spaces?" 0)).
  - reflexivity.
  - apply at_most_one_when_few. cbn. lia.
  - vm_compute. reflexivity.
Defined.

(** X3. [GET /polls/:pollId/my-vote] only reads.  It reports a vote
    exactly when the user holds a vote row on an option of that poll, and
    the vote it reports is such a row of that user; the poll itself is
    not looked up, so drafts and unknown polls are answered alike. *)
Theorem my_vote_is_own_row (u P : Id) (w : World) :
  u <> "" -> db_online w = true ->
  exists j,
    run (route_getMyVoteForPoll (Some u) P) w = (Ok (Json 200 j), w)
    /\ hasVoted j = negb (Nat.eqb (length (votes_of u P (db w))) 0)
    /\ match my_vote j with
       | Some mine =>
           hasVoted j = true
           /\ exists v o,
                In v (votes (db w)) /\ vote_userId v = u
                /\ find_option (vote_pollOptionId v) (db w) = Some o
                /\ option_pollId o = P
                /\ my_id mine = vote_id v
                /\ my_option mine = (option_id o, option_text o)
       | None => hasVoted j = false
       end.
Proof.
  intros Hu Hon. rewrite run_getMyVoteForPoll by assumption.
  unfold votes_of.
  destruct (find (vote_on_poll u P (db w)) (votes (db w))) as [v |] eqn:Hfind.
  - pose proof (find_some _ _ Hfind) as [Hin Hv].
    assert (Hlen : Nat.eqb (length (filter (vote_on_poll u P (db w)) (votes (db w)))) 0
                   = false).
    { assert (In v (filter (vote_on_poll u P (db w)) (votes (db w))))
        by (apply filter_In; split; assumption).
      destruct (filter _ _); [contradiction | reflexivity]. }
    rewrite vote_on_poll_split in Hv. apply andb_true_iff in Hv as [Hvu Hvp].
    apply String.eqb_eq in Hvu. unfold on_poll in Hvp.
    destruct (find_option (vote_pollOptionId v) (db w)) as [o |] eqn:Ho;
      [| discriminate Hvp].
    apply String.eqb_eq in Hvp.
    eexists. split; [reflexivity |]. cbn [hasVoted my_vote]. rewrite Hlen.
    split; [reflexivity |]. split; [reflexivity |].
    exists v, o. repeat split; assumption.
  - eexists. split; [reflexivity |]. cbn [hasVoted my_vote].
    rewrite (find_none_filter _ _ Hfind). repeat split.
Qed.

Example my_vote_is_own_row_witness :
  exists j,
    run (route_getMyVoteForPoll (Some "u2") "q") demo_voted = (Ok (Json 200 j), demo_voted)
    /\ hasVoted j = false.
Proof.
  destruct (my_vote_is_own_row "u2" "q" demo_voted) as (j & Hrun & Hhas & _);
    [discriminate | reflexivity |].
  exists j. split; [exact Hrun | exact Hhas].
Defined.

(** * Storage constraints under interleaving *)

Section Keeps.
Variable Inv : World -> Prop.

Lemma keeps_bind {A B} (p : Prog A) (f : A -> Prog B) :
  keeps Inv p -> (forall a, keeps Inv (f a)) -> keeps Inv (bind p f).
Proof.
  intros Hp Hf. induction p as [a | e | X act k IH | X act k IH]; cbn in *;
    auto; destruct Hp as [Hact Hk]; split; auto.
Qed.

Lemma keeps_try_catch {A} (p : Prog A) (h : Error -> Prog A) :
  keeps Inv p -> (forall e, keeps Inv (h e)) -> keeps Inv (try_catch p h).
Proof.
  intros Hp Hh. induction p as [a | e | X act k IH | X act k IH]; cbn in *;
    auto; destruct Hp as [Hact Hk]; split; auto.
Qed.

Lemma keeps_await {X A} (act : Action X) (k : X -> Prog A) :
  (forall w, Inv w -> Inv (snd (act w))) -> (forall x, keeps Inv (k x)) ->
  keeps Inv (await act k).
Proof. intros Hact Hk. split; [exact Hact |]. intros [x | e]; cbn; auto. Qed.

Lemma keeps_call {X A} (act : Action X) (k : X -> Prog A) :
  (forall w, Inv w -> Inv (snd (act w))) -> (forall x, keeps Inv (k x)) ->
  keeps Inv (call act k).
Proof. intros Hact Hk. split; [exact Hact |]. intros [x | e]; cbn; auto. Qed.

Lemma settle_keeps {A} (p : Prog A) (w : World) :
  keeps Inv p -> Inv w -> keeps Inv (fst (settle p w)) /\ Inv (snd (settle p w)).
Proof.
  revert w. induction p as [a | e | X act k IH | X act k IH]; intros w Hp Hw;
    cbn [settle]; try (split; assumption).
  destruct Hp as [Hact Hk]. specialize (Hact w Hw).
  destruct (act w) as [r w']. apply IH; [apply Hk | exact Hact].
Qed.

Lemma resume_keeps {A} (p : Prog A) (w : World) :
  keeps Inv p -> Inv w -> keeps Inv (fst (resume p w)) /\ Inv (snd (resume p w)).
Proof.
  intros Hp Hw. destruct p as [a | e | X act k | X act k];
    try (apply settle_keeps; assumption).
  cbn [resume]. destruct Hp as [Hact Hk]. specialize (Hact w Hw).
  destruct (act w) as [r w']. apply settle_keeps; [apply Hk | exact Hact].
Qed.

Lemma resume_nth_keeps {A} (i : nat) (tasks : list (Prog A)) (w : World) :
  Forall (keeps Inv) tasks -> Inv w ->
  Forall (keeps Inv) (fst (resume_nth i tasks w)) /\ Inv (snd (resume_nth i tasks w)).
Proof.
  revert i. induction tasks as [| p rest IH]; intros i Ht Hw;
    [destruct i; cbn; split; assumption |].
  inversion Ht as [| ? ? Hp Hrest]; subst.
  destruct i as [| j]; cbn [resume_nth].
  - destruct (resume_keeps p w Hp Hw) as [Hp' Hw'].
    destruct (resume p w) as [p' w']. cbn in *. split; [constructor |]; assumption.
  - destruct (IH j Hrest Hw) as [Hrest' Hw'].
    destruct (resume_nth j rest w) as [rest' w']. cbn in *.
    split; [constructor |]; assumption.
Qed.

Lemma interleave_keeps {A} (schedule : list nat) (tasks : list (Prog A)) (w : World) :
  Forall (keeps Inv) tasks -> Inv w ->
  Forall (keeps Inv) (fst (interleave schedule tasks w))
  /\ Inv (snd (interleave schedule tasks w)).
Proof.
  revert tasks w. induction schedule as [| i s IH]; intros tasks w Ht Hw;
    [cbn; split; assumption |].
  cbn [interleave]. destruct (resume_nth_keeps i tasks w Ht Hw) as [Ht' Hw'].
  destruct (resume_nth i tasks w) as [tasks' w']. apply IH; assumption.
Qed.

Lemma run_keeps {A} (p : Prog A) (w : World) :
  keeps Inv p -> Inv w -> Inv (snd (run p w)).
Proof.
  revert w. induction p as [a | e | X act k IH | X act k IH]; intros w Hp Hw;
    cbn [run]; try exact Hw;
    destruct Hp as [Hact Hk]; specialize (Hact w Hw);
    destruct (act w) as [r w']; (apply IH; [apply Hk | exact Hact]).
Qed.

Lemma serve_events_keeps (events : list Event) (w : World) :
  Forall (fun e => keeps Inv (handle_event e)) events -> Inv w ->
  Inv (serve_events events w).
Proof.
  revert w. induction events as [| e rest IH]; intros w He Hw; [exact Hw |].
  inversion He as [| ? ? Hhead Hrest]; subst.
  cbn [serve_events fold_left]. apply IH; [exact Hrest |].
  apply run_keeps; assumption.
Qed.

Lemma keeps_asyncHandler (fn : Prog Response) :
  keeps Inv fn -> keeps Inv (asyncHandler fn).
Proof. intro H. unfold asyncHandler. apply keeps_try_catch; [exact H | intro; exact Logic.I]. Qed.

Lemma keeps_asyncHandler_json {X} (fn : Prog (nat * X)) :
  keeps Inv fn -> keeps Inv (asyncHandler_json fn).
Proof.
  intro H. unfold asyncHandler_json.
  apply keeps_try_catch; [| intro; exact Logic.I].
  apply keeps_bind; [exact H | intro; exact Logic.I].
Qed.

Lemma keeps_discard {A} (p : Prog A) : keeps Inv p -> keeps Inv (discard p).
Proof. intro H. unfold discard. apply keeps_bind; [exact H | intro; exact Logic.I]. Qed.

Lemma keeps_guarded (check : Prog (option Response)) (handler : Prog Response) :
  keeps Inv check -> keeps Inv handler -> keeps Inv (guarded check handler).
Proof.
  intros Hc Hh. unfold guarded. apply keeps_bind; [exact Hc |].
  intros [response |]; [exact Logic.I | exact Hh].
Qed.

Lemma keeps_pure {X} (act : Action X) :
  (forall w, snd (act w) = w) -> forall w, Inv w -> Inv (snd (act w)).
Proof. intros H w Hw. rewrite H. exact Hw. Qed.

End Keeps.

(** ** The four writes keep the constraints *)

Lemma vote_create_sound (now : nat) (u O : Id) (d : Database) :
  constraints_hold d = true ->
  constraints_hold (snd (vote_create now u O d)) = true.
Proof.
  intro Hc. destruct (vote_create now u O d) as [[row | e] d'] eqn:Hcr.
  - apply vote_create_ok in Hcr as (o & p & _ & _ & _ & Hid & Hkey & ->).
    apply constraints_split in Hc as (Hp & Ho & Hv & Hk).
    apply constraints_split. unfold polls_pkey, poll_options_pkey, votes_pkey,
      votes_user_id_poll_option_id_key in *; cbn [snd set_votes polls poll_options votes].
    repeat split; try assumption.
    + apply (distinct_ids_snoc vote_id); assumption.
    + apply (index_snoc (votes d)); assumption.
  - apply vote_create_fails in Hcr. subst d'. exact Hc.
Qed.

Lemma vote_update_sound (id O : Id) (d : Database) :
  constraints_hold d = true ->
  constraints_hold (snd (vote_update id O d)) = true.
Proof.
  intro Hc. destruct (vote_update id O d) as [[row | e] d'] eqn:Hupd.
  - apply vote_update_ok in Hupd as (old & o & p & Hold & Hid & _ & _ & _ & Hfree & ->).
    apply constraints_split in Hc as (Hp & Ho & Hv & Hk).
    apply constraints_split. unfold polls_pkey, poll_options_pkey, votes_pkey,
      votes_user_id_poll_option_id_key in *; cbn [snd set_votes polls poll_options votes].
    repeat split; try assumption.
    + rewrite move_keeps_ids. exact Hv.
    + apply index_move; try assumption.
      intros v Hv' Hne E.
      assert (existsb (fun v => negb (vote_id v =? id)
                                && (vote_userId v =? vote_userId old)
                                && (vote_pollOptionId v =? O)) (votes d) = true);
        [| congruence].
      apply existsb_exists. exists v. split; [exact Hv' |].
      unfold vote_key in E. inversion E as [[E1 E2]].
      rewrite Hid in Hne. apply String.eqb_neq in Hne.
      rewrite Hne, !String.eqb_refl. reflexivity.
  - apply vote_update_fails in Hupd. subst d'. exact Hc.
Qed.

Lemma poll_update_sound (id : Id) (q : option string) (b : option bool) (d : Database) :
  constraints_hold d = true ->
  constraints_hold (snd (poll_update id q b d)) = true.
Proof.
  intro Hc. destruct (poll_update id q b d) as [r d'] eqn:Hupd.
  apply poll_update_effect in Hupd as [Honly _].
  apply polls_only_invariants in Honly as (Hc' & _). cbn [snd]. congruence.
Qed.

Lemma poll_create_sound (q : string) (b : bool) (u : Id) (d : Database) :
  constraints_hold d = true ->
  constraints_hold (snd (poll_create q b u d)) = true.
Proof.
  intro Hc. unfold poll_create. cbn [poll_id].
  destruct (existsb _ (polls d)) eqn:Hid; [exact Hc |].
  apply constraints_split in Hc as (Hp & Ho & Hv & Hk).
  apply constraints_split. unfold polls_pkey, poll_options_pkey, votes_pkey,
    votes_user_id_poll_option_id_key in *; cbn [snd polls poll_options votes].
  repeat split; try assumption.
  apply (distinct_ids_snoc poll_id); assumption.
Qed.

Lemma pollOption_createMany_sound (P : Id) (texts : list string) (d : Database) :
  constraints_hold d = true ->
  constraints_hold (snd (pollOption_createMany P texts d)) = true.
Proof.
  revert d. induction texts as [| t rest IH]; intros d Hc; [exact Hc |].
  cbn [pollOption_createMany option_id].
  destruct (existsb _ (poll_options d)) eqn:Hid; [exact Hc |].
  match goal with |- context [pollOption_createMany P rest ?d1] =>
    specialize (IH d1); destruct (pollOption_createMany P rest d1) as [[n | e] d2]
  end; [| exact Hc].
  apply IH.
  apply constraints_split in Hc as (Hp & Ho & Hv & Hk).
  apply constraints_split. unfold polls_pkey, poll_options_pkey, votes_pkey,
    votes_user_id_poll_option_id_key in *; cbn [snd polls poll_options votes].
  repeat split; try assumption.
  apply (distinct_ids_snoc option_id); assumption.
Qed.

Lemma poll_findUnique_creator_reads (P : Id) (d : Database) :
  snd (poll_findUnique_creator P d) = d.
Proof.
  unfold poll_findUnique_creator.
  destruct (find_poll P d) as [p |]; [| reflexivity].
  destruct (poll_include p d); reflexivity.
Qed.

Lemma create_poll_sound (q : string) (b : bool) (u : Id) (texts : list string)
    (d : Database) :
  constraints_hold d = true ->
  constraints_hold
    (snd (transaction (create_poll_with_options q b u texts) d)) = true.
Proof.
  intro Hc. unfold transaction, create_poll_with_options, and_then.
  pose proof (poll_create_sound q b u d Hc) as H1.
  destruct (poll_create q b u d) as [[p | e] d1]; [| exact Hc].
  pose proof (pollOption_createMany_sound (poll_id p) texts d1 H1) as H2.
  destruct (pollOption_createMany (poll_id p) texts d1) as [[n | e] d2]; [| exact Hc].
  pose proof (poll_findUnique_creator_reads (poll_id p) d2) as H3.
  destruct (poll_findUnique_creator (poll_id p) d2) as [[r | e] d3];
    cbn [snd] in *; [subst d3; exact H2 | exact Hc].
Qed.

Lemma emit_db (c : Channel) (ev : string) (p : Payload) (w : World) :
  db (snd (emit c ev p w)) = db w.
Proof. unfold emit. destruct (io_faulty w); reflexivity. Qed.

Lemma socket_join_db (sid : SocketId) (room : string) (w : World) :
  db (snd (socket_join sid room w)) = db w.
Proof. unfold socket_join. destruct (is_member room sid w); reflexivity. Qed.

Lemma currentPollRooms_add_db (sid : SocketId) (room : string) (w : World) :
  db (snd (currentPollRooms_add sid room w)) = db w.
Proof. unfold currentPollRooms_add. destruct (existsb _ _); reflexivity. Qed.

(** ** Handlers keep what their actions keep *)

Section Handlers.
Variable Inv : World -> Prop.
Variable may_join : SocketId -> string -> Prop.
Hypothesis reads_keep :
  forall X (q : Database -> Outcome X * Database),
    (forall d, snd (q d) = d) -> forall w, Inv w -> Inv (snd (prisma q w)).
Hypothesis vote_create_keeps :
  forall u O w, Inv w -> Inv (snd (prisma (vote_create (clock w) u O) w)).
Hypothesis vote_update_keeps :
  forall id O w, Inv w -> Inv (snd (prisma (vote_update id O) w)).
Hypothesis poll_update_keeps :
  forall id q b w, Inv w -> Inv (snd (prisma (poll_update id q b) w)).
Hypothesis create_poll_keeps :
  forall q b u texts w,
    Inv w -> Inv (snd (prisma (transaction (create_poll_with_options q b u texts)) w)).
Hypothesis emit_keeps :
  forall c ev p w, Inv w -> Inv (snd (emit c ev p w)).
Hypothesis console_log_keeps :
  forall line w, Inv w -> Inv (snd (console_log line w)).
Hypothesis socket_join_keeps :
  forall sid room w, may_join sid room -> Inv w -> Inv (snd (socket_join sid room w)).
Hypothesis currentPollRooms_add_keeps :
  forall sid room w,
    may_join sid room -> Inv w -> Inv (snd (currentPollRooms_add sid room w)).
Hypothesis socket_leave_keeps :
  forall sid room w, Inv w -> Inv (snd (socket_leave sid room w)).
Hypothesis currentPollRooms_delete_keeps :
  forall sid room w, Inv w -> Inv (snd (currentPollRooms_delete sid room w)).

Ltac keeps_action :=
  first
    [ apply emit_keeps
    | apply console_log_keeps
    | apply socket_leave_keeps
    | apply currentPollRooms_delete_keeps
    | apply vote_update_keeps
    | apply poll_update_keeps
    | apply create_poll_keeps
    | apply keeps_pure; intro; reflexivity
    | apply reads_keep; intro;
      first [ reflexivity | apply poll_findUnique_creator_reads ] ].

Ltac keeps_step :=
  match goal with
  | |- keeps _ (Ret _) => exact Logic.I
  | |- keeps _ (Throw _) => exact Logic.I
  | |- keeps _ (await _ _) => apply keeps_await; [keeps_action | intro]
  | |- keeps _ (call _ _) => apply keeps_call; [keeps_action | intro]
  | |- keeps _ (bind _ _) => apply keeps_bind; [| intro]
  | |- keeps _ (try_catch _ _) => apply keeps_try_catch; [| intro]
  | |- keeps _ (match ?x with _ => _ end) => destruct x
  | |- keeps _ (let '(_, _) := ?x in _) => destruct x
  end.

Lemma keeps_broadcastVoteUpdate (P : Id) : keeps Inv (broadcastVoteUpdate P).
Proof. unfold broadcastVoteUpdate. repeat keeps_step. Qed.

Lemma keeps_broadcastNewPoll (P : Id) : keeps Inv (broadcastNewPoll P).
Proof. unfold broadcastNewPoll. repeat keeps_step. Qed.

Lemma keeps_submitVote (user : option Id) (P O : Id) :
  keeps Inv (submitVote user P O).
Proof.
  unfold submitVote. repeat keeps_step;
    try apply keeps_broadcastVoteUpdate.
  apply keeps_await; [| intro; repeat keeps_step].
  intros w Hw. apply vote_create_keeps. exact Hw.
Qed.

Lemma keeps_requirePollOwnership (user : option Id) (P : Id) :
  keeps Inv (requirePollOwnership user P).
Proof. unfold requirePollOwnership. repeat keeps_step. Qed.

Lemma keeps_updatePoll (id : Id) (q : option string) (b : option bool) :
  keeps Inv (updatePoll id q b).
Proof.
  unfold updatePoll. repeat keeps_step; apply keeps_broadcastNewPoll.
Qed.

Lemma keeps_publishPoll (id : Id) : keeps Inv (publishPoll id).
Proof.
  unfold publishPoll. repeat keeps_step; apply keeps_broadcastNewPoll.
Qed.

Lemma keeps_getPollResults (id : Id) : keeps Inv (getPollResults id).
Proof. unfold getPollResults. repeat keeps_step. Qed.

Lemma keeps_createPoll (user : option Id) (q : string) (texts : list string) (b : bool) :
  keeps Inv (createPoll user q texts b).
Proof.
  unfold createPoll. repeat keeps_step; apply keeps_broadcastNewPoll.
Qed.

Lemma keeps_leave_poll (sid : SocketId) (pollId : string) :
  keeps Inv (leave_poll sid pollId).
Proof. unfold leave_poll. repeat keeps_step. Qed.

Lemma keeps_join_poll (sid : SocketId) (arg : EventArg) :
  match arg with
  | ArgString pollId => may_join sid (room_of pollId)
  | ArgOther => True
  end ->
  keeps Inv (join_poll sid arg).
Proof.
  intro Hmay. unfold join_poll. apply keeps_try_catch; [| intro; repeat keeps_step].
  destruct arg as [pollId |]; [| repeat keeps_step].
  destruct (pollId =? ""); [repeat keeps_step |].
  apply keeps_await; [keeps_action | intros [[p options] |]]; [| repeat keeps_step].
  apply keeps_await; [intros w Hw; apply socket_join_keeps; assumption | intro].
  apply keeps_call; [intros w Hw; apply currentPollRooms_add_keeps; assumption | intro].
  repeat keeps_step.
Qed.

Lemma keeps_handle (r : Request) :
  joins_only may_join (Served r) -> keeps Inv (handle r).
Proof.
  intro Hmay.
  destruct r as [user P O | u id q b | u id | id | sid arg]; cbn [handle].
  - apply keeps_discard, keeps_asyncHandler, keeps_submitVote.
  - apply keeps_discard, keeps_guarded;
      [apply keeps_requirePollOwnership | apply keeps_asyncHandler, keeps_updatePoll].
  - apply keeps_discard, keeps_guarded;
      [apply keeps_requirePollOwnership | apply keeps_asyncHandler, keeps_publishPoll].
  - apply keeps_discard, keeps_asyncHandler, keeps_getPollResults.
  - apply keeps_join_poll. exact Hmay.
Qed.

Lemma keeps_handle_event (e : Event) :
  joins_only may_join e -> keeps Inv (handle_event e).
Proof.
  intro Hmay. destruct e as [r | user q texts b | sid pollId]; cbn [handle_event].
  - apply keeps_handle. exact Hmay.
  - apply keeps_discard, keeps_asyncHandler_json, keeps_createPoll.
  - apply keeps_leave_poll.
Qed.

End Handlers.


(** ** Handlers keep what the four writes keep *)

Section Invariant.
Variable J : Database -> Prop.
Hypothesis vote_create_keeps :
  forall now u O d, J d -> J (snd (vote_create now u O d)).
Hypothesis vote_update_keeps :
  forall id O d, J d -> J (snd (vote_update id O d)).
Hypothesis poll_update_keeps :
  forall id q b d, J d -> J (snd (poll_update id q b d)).
Hypothesis create_poll_keeps :
  forall q b u texts d,
    J d -> J (snd (transaction (create_poll_with_options q b u texts) d)).

Lemma prisma_keeps {X} (q : Database -> Outcome X * Database) :
  (forall d, J d -> J (snd (q d))) ->
  forall w, in_db J w -> in_db J (snd (prisma q w)).
Proof.
  intros Hq w Hw. unfold prisma. destruct (db_online w); [| exact Hw].
  specialize (Hq (db w) Hw). destruct (q (db w)) as [r d']. exact Hq.
Qed.

Lemma same_db_keeps {X} (act : Action X) :
  (forall w, db (snd (act w)) = db w) ->
  forall w, in_db J w -> in_db J (snd (act w)).
Proof. intros H w Hw. unfold in_db. rewrite H. exact Hw. Qed.

Lemma in_db_handle_event (e : Event) : keeps (in_db J) (handle_event e).
Proof.
  apply (keeps_handle_event (in_db J) (fun _ _ => True)).
  - intros X q Hq. apply prisma_keeps. intros d Hd. rewrite Hq. exact Hd.
  - intros u O w. apply prisma_keeps. apply vote_create_keeps.
  - intros id O. apply prisma_keeps. apply vote_update_keeps.
  - intros id q b. apply prisma_keeps. apply poll_update_keeps.
  - intros q b u texts. apply prisma_keeps. apply create_poll_keeps.
  - intros c ev p. apply same_db_keeps. intro. apply emit_db.
  - intros line. apply same_db_keeps. reflexivity.
  - intros sid room w _. apply same_db_keeps. intro. apply socket_join_db.
  - intros sid room w _. apply same_db_keeps. intro. apply currentPollRooms_add_db.
  - intros sid room. apply same_db_keeps. reflexivity.
  - intros sid room. apply same_db_keeps. reflexivity.
  - destruct e as [[user P O | u id q b | u id | id | sid [pollId |]] | |];
      exact Logic.I.
Qed.

Lemma interleaved_events_keep (events : list Event) (schedule : list nat) (w : World) :
  J (db w) -> J (db (snd (interleave schedule (map handle_event events) w))).
Proof.
  intro Hw.
  destruct (interleave_keeps (in_db J) schedule (map handle_event events) w) as [_ H].
  - apply Forall_forall. intros p Hp. apply in_map_iff in Hp as (e & <- & _).
    apply in_db_handle_event.
  - exact Hw.
  - exact H.
Qed.

End Invariant.

(** X4. Whatever the order in which the awaited operations of any
    number of requests and socket events complete, the primary keys and
    the unique index on (user, option) hold afterwards: no interleaving
    stores two vote rows with the same user and option. *)
Theorem constraints_hold_under_interleaving (events : list Event)
    (schedule : list nat) (w : World) :
  constraints_hold (db w) = true ->
  constraints_hold (db (snd (interleave schedule (map handle_event events) w))) = true
  /\ votes_user_id_poll_option_id_key
       (db (snd (interleave schedule (map handle_event events) w))) = true.
Proof.
  intro Hc.
  assert (H : constraints_hold
                (db (snd (interleave schedule (map handle_event events) w))) = true).
  { apply (interleaved_events_keep (fun d => constraints_hold d = true));
      [ intros; apply vote_create_sound | intros; apply vote_update_sound
      | intros; apply poll_update_sound | intros; apply create_poll_sound
      | ]; assumption. }
  split; [exact H |]. apply constraints_split in H. tauto.
Qed.

(** Two requests of one user for the same option, interleaved: the
    index refuses the second row. *)
Example constraints_hold_under_interleaving_witness :
  constraints_hold
    (db (snd (interleave [0; 1; 0; 1; 0; 1; 0; 1]
                (map handle_event [Served (SubmitVote (Some "u1") "p" "A");
                                   Served (SubmitVote (Some "u1") "p" "A")])
                demo))) = true
  /\ votes_user_id_poll_option_id_key
       (db (snd (interleave [0; 1; 0; 1; 0; 1; 0; 1]
                   (map handle_event [Served (SubmitVote (Some "u1") "p" "A");
                                      Served (SubmitVote (Some "u1") "p" "A")])
                   demo))) = true.
Proof.
  apply (constraints_hold_under_interleaving
           [Served (SubmitVote (Some "u1") "p" "A");
            Served (SubmitVote (Some "u1") "p" "A")]
           [0; 1; 0; 1; 0; 1; 0; 1] demo).
  reflexivity.
Defined.

(** The same race, in full: one request is answered 200, the other 409
    by the index, and one row is stored. *)
Example same_option_race :
  map result
      (fst (interleave [0; 1; 0; 1; 0; 1; 0; 1]
              [route_submitVote (Some "u1") "p" "A";
               route_submitVote (Some "u1") "p" "A"] demo))
  = [Some (Ok (mkResponse 200 (VoteBody "Vote submitted successfully"
                 (mkVoteJson "c0" "A" "tabs" "Tabs or spaces?" 0))));
     Some (Ok (mkResponse 409 (ErrorBody "Client Error" "Unique constraint violation")))]
  /\ votes (db (snd (interleave [0; 1; 0; 1; 0; 1; 0; 1]
                       [route_submitVote (Some "u1") "p" "A";
                        route_submitVote (Some "u1") "p" "A"] demo)))
     = [mkVote "c0" 0 "u1" "A"].
Proof. split; vm_compute; reflexivity. Qed.

(** * Poll creation *)

Lemma cuid_injective (n m : nat) : cuid n = cuid m -> n = m.
Proof.
  unfold cuid. cbn. intro H. inversion H as [E].
  assert (E' : NilEmpty.uint_of_string (NilEmpty.string_of_uint (Nat.to_uint n))
               = NilEmpty.uint_of_string (NilEmpty.string_of_uint (Nat.to_uint m)))
    by (rewrite E; reflexivity).
  rewrite !NilEmpty.usu in E'. inversion E' as [E''].
  rewrite <- (Unsigned.of_to n), <- (Unsigned.of_to m), E''. reflexivity.
Qed.

Lemma existsb_snoc {A} (f : A -> bool) (l : list A) (a : A) :
  existsb f (l ++ [a]) = existsb f l || f a.
Proof. rewrite existsb_app. cbn. rewrite orb_false_r. reflexivity. Qed.

Lemma new_options_length (seq : nat) (P : Id) (texts : list string) :
  length (new_options seq P texts) = length texts.
Proof.
  revert seq. induction texts as [| t r IH]; intro seq; cbn; [reflexivity |].
  rewrite IH. reflexivity.
Qed.

Lemma new_options_texts (seq : nat) (P : Id) (texts : list string) :
  map option_text (new_options seq P texts) = texts.
Proof.
  revert seq. induction texts as [| t r IH]; intro seq; cbn; [reflexivity |].
  rewrite IH. reflexivity.
Qed.

Lemma new_options_poll (seq : nat) (P : Id) (texts : list string) (o : PollOption) :
  In o (new_options seq P texts) ->
  option_pollId o = P /\ exists n, seq <= n < seq + length texts /\ option_id o = cuid n.
Proof.
  revert seq. induction texts as [| t r IH]; intro seq; cbn; [intros [] |].
  intros [<- | H].
  - split; [reflexivity |]. exists seq. split; [lia | reflexivity].
  - apply IH in H as [HP (n & Hn & Hid)]. split; [exact HP |].
    exists n. split; [lia | exact Hid].
Qed.

(** What [createMany] does when it succeeds, and that it changes
    nothing when it fails. *)
Lemma pollOption_createMany_ok (P : Id) (texts : list string) (d d' : Database)
    (n : nat) :
  pollOption_createMany P texts d = (Ok n, d') ->
  n = length texts
  /\ d' = mkDatabase (users d) (polls d)
                     (poll_options d ++ new_options (cuid_seq d) P texts)
                     (votes d) (cuid_seq d + length texts).
Proof.
  revert d d' n. induction texts as [| t r IH]; intros d d' n.
  - cbn. intro H; inversion H; subst. split; [reflexivity |].
    rewrite app_nil_r, Nat.add_0_r. destruct d'; reflexivity.
  - cbn [pollOption_createMany option_id].
    destruct (existsb _ (poll_options d)); [discriminate |].
    match goal with |- context [pollOption_createMany P r ?d1] =>
      specialize (IH d1); destruct (pollOption_createMany P r d1) as [[k | e] d2]
    end; [| discriminate].
    intro H; inversion H; subst. destruct (IH d' k eq_refl) as [-> ->].
    split; [reflexivity |]. cbn [users polls poll_options votes cuid_seq new_options length].
    rewrite <- app_assoc. cbn [app]. f_equal. lia.
Qed.

Lemma pollOption_createMany_fails (P : Id) (texts : list string) (d d' : Database)
    (e : Error) :
  pollOption_createMany P texts d = (Thrown e, d') -> d' = d.
Proof.
  destruct texts as [| t r]; [discriminate |].
  cbn [pollOption_createMany option_id].
  destruct (existsb _ (poll_options d)); [intro H; inversion H; reflexivity |].
  destruct (pollOption_createMany P r _) as [[k | e'] d2];
    intro H; inversion H; reflexivity.
Qed.

Lemma pollOption_createMany_succeeds (P : Id) (texts : list string) (d : Database) :
  (forall n, cuid_seq d <= n ->
             existsb (fun x => option_id x =? cuid n) (poll_options d) = false) ->
  exists d', pollOption_createMany P texts d = (Ok (length texts), d').
Proof.
  revert d. induction texts as [| t r IH]; intros d Hfree; [eexists; reflexivity |].
  cbn [pollOption_createMany option_id].
  rewrite (Hfree (cuid_seq d) (Nat.le_refl _)).
  match goal with |- context [pollOption_createMany P r ?d1] =>
    destruct (IH d1) as (d2 & ->)
  end.
  - cbn [cuid_seq poll_options]. intros n Hn. rewrite existsb_snoc, Hfree by lia.
    cbn [orb option_id]. apply String.eqb_neq. intro E. apply cuid_injective in E. lia.
  - eexists; reflexivity.
Qed.

(** The transaction of [createPoll], when it commits. *)
Lemma create_poll_ok (q : string) (b : bool) (u : Id) (texts : list string)
    (d d' : Database) (r : option (Poll * User * list PollOption)) :
  transaction (create_poll_with_options q b u texts) d = (Ok r, d') ->
  let p := mkPoll (cuid (cuid_seq d)) q b u in
  exists creator,
    r = Some (p, creator, options_of (poll_id p) d')
    /\ find_user u d = Some creator
    /\ find_poll (poll_id p) d = None
    /\ d' = mkDatabase (users d) (polls d ++ [p])
                       (poll_options d ++ new_options (S (cuid_seq d)) (poll_id p) texts)
                       (votes d) (S (cuid_seq d) + length texts).
Proof.
  unfold transaction, create_poll_with_options, and_then.
  destruct (poll_create q b u d) as [[p1 | e] d1] eqn:Hcreate;
    cbv beta iota; [| discriminate].
  destruct (pollOption_createMany (poll_id p1) texts d1) as [[n | e] d2] eqn:Hmany;
    cbv beta iota; [| discriminate].
  destruct (poll_findUnique_creator (poll_id p1) d2) as [[r' | e] d3] eqn:Hfind;
    cbv beta iota; [| discriminate].
  intro H; inversion H; subst r' d3; clear H. cbv zeta.
  unfold poll_create in Hcreate. cbn [poll_id] in Hcreate.
  destruct (existsb _ (polls d)) eqn:Hfree; [discriminate |].
  inversion Hcreate; subst p1 d1; clear Hcreate.
  apply pollOption_createMany_ok in Hmany as [_ ->].
  cbn [users polls poll_options votes cuid_seq poll_id] in *.
  assert (Hnone : find_poll (cuid (cuid_seq d)) d = None).
  { unfold find_poll. rewrite find_existsb in Hfree.
    destruct (find _ (polls d)); [discriminate | reflexivity]. }
  match type of Hfind with poll_findUnique_creator _ ?d2 = _ =>
    pose proof (poll_findUnique_creator_reads (cuid (cuid_seq d)) d2) as Hsame
  end.
  rewrite Hfind in Hsame. cbn [snd] in Hsame. subst d'.
  unfold poll_findUnique_creator, find_poll in Hfind. cbn [polls] in Hfind.
  unfold find_poll in Hnone. rewrite find_snoc, Hnone in Hfind.
  cbn [poll_id] in Hfind. rewrite String.eqb_refl in Hfind.
  unfold poll_include in Hfind. cbn [creatorId poll_id] in Hfind.
  unfold find_user in *. cbn [users] in Hfind.
  destruct (find (fun x => user_id x =? u) (users d)) as [creator |] eqn:Hu;
    [| discriminate].
  inversion Hfind; subst r; clear Hfind. exists creator.
  repeat split; try reflexivity. exact Hnone.
Qed.

Lemma create_poll_fails (q : string) (b : bool) (u : Id) (texts : list string)
    (d d' : Database) (e : Error) :
  transaction (create_poll_with_options q b u texts) d = (Thrown e, d') -> d' = d.
Proof.
  unfold transaction. destruct (create_poll_with_options q b u texts d) as [[r | e'] d1];
    intro H; inversion H; reflexivity.
Qed.

(** The poll created in the transaction is found in it. *)
Lemma created_poll_is_found (q : string) (b : bool) (u : Id) (texts : list string)
    (d d' : Database) :
  transaction (create_poll_with_options q b u texts) d <> (Ok None, d').
Proof.
  intro H. apply create_poll_ok in H as (creator & H & _). discriminate H.
Qed.

(** What [broadcastNewPoll] sends. *)
Lemma run_broadcastNewPoll_outbox (P : Id) (w : World) :
  exists w',
    run (broadcastNewPoll P) w = (Ok tt, w')
    /\ db w' = db w /\ rooms w' = rooms w /\ currentPollRooms w' = currentPollRooms w
    /\ db_online w' = db_online w
    /\ outbox w' =
       if db_online w && negb (io_faulty w)
       then match find_poll P (db w) with
            | Some p =>
                match find_user (creatorId p) (db w) with
                | Some creator =>
                    if isPublished p
                    then (outbox w ++
                          [mkEmission ToEveryone "new-poll-published"
                             (NewPollPayload (poll_id p) (question p)
                                (user_name creator) (options_of (poll_id p) (db w))
                                (clock w))
                             (connected w)])%list
                    else outbox w
                | None => outbox w
                end
            | None => outbox w
            end
       else outbox w.
Proof.
  unfold broadcastNewPoll. rewrite run_try_catch, run_await.
  unfold prisma at 1, poll_findUnique_creator, poll_include.
  destruct w as [d on cio iu f cn rm cpr ob cs ck]; cbn.
  destruct on; cbn.
  - destruct (find_poll P d) as [p |]; cbn.
    + destruct (find_user (creatorId p) d) as [creator |]; cbn.
      * destruct (isPublished p); cbn.
        -- unfold emit; cbn. destruct f; cbn;
             (eexists; split; [reflexivity |]; cbn; repeat split; reflexivity).
        -- eexists; split; [reflexivity |]; cbn. destruct f; repeat split; reflexivity.
      * eexists; split; [reflexivity |]; cbn. destruct f; repeat split; reflexivity.
    + eexists; split; [reflexivity |]; cbn. destruct f; repeat split; reflexivity.
  - eexists; split; [reflexivity |]; cbn; repeat split; reflexivity.
Qed.

Lemma pollOption_createMany_errors (P : Id) (texts : list string) (d d' : Database)
    (e : Error) :
  pollOption_createMany P texts d = (Thrown e, d') ->
  e = PrismaClientKnownRequestError "P2002".
Proof.
  revert d d'. induction texts as [| t r IH]; intros d d'; [discriminate |].
  cbn [pollOption_createMany option_id].
  destruct (existsb _ (poll_options d)); [intro H; inversion H; reflexivity |].
  match goal with |- context [pollOption_createMany P r ?d1] =>
    specialize (IH d1); destruct (pollOption_createMany P r d1) as [[k | e'] d2]
  end; [discriminate |].
  intro H; inversion H; subst. apply (IH d2 eq_refl).
Qed.

Lemma create_poll_errors (q : string) (b : bool) (u : Id) (texts : list string)
    (d d' : Database) (e : Error) :
  transaction (create_poll_with_options q b u texts) d = (Thrown e, d') ->
  In (status (errorHandler e)) [409; 500].
Proof.
  unfold transaction, create_poll_with_options, and_then.
  destruct (poll_create q b u d) as [[p1 | e1] d1] eqn:Hcreate; cbv beta iota.
  - destruct (pollOption_createMany (poll_id p1) texts d1) as [[n | e2] d2] eqn:Hmany;
      cbv beta iota.
    + destruct (poll_findUnique_creator (poll_id p1) d2) as [[r | e3] d3] eqn:Hfind;
        cbv beta iota; [discriminate |].
      intro H; inversion H; subst. unfold poll_findUnique_creator in Hfind.
      destruct (find_poll (poll_id p1) d2); [| discriminate Hfind].
      destruct (poll_include _ d2); inversion Hfind. cbn; auto.
    + intro H; inversion H; subst.
      apply pollOption_createMany_errors in Hmany. subst. cbn; auto.
  - intro H; inversion H; subst. unfold poll_create in Hcreate.
    destruct (existsb _ (polls _)); inversion Hcreate. cbn; auto.
Qed.

(** The two outcomes of [createPoll]. *)
Lemma run_createPoll (user : option Id) (q : string) (texts : list string) (b : bool)
    (w : World) :
  (exists e, run (createPoll user q texts b) w = (Thrown e, w)
             /\ In (status (errorHandler e)) [401; 409; 500])
  \/ (exists u p creator created d' w',
         user = Some u /\ u <> "" /\ db_online w = true
         /\ transaction (create_poll_with_options q b u texts) (db w)
            = (Ok (Some (p, creator, created)), d')
         /\ run (createPoll user q texts b) w =
            (Ok (201, mkCreatedJson "Poll created successfully"
                        (Some (p, creator, created))), w')
         /\ db w' = d' /\ rooms w' = rooms w
         /\ currentPollRooms w' = currentPollRooms w
         /\ db_online w' = db_online w
         /\ outbox w' =
            if b && (controller_io w && io_utilities w) && negb (io_faulty w)
            then (outbox w ++
                  [mkEmission ToEveryone "new-poll-published"
                     (NewPollPayload (poll_id p) q (user_name creator) created (clock w))
                     (connected w)])%list
            else outbox w).
Proof.
  remember (run (createPoll user q texts b) w) as res eqn:Hres.
  unfold createPoll in Hres.
  destruct (falsy user) eqn:Hfalsy;
    [left; eexists; split; [exact Hres | cbn; auto] |].
  destruct user as [u |]; [| discriminate]. cbn in Hfalsy.
  assert (Hu : u <> "") by (apply String.eqb_neq; exact Hfalsy).
  rewrite run_await in Hres. unfold prisma at 1 in Hres.
  destruct (db_online w) eqn:Hon;
    [| left; eexists; split; [exact Hres | cbn; auto]].
  destruct (transaction (create_poll_with_options q b u texts) (db w))
    as [[r | e] d'] eqn:Htx.
  2:{ pose proof (create_poll_errors _ _ _ _ _ _ _ Htx) as He.
      apply create_poll_fails in Htx. subst d'. rewrite set_db_same in Hres.
      left; eexists; split; [exact Hres | cbn in He |- *; tauto]. }
  pose proof Htx as Hok. apply create_poll_ok in Hok as (creator & -> & Hcreator & Hnone & Hd').
  set (p := mkPoll (cuid (cuid_seq (db w))) q b u) in *.
  right. exists u, p, creator, (options_of (poll_id p) d'), d'.
  cbn [rethrow] in Hres. rewrite run_call in Hres.
  unfold io_ready in Hres; cbn [set_db controller_io io_utilities] in Hres.
  rewrite run_bind in Hres.
  assert (Hfound : find_poll (poll_id p) d' = Some p).
  { rewrite Hd'. unfold find_poll in *. cbn [polls]. rewrite find_snoc, Hnone.
    cbn [poll_id p]. rewrite String.eqb_refl. reflexivity. }
  assert (Hc' : find_user (creatorId p) d' = Some creator)
    by (rewrite Hd'; exact Hcreator).
  destruct (b && (controller_io w && io_utilities w)) eqn:Hready; cbn [andb].
  - destruct (run_broadcastNewPoll_outbox (poll_id p) (set_db d' w))
      as (w' & Hrun & Hdb & Hrooms & Hcpr & Honl & Hout).
    rewrite Hrun in Hres. cbn [run] in Hres. exists w'.
    cbn [set_db db rooms currentPollRooms db_online io_faulty outbox clock connected]
      in Hdb, Hrooms, Hcpr, Honl, Hout.
    rewrite Hon, Hfound, Hc' in Hout. cbn [andb] in Hout.
    apply andb_true_iff in Hready as [Hb _]. subst b. cbn [isPublished p] in Hout.
    repeat split; try assumption; congruence.
  - cbn [run] in Hres. exists (set_db d' w).
    repeat split; try assumption; try reflexivity; cbn; congruence.
Qed.

(** ** Fresh identifiers *)

Lemma existsb_false {A} (f : A -> bool) (l : list A) :
  existsb f l = false <-> (forall x, In x l -> f x = false).
Proof.
  induction l as [| a l IH]; cbn.
  - split; [intros _ x [] | reflexivity].
  - rewrite orb_false_iff, IH. split.
    + intros [Ha Hl] x [<- | Hx]; auto.
    + intro H. split; [apply H; left; reflexivity | intros x Hx; apply H; right; exact Hx].
Qed.

Lemma unused_iff (id : Id) (d : Database) :
  unused id d = true <->
  (forall p, In p (polls d) -> poll_id p <> id)
  /\ (forall o, In o (poll_options d) -> option_id o <> id /\ option_pollId o <> id)
  /\ (forall v, In v (votes d) -> vote_id v <> id /\ vote_pollOptionId v <> id).
Proof.
  unfold unused. rewrite !andb_true_iff, !negb_true_iff, !existsb_false. split.
  - intros [[Hp Ho] Hv]. repeat split.
    + intros p H. apply String.eqb_neq. apply Hp. exact H.
    + apply Ho in H. apply orb_false_iff in H as [H _]. apply String.eqb_neq. exact H.
    + apply Ho in H. apply orb_false_iff in H as [_ H]. apply String.eqb_neq. exact H.
    + apply Hv in H. apply orb_false_iff in H as [H _]. apply String.eqb_neq. exact H.
    + apply Hv in H. apply orb_false_iff in H as [_ H]. apply String.eqb_neq. exact H.
  - intros (Hp & Ho & Hv). repeat split.
    + intros p H. apply String.eqb_neq. apply Hp. exact H.
    + intros o H. apply Ho in H as [H1 H2]. apply orb_false_iff.
      split; apply String.eqb_neq; assumption.
    + intros v H. apply Hv in H as [H1 H2]. apply orb_false_iff.
      split; apply String.eqb_neq; assumption.
Qed.

Lemma filter_none {A} (f : A -> bool) (l : list A) :
  (forall x, In x l -> f x = false) -> filter f l = [].
Proof.
  induction l as [| a l IH]; intro H; cbn; [reflexivity |].
  rewrite (H a (or_introl eq_refl)). apply IH. intros x Hx. apply H. right; exact Hx.
Qed.

Lemma filter_all {A} (f : A -> bool) (l : list A) :
  (forall x, In x l -> f x = true) -> filter f l = l.
Proof.
  induction l as [| a l IH]; intro H; cbn; [reflexivity |].
  rewrite (H a (or_introl eq_refl)). f_equal. apply IH.
  intros x Hx. apply H. right; exact Hx.
Qed.

Lemma new_poll_options (q : string) (b : bool) (u : Id) (texts : list string)
    (d : Database) :
  generator_ahead d ->
  options_of (cuid (cuid_seq d)) (with_new_poll q b u texts d)
  = new_options (S (cuid_seq d)) (cuid (cuid_seq d)) texts.
Proof.
  intro Hg. unfold options_of, with_new_poll. cbn [poll_options].
  rewrite filter_app, filter_none, filter_all; [reflexivity | |].
  - intros o Ho. apply new_options_poll in Ho as [-> _]. apply String.eqb_refl.
  - intros o Ho. apply String.eqb_neq.
    specialize (Hg (cuid_seq d) (Nat.le_refl _)). apply unused_iff in Hg as (_ & Hg & _).
    apply Hg. exact Ho.
Qed.

Lemma create_poll_succeeds (q : string) (b : bool) (u : Id) (texts : list string)
    (d : Database) (creator : User) :
  generator_ahead d -> find_user u d = Some creator ->
  transaction (create_poll_with_options q b u texts) d
  = (Ok (Some (mkPoll (cuid (cuid_seq d)) q b u, creator,
               new_options (S (cuid_seq d)) (cuid (cuid_seq d)) texts)),
     with_new_poll q b u texts d).
Proof.
  intros Hg Hu.
  destruct (transaction (create_poll_with_options q b u texts) d) as [[r | e] d'] eqn:Htx.
  - apply create_poll_ok in Htx as (c & -> & Hc & _ & ->). cbn [poll_id].
    fold (with_new_poll q b u texts d). rewrite new_poll_options by exact Hg.
    congruence.
  - exfalso. unfold transaction, create_poll_with_options, and_then, poll_create in Htx.
    cbn [poll_id] in Htx.
    pose proof (Hg (cuid_seq d) (Nat.le_refl _)) as H0.
    apply unused_iff in H0 as (Hp & _ & _).
    assert (Hfree : existsb (fun x => poll_id x =? cuid (cuid_seq d)) (polls d) = false).
    { apply existsb_false. intros p Hin. apply String.eqb_neq. apply Hp. exact Hin. }
    rewrite Hfree in Htx.
    match type of Htx with context [pollOption_createMany ?P texts ?d1] =>
      destruct (pollOption_createMany_succeeds P texts d1) as (d2 & Hmany)
    end.
    { cbn [cuid_seq poll_options]. intros n Hn. apply existsb_false.
      intros o Ho. apply String.eqb_neq.
      specialize (Hg n ltac:(lia)). apply unused_iff in Hg as (_ & Hg & _).
      apply Hg. exact Ho. }
    rewrite Hmany in Htx. apply pollOption_createMany_ok in Hmany as [_ ->].
    cbn [users polls poll_options votes cuid_seq] in Htx.
    unfold poll_findUnique_creator, find_poll in Htx. cbn [polls] in Htx.
    rewrite find_snoc in Htx.
    assert (Hnone : find (fun p => poll_id p =? cuid (cuid_seq d)) (polls d) = None).
    { rewrite find_existsb in Hfree.
      destruct (find _ (polls d)); [discriminate Hfree | reflexivity]. }
    cbn [poll_id] in Htx. rewrite Hnone in Htx.
    cbn [poll_id] in Htx. rewrite String.eqb_refl in Htx.
    unfold poll_include in Htx. cbn [creatorId] in Htx.
    unfold find_user in *. cbn [users] in Htx. rewrite Hu in Htx. discriminate Htx.
Qed.

Lemma generator_stays_ahead (q : string) (b : bool) (u : Id) (texts : list string)
    (d : Database) :
  generator_ahead d -> generator_ahead (with_new_poll q b u texts d).
Proof.
  intros Hg n Hn. cbn [with_new_poll cuid_seq] in Hn.
  pose proof (Hg n ltac:(lia)) as H. apply unused_iff in H as (Hp & Ho & Hv).
  apply unused_iff. unfold with_new_poll. cbn [polls poll_options votes].
  repeat split.
  - intros p Hin. apply in_app_or in Hin as [Hin | [<- | []]]; [apply Hp; exact Hin |].
    cbn. intro E. apply cuid_injective in E. lia.
  - apply in_app_or in H as [H | H]; [apply Ho; exact H |].
    apply new_options_poll in H as [_ (m & Hm & ->)].
    intro E. apply cuid_injective in E. lia.
  - apply in_app_or in H as [H | H]; [apply Ho; exact H |].
    apply new_options_poll in H as [-> _].
    intro E. apply cuid_injective in E. lia.
  - apply Hv; exact H.
  - apply Hv; exact H.
Qed.

Lemma createPoll_fresh (u : Id) (creator : User) (q : string)
    (texts : list string) (b : bool) (w : World) :
  u <> "" -> db_online w = true ->
  find_user u (db w) = Some creator ->
  generator_ahead (db w) ->
  exists w',
    run (route_createPoll (Some u) q texts b) w =
    (Ok (Json 201
           (mkCreatedJson "Poll created successfully"
              (Some (mkPoll (cuid (cuid_seq (db w))) q b u, creator,
                     new_options (S (cuid_seq (db w))) (cuid (cuid_seq (db w))) texts)))),
     w')
    /\ db w' = with_new_poll q b u texts (db w)
    /\ db_online w' = true.
Proof.
  intros Hu Hon Hcreator Hg.
  unfold route_createPoll. rewrite run_asyncHandler_json.
  destruct (run_createPoll (Some u) q texts b w)
    as [(e & Hrun & _)
       | (u0 & p & c & os & d' & w' & Heq & _ & _ & Htx & Hrun & Hdb & _ & _ & Honl & _)].
  - exfalso. unfold createPoll in Hrun. apply String.eqb_neq in Hu.
    cbn [falsy] in Hrun. rewrite Hu in Hrun.
    rewrite run_await in Hrun. unfold prisma at 1 in Hrun. rewrite Hon in Hrun.
    rewrite (create_poll_succeeds q b u texts (db w) creator Hg Hcreator) in Hrun.
    cbn [rethrow] in Hrun. rewrite run_call in Hrun. cbn [io_ready] in Hrun.
    rewrite run_bind in Hrun.
    match type of Hrun with context [run (if ?c then _ else _) ?w1] =>
      destruct c;
      [destruct (run_broadcastNewPoll_outbox (cuid (cuid_seq (db w))) w1)
         as (w2 & Hb & _); cbn [poll_id] in Hrun; rewrite Hb in Hrun |]
    end; cbn in Hrun; discriminate Hrun.
  - inversion Heq; subst u0.
    rewrite (create_poll_succeeds q b u texts (db w) creator Hg Hcreator) in Htx.
    inversion Htx as [[Ep Ec Eos Ed]]; subst p c os. rewrite Hrun. exists w'.
    split; [reflexivity |]. split; congruence.
Qed.

Lemma new_poll_found (q : string) (b : bool) (u : Id) (texts : list string)
    (d : Database) :
  generator_ahead d ->
  find_poll (cuid (cuid_seq d)) d = None
  /\ find_poll (cuid (cuid_seq d)) (with_new_poll q b u texts d)
     = Some (mkPoll (cuid (cuid_seq d)) q b u).
Proof.
  intro Hg. pose proof (Hg (cuid_seq d) (Nat.le_refl _)) as H0.
  apply unused_iff in H0 as (Hp & _ & _).
  assert (Hnone : find_poll (cuid (cuid_seq d)) d = None).
  { unfold find_poll. destruct (find _ (polls d)) as [x |] eqn:Hx; [| reflexivity].
    apply find_some in Hx as [Hin Hx]. apply String.eqb_eq in Hx.
    exfalso. apply (Hp x Hin). exact Hx. }
  split; [exact Hnone |]. unfold find_poll in *. cbn [with_new_poll polls].
  rewrite find_snoc, Hnone. cbn [poll_id]. rewrite String.eqb_refl. reflexivity.
Qed.

(** X5. [POST /api/polls] by a known user, with a generator that is
    ahead of the ids in use: the answer is 201 with the poll, its
    creator and one option per text, in the order given; the tables gain
    that poll and those options and nothing else changes in them; the
    poll is a draft unless the request says otherwise. *)
Theorem createPoll_creates (u : Id) (creator : User) (q : string)
    (texts : list string) (b : bool) (w : World) :
  u <> "" -> db_online w = true ->
  find_user u (db w) = Some creator ->
  generator_ahead (db w) ->
  let id := cuid (cuid_seq (db w)) in
  let created := new_options (S (cuid_seq (db w))) id texts in
  exists w',
    run (route_createPoll (Some u) q texts b) w =
    (Ok (Json 201
           (mkCreatedJson "Poll created successfully"
              (Some (mkPoll id q b u, creator, created)))),
     w')
    /\ map option_text created = texts
    /\ Forall (fun o => option_pollId o = id) created
    /\ polls (db w') = (polls (db w) ++ [mkPoll id q b u])%list
    /\ poll_options (db w') = (poll_options (db w) ++ created)%list
    /\ votes (db w') = votes (db w) /\ users (db w') = users (db w)
    /\ find_poll id (db w) = None /\ find_poll id (db w') = Some (mkPoll id q b u)
    /\ generator_ahead (db w').
Proof.
  intros Hu Hon Hcreator Hg id created.
  destruct (createPoll_fresh u creator q texts b w Hu Hon Hcreator Hg)
    as (w' & Hrun & Hdb & _).
  exists w'. split; [exact Hrun |]. rewrite Hdb.
  split; [apply new_options_texts |].
  split; [apply Forall_forall; intros o Ho; apply new_options_poll in Ho; tauto |].
  destruct (new_poll_found q b u texts (db w) Hg) as [Hnone Hfound].
  repeat split; try reflexivity; try assumption.
  apply (generator_stays_ahead q b u texts (db w) Hg).
Qed.

Lemma demo_generator_ahead : generator_ahead (db demo).
Proof. intros n _. unfold unused, cuid. reflexivity. Qed.

Example createPoll_creates_witness :
  exists w',
    run (route_createPoll (Some "u2") "Cats or dogs?" ["cats"; "dogs"] false) demo =
    (Ok (Json 201
           (mkCreatedJson "Poll created successfully"
              (Some (mkPoll "c0" "Cats or dogs?" false "u2", mkUser "u2" "Bob",
                     [mkPollOption "c1" "cats" "c0"; mkPollOption "c2" "dogs" "c0"])))),
     w')
    /\ votes (db w') = votes (db demo)
    /\ find_poll "c0" (db w') = Some (mkPoll "c0" "Cats or dogs?" false "u2").
Proof.
  destruct (createPoll_creates "u2" (mkUser "u2" "Bob") "Cats or dogs?"
              ["cats"; "dogs"] false demo)
    as (w' & Hrun & _ & _ & _ & _ & Hvotes & _ & _ & Hfound & _);
    [discriminate | reflexivity | reflexivity | exact demo_generator_ahead |].
  exists w'. split; [exact Hrun |]. split; [exact Hvotes | exact Hfound].
Defined.

(** X6. [createPoll] writes in one transaction: unless the answer is
    201, the tables, the rooms and the packets sent are what they were
    (no poll is left without its options); with 201 the tables hold one
    more poll and one more option per text, and the same votes. *)
Theorem createPoll_all_or_nothing (user : option Id) (q : string)
    (texts : list string) (b : bool) (w : World) :
  exists r w',
    run (route_createPoll user q texts b) w = (Ok r, w')
    /\ (reply_status r <> 201 ->
        db w' = db w /\ rooms w' = rooms w /\ outbox w' = outbox w)
    /\ (reply_status r = 201 ->
        length (polls (db w')) = S (length (polls (db w)))
        /\ length (poll_options (db w')) = length (poll_options (db w)) + length texts
        /\ votes (db w') = votes (db w)).
Proof.
  unfold route_createPoll. rewrite run_asyncHandler_json.
  destruct (run_createPoll user q texts b w)
    as [(e & -> & He) | (u & p & c & os & d' & w' & _ & _ & _ & Htx & -> & Hdb & _)].
  - exists (Failed (errorHandler e)), w. split; [reflexivity |]. split; [auto |].
    cbn [reply_status]. intro Hs. rewrite Hs in He. cbn in He. exfalso.
    intuition discriminate.
  - exists (Json 201 (mkCreatedJson "Poll created successfully" (Some (p, c, os)))), w'.
    split; [reflexivity |]. split; [intro H; contradiction |]. intros _.
    apply create_poll_ok in Htx as (_ & _ & _ & _ & ->). rewrite Hdb.
    cbn [polls poll_options votes]. rewrite !length_app, new_options_length. cbn.
    repeat split; lia.
Qed.

(** X7. A created poll is announced exactly when the request publishes
    it: then, with the controller wired and the transport up, one
    [new-poll-published] packet goes to every connected socket; a draft
    is created without a packet. *)
Theorem createPoll_announces_published_only (user : option Id) (q : string)
    (texts : list string) (b : bool) (w w' : World) (r : Reply CreatedJson) :
  run (route_createPoll user q texts b) w = (Ok r, w') ->
  reply_status r = 201 ->
  exists p creator created,
    r = Json 201 (mkCreatedJson "Poll created successfully"
                    (Some (p, creator, created)))
    /\ isPublished p = b
    /\ outbox w' =
       if b && (controller_io w && io_utilities w) && negb (io_faulty w)
       then (outbox w ++
             [mkEmission ToEveryone "new-poll-published"
                (NewPollPayload (poll_id p) q (user_name creator) created (clock w))
                (connected w)])%list
       else outbox w.
Proof.
  unfold route_createPoll. rewrite run_asyncHandler_json.
  destruct (run_createPoll user q texts b w)
    as [(e & -> & He)
       | (u & p & c & os & d' & w1 & _ & _ & _ & Htx & -> & _ & _ & _ & _ & Hout)].
  - intros H Hs. inversion H; subst. cbn [reply_status] in Hs. rewrite Hs in He.
    cbn in He. exfalso. intuition discriminate.
  - intros H _. inversion H; subst. exists p, c, os.
    split; [reflexivity |]. split; [| exact Hout].
    apply create_poll_ok in Htx as (c' & E & _). inversion E. reflexivity.
Qed.

Example createPoll_announces_published_only_witness :
  exists p creator created,
    outbox (snd (run (route_createPoll (Some "u2") "Cats or dogs?" ["cats"; "dogs"] true)
                     demo))
    = [mkEmission ToEveryone "new-poll-published"
         (NewPollPayload (poll_id p) "Cats or dogs?" (user_name creator) created 0)
         ["s1"; "s2"]].
Proof.
  destruct (createPoll_announces_published_only (Some "u2") "Cats or dogs?"
              ["cats"; "dogs"] true demo
              (snd (run (route_createPoll (Some "u2") "Cats or dogs?" ["cats"; "dogs"] true)
                        demo))
              (Json 201
                 (mkCreatedJson "Poll created successfully"
                    (Some (mkPoll "c0" "Cats or dogs?" true "u2", mkUser "u2" "Bob",
                           [mkPollOption "c1" "cats" "c0";
                            mkPollOption "c2" "dogs" "c0"])))))
    as (p & creator & created & _ & _ & Hout);
    [vm_compute; reflexivity | reflexivity |].
  exists p, creator, created. exact Hout.
Defined.

(** ** A new poll has no votes *)

Lemma sum_votes_zero (l : list PollOption) :
  sum_votes (map (fun o => (o, 0)) l) = 0.
Proof.
  rewrite sum_votes_spec, map_map. cbn [snd]. apply list_sum_zero.
Qed.

(** The results of a poll just created, with the options read in table
    order. *)
Lemma new_poll_results (u : Id) (creator : User) (q : string)
    (texts : list string) (b : bool) (w : World) :
  u <> "" -> db_online w = true ->
  find_user u (db w) = Some creator ->
  generator_ahead (db w) ->
  let id := cuid (cuid_seq (db w)) in
  let w' := snd (run (route_createPoll (Some u) q texts b) w) in
  run (route_getPollResults id) w' =
  (Ok (mkResponse 200
         (ResultsBody
            (mkResults id q 0
               (map (fun o => mkOptionResult (option_id o) (option_text o) 0 "0")
                    (new_options (S (cuid_seq (db w))) id texts))))), w').
Proof.
  intros Hu Hon Hcreator Hg id w'. subst id w'.
  destruct (createPoll_fresh u creator q texts b w Hu Hon Hcreator Hg)
    as (w1 & Hrun & Hdb & Honl).
  rewrite Hrun. cbn [snd].
  destruct (new_poll_found q b u texts (db w) Hg) as [_ Hfound].
  unfold route_getPollResults. rewrite run_asyncHandler.
  unfold getPollResults. rewrite run_await. unfold prisma at 1. rewrite Honl.
  unfold poll_findUnique_counts. rewrite find_any_poll, set_db_same, Hdb, Hfound.
  rewrite new_poll_options by exact Hg.
  assert (Hcounts :
            map (fun o => (o, count_votes (option_id o) (with_new_poll q b u texts (db w))))
                (new_options (S (cuid_seq (db w))) (cuid (cuid_seq (db w))) texts)
            = map (fun o => (o, 0))
                  (new_options (S (cuid_seq (db w))) (cuid (cuid_seq (db w))) texts)).
  { apply map_ext_in. intros o Ho. f_equal. unfold count_votes.
    cbn [with_new_poll votes]. rewrite filter_none; [reflexivity |].
    intros v Hv. apply String.eqb_neq.
    apply new_options_poll in Ho as [_ (m & Hm & ->)].
    specialize (Hg m ltac:(lia)). apply unused_iff in Hg as (_ & _ & Hg).
    apply Hg. exact Hv. }
  rewrite Hcounts. cbv beta iota. cbn [run poll_id question].
  rewrite sum_votes_zero, map_map. reflexivity.
Qed.

(** X8. Creation followed by the results: the results of a poll just
    created have a total of 0 and list one option per text of the
    request, in whatever order the query returns them, each with no
    vote and the percentage "0". *)
Theorem new_poll_has_no_votes (u : Id) (creator : User) (q : string)
    (texts : list string) (b : bool) (w : World) :
  u <> "" -> db_online w = true ->
  find_user u (db w) = Some creator ->
  generator_ahead (db w) ->
  let id := cuid (cuid_seq (db w)) in
  let w' := snd (run (route_createPoll (Some u) q texts b) w) in
  exists r,
    run (route_getPollResults id) w' = (Ok (mkResponse 200 (ResultsBody r)), w')
    /\ results_pollId r = id /\ results_question r = q
    /\ results_totalVotes r = 0
    /\ Permutation (map res_text (results_options r)) texts
    /\ Forall (fun o => res_voteCount o = 0 /\ res_percentage o = "0")
               (results_options r).
Proof.
  intros Hu Hon Hcreator Hg id w'.
  pose proof (new_poll_results u creator q texts b w Hu Hon Hcreator Hg) as Hrun.
  cbv zeta in Hrun. fold id in Hrun. fold w' in Hrun.
  eexists. split; [exact Hrun |]. cbn [results_pollId results_question
    results_totalVotes results_options].
  split; [reflexivity |]. split; [reflexivity |]. split; [reflexivity |].
  split.
  - rewrite map_map. cbn [res_text]. unfold id. rewrite new_options_texts.
    apply Permutation_refl.
  - apply Forall_forall. intros o Ho. apply in_map_iff in Ho as (x & <- & _).
    split; reflexivity.
Qed.

Example new_poll_has_no_votes_witness :
  exists r,
    run (route_getPollResults "c0")
        (snd (run (route_createPoll (Some "u2") "Cats or dogs?" ["cats"; "dogs"] true)
                  demo))
    = (Ok (mkResponse 200 (ResultsBody r)),
       snd (run (route_createPoll (Some "u2") "Cats or dogs?" ["cats"; "dogs"] true)
                demo))
    /\ results_totalVotes r = 0
    /\ Permutation (map res_text (results_options r)) ["cats"; "dogs"].
Proof.
  destruct (new_poll_has_no_votes "u2" (mkUser "u2" "Bob") "Cats or dogs?"
              ["cats"; "dogs"] true demo)
    as (r & Hrun & _ & _ & Htotal & Hperm & _);
    [discriminate | reflexivity | reflexivity | exact demo_generator_ahead |].
  exists r. split; [exact Hrun |]. split; [exact Htotal | exact Hperm].
Defined.

(** * The rest of the poll controller *)

(** X9. [GET /api/polls/:id] only reads and does not look at the
    publication flag: an unknown id is answered 404, and a poll, draft
    or published, is answered with its creator, the vote count of each
    of its options and a total that is the number of vote rows of the
    poll.  The results endpoint reports the same counts and total. *)
Theorem getPollById_counts (P : Id) (w : World) :
  db_online w = true -> poll_options_pkey (db w) = true ->
  run (route_getPollById P) w =
  (Ok match find_poll P (db w) with
      | None => Failed (mkResponse 404 (ErrorBody "Client Error" "Poll not found"))
      | Some p =>
          match find_user (creatorId p) (db w) with
          | Some creator =>
              Json 200 (mkPollWithStats p creator (ledger_count P (db w))
                                        (counts P (db w)))
          | None => Failed (errorHandler InconsistentQueryResult)
          end
      end, w)
  /\ (forall p, find_poll P (db w) = Some p ->
      exists r,
        run (route_getPollResults P) w = (Ok (mkResponse 200 (ResultsBody r)), w)
        /\ results_totalVotes r = ledger_count P (db w)
        /\ map res_voteCount (results_options r) = map snd (counts P (db w))).
Proof.
  intros Hon Hpk.
  pose proof (snapshot_total_ledger P (db w) Hpk) as Htotal.
  unfold snapshot_total in Htotal. split.
  - unfold route_getPollById. rewrite run_asyncHandler_json.
    unfold getPollById. rewrite run_await. unfold prisma at 1. rewrite Hon.
    unfold poll_findUnique_stats.
    destruct (find_poll P (db w)) as [p |]; rewrite ?set_db_same; [| reflexivity].
    destruct (find_user (creatorId p) (db w)) as [creator |]; rewrite set_db_same;
      [| reflexivity].
    fold (counts P (db w)). cbn [run fst snd]. rewrite Htotal. reflexivity.
  - intros p Hp. unfold route_getPollResults. rewrite run_asyncHandler.
    unfold getPollResults. rewrite run_await. unfold prisma at 1. rewrite Hon.
    unfold poll_findUnique_counts. rewrite find_any_poll, Hp, set_db_same.
    fold (counts P (db w)). cbn [run]. eexists. split; [reflexivity |].
    cbn [results_totalVotes results_options]. split; [exact Htotal |].
    rewrite map_map. apply map_ext. reflexivity.
Qed.

(** The draft [q] of the scenario is served like a published poll. *)
Example getPollById_counts_witness :
  run (route_getPollById "q") demo_voted =
  (Ok (Json 200 (mkPollWithStats (mkPoll "q" "Vim or Emacs?" false "u2")
                   (mkUser "u2" "Bob") 0
                   [(mkPollOption "C" "vim" "q", 0); (mkPollOption "D" "emacs" "q", 0)])),
   demo_voted).
Proof.
  apply (proj1 (getPollById_counts "q" demo_voted eq_refl eq_refl)).
Defined.

(** ** Ownership *)

Lemma run_ownership (u id : Id) (w : World) :
  db_online w = true ->
  run (requirePollOwnership (Some u) id) w =
  (Ok (if id =? ""
       then Some (mkResponse 400 (ErrorBody "Bad Request" "Poll ID is required"))
       else match find_poll id (db w) with
            | None => Some (mkResponse 404 (ErrorBody "Not Found" "Poll not found"))
            | Some p =>
                if creatorId p =? u then None
                else Some (mkResponse 403
                             (ErrorBody "Forbidden" "You can only modify your own polls"))
            end), w).
Proof.
  intro Hon. unfold requirePollOwnership. rewrite run_try_catch.
  destruct (id =? ""); [reflexivity |].
  rewrite run_await. unfold prisma at 1. rewrite Hon.
  unfold poll_findUnique_creatorId. rewrite set_db_same.
  destruct (find_poll id (db w)) as [p |]; cbn [option_map]; [| reflexivity].
  destruct (creatorId p =? u); reflexivity.
Qed.

Lemma run_ownership_offline (user : option Id) (id : Id) (w : World) :
  db_online w = false ->
  exists r w',
    run (requirePollOwnership user id) w = (Ok (Some r), w') /\ db w' = db w.
Proof.
  intro Hon. unfold requirePollOwnership. rewrite run_try_catch.
  destruct (id =? ""); [eexists _, _; split; reflexivity |].
  rewrite run_await. unfold prisma. rewrite Hon. cbn.
  eexists _, _; split; reflexivity.
Qed.

Lemma guarded_refused (u id : Id) (handler : Prog Response) (w : World) :
  db_online w = true ->
  (forall p, find_poll id (db w) = Some p -> creatorId p <> u) ->
  run (guarded (requirePollOwnership (Some u) id) handler) w = (Ok (refusal id (db w)), w).
Proof.
  intros Hon Hnot. unfold guarded, refusal. rewrite run_bind, run_ownership by exact Hon.
  destruct (id =? ""); [reflexivity |].
  destruct (find_poll id (db w)) as [p |]; [| reflexivity].
  specialize (Hnot p eq_refl). apply String.eqb_neq in Hnot. rewrite Hnot. reflexivity.
Qed.

Lemma guarded_changes (u id : Id) (handler : Prog Response) (w : World) :
  db (snd (run (guarded (requirePollOwnership (Some u) id) handler) w)) <> db w ->
  exists p, find_poll id (db w) = Some p /\ creatorId p = u.
Proof.
  intro Hchange.
  destruct (db_online w) eqn:Hon.
  - destruct (find_poll id (db w)) as [p |] eqn:Hp.
    + destruct (creatorId p =? u) eqn:E.
      * exists p. split; [reflexivity | apply String.eqb_eq; exact E].
      * exfalso. apply Hchange. rewrite guarded_refused; [reflexivity | exact Hon |].
        intros p' Hp'. rewrite Hp in Hp'. inversion Hp'; subst.
        apply String.eqb_neq. exact E.
    + exfalso. apply Hchange. rewrite guarded_refused; [reflexivity | exact Hon |].
      intros p' Hp'. rewrite Hp in Hp'. discriminate Hp'.
  - exfalso. apply Hchange. unfold guarded. rewrite run_bind.
    destruct (run_ownership_offline (Some u) id w Hon) as (r & w1 & Hrun & Hdb).
    rewrite Hrun. exact Hdb.
Qed.

(** X10. Only its creator changes a poll.  For any other user, update
    and publish are answered 403 (404 when the poll does not exist) and
    leave the process as it was; and whenever one of the two routes
    changes the tables, the poll exists and the user is its creator. *)
Theorem only_creator_changes_poll (u id : Id) (q : option string) (b : option bool)
    (w : World) :
  (db_online w = true ->
   (forall p, find_poll id (db w) = Some p -> creatorId p <> u) ->
   run (route_updatePoll u id q b) w = (Ok (refusal id (db w)), w)
   /\ run (route_publishPoll u id) w = (Ok (refusal id (db w)), w))
  /\ (db (snd (run (route_updatePoll u id q b) w)) <> db w
      \/ db (snd (run (route_publishPoll u id) w)) <> db w ->
      exists p, find_poll id (db w) = Some p /\ creatorId p = u).
Proof.
  split.
  - intros Hon Hnot. split; apply guarded_refused; assumption.
  - intros [H | H]; eapply guarded_changes; exact H.
Qed.

(** [u2] tries to rename and to publish... the poll of [u1]. *)
Example only_creator_changes_poll_witness :
  run (route_updatePoll "u2" "p" (Some "Mine now") (Some false)) demo
  = (Ok (mkResponse 403 (ErrorBody "Forbidden" "You can only modify your own polls")),
     demo)
  /\ run (route_publishPoll "u1" "q") demo
     = (Ok (mkResponse 403 (ErrorBody "Forbidden" "You can only modify your own polls")),
        demo).
Proof.
  split.
  - apply (proj1 (only_creator_changes_poll "u2" "p" (Some "Mine now") (Some false) demo));
      [reflexivity |].
    intros p Hp. vm_compute in Hp. inversion Hp. discriminate.
  - apply (proj1 (only_creator_changes_poll "u1" "q" None None demo));
      [reflexivity |].
    intros p Hp. vm_compute in Hp. inversion Hp. discriminate.
Defined.

(** ** Updates and publication by the creator *)

Lemma poll_update_ok (id : Id) (q : option string) (b : option bool) (d : Database)
    (p : Poll) (creator : User) :
  find_poll id d = Some p -> find_user (creatorId p) d = Some creator ->
  poll_update id q b d =
  (Ok (updated id q b p, creator, options_of id d),
   rewrite_poll id (updated id q b p) d).
Proof.
  intros Hp Hc. unfold poll_update. rewrite Hp.
  unfold poll_include. cbn [creatorId poll_id]. rewrite Hc. reflexivity.
Qed.

Lemma rewrite_poll_lookup (id : Id) (p p' : Poll) (d : Database) :
  find_poll id d = Some p -> poll_id p' = id ->
  find_poll id (rewrite_poll id p' d) = Some p'
  /\ (forall P, P <> id -> find_poll P (rewrite_poll id p' d) = find_poll P d).
Proof.
  intros Hp Hid. unfold find_poll, rewrite_poll in *. cbn [set_polls polls]. split.
  - rewrite (@find_poll_rewritten id id p' (polls d) Hid), Hp.
    apply find_some in Hp as [_ Hp]. rewrite Hp. reflexivity.
  - intros P HP. rewrite (@find_poll_rewritten P id p' (polls d) Hid).
    destruct (find (fun x => poll_id x =? P) (polls d)) as [x |] eqn:Hx; [| reflexivity].
    apply find_some in Hx as [_ Hx]. apply String.eqb_eq in Hx.
    assert (E : (poll_id x =? id) = false) by (apply String.eqb_neq; congruence).
    rewrite E. reflexivity.
Qed.

Lemma run_maybe_announce (c : bool) (P : Id) (r : Response) (w : World) :
  exists w',
    run (_ <<- (if c then broadcastNewPoll P else Ret tt) ;; Ret r) w = (Ok r, w')
    /\ db w' = db w /\ rooms w' = rooms w /\ currentPollRooms w' = currentPollRooms w
    /\ db_online w' = db_online w
    /\ outbox w' = if c then announced P w else outbox w.
Proof.
  rewrite run_bind. destruct c.
  - destruct (run_broadcastNewPoll_outbox P w) as (w' & Hrun & Hdb & Hr & Hc & Hon & Hout).
    rewrite Hrun. exists w'. repeat split; assumption.
  - exists w. repeat split.
Qed.

Lemma run_guarded_owner (u id : Id) (p : Poll) (handler : Prog Response) (w : World) :
  db_online w = true -> id <> "" ->
  find_poll id (db w) = Some p -> creatorId p = u ->
  run (guarded (requirePollOwnership (Some u) id) handler) w = run handler w.
Proof.
  intros Hon Hid Hp Hu. unfold guarded. rewrite run_bind, run_ownership by exact Hon.
  apply String.eqb_neq in Hid. rewrite Hid, Hp.
  apply String.eqb_eq in Hu. rewrite Hu. reflexivity.
Qed.

(** X11. An update by the creator rewrites the question and the
    publication flag that the request carries and nothing else: an
    absent or empty question keeps the old one, the id, the creator, the
    options, the votes and the other polls stay, and the poll is
    announced only by a request that carries [isPublished: true]. *)
Theorem creator_updates_poll (u id : Id) (q : option string) (b : option bool)
    (p : Poll) (creator : User) (w : World) :
  db_online w = true -> id <> "" ->
  find_poll id (db w) = Some p -> creatorId p = u ->
  find_user u (db w) = Some creator ->
  let p' := mkPoll id
              (match q with
               | Some t => if t =? "" then question p else t
               | None => question p
               end)
              (match b with Some x => x | None => isPublished p end) u in
  exists w',
    run (route_updatePoll u id q b) w =
    (Ok (mkResponse 200
           (PollBody "Poll updated successfully" p' creator (options_of id (db w)))), w')
    /\ find_poll id (db w') = Some p'
    /\ (forall P, P <> id -> find_poll P (db w') = find_poll P (db w))
    /\ poll_options (db w') = poll_options (db w)
    /\ votes (db w') = votes (db w)
    /\ rooms w' = rooms w
    /\ outbox w' =
       if match b with
          | Some true => controller_io w && io_utilities w && negb (io_faulty w)
          | _ => false
          end
       then (outbox w ++
             [mkEmission ToEveryone "new-poll-published"
                (NewPollPayload id (question p') (user_name creator)
                                (options_of id (db w)) (clock w))
                (connected w)])%list
       else outbox w.
Proof.
  intros Hon Hid Hp Hu Hc p'.
  assert (Hp' : p' = updated id (truthy q) b p).
  { unfold p', updated, truthy. rewrite Hu. f_equal.
    destruct q as [t |]; [| reflexivity]. cbn [falsy]. destruct (t =? ""); reflexivity. }
  unfold route_updatePoll. rewrite (run_guarded_owner u id p _ w Hon Hid Hp Hu).
  rewrite run_asyncHandler. unfold updatePoll. rewrite run_await.
  unfold prisma at 1. rewrite Hon.
  rewrite (poll_update_ok id (truthy q) b (db w) p creator Hp) by (rewrite Hu; exact Hc).
  rewrite <- Hp'. cbv beta iota. rewrite run_call. cbn [io_ready].
  cbn [set_db controller_io io_utilities fst poll_id].
  destruct (rewrite_poll_lookup id p p' (db w) Hp eq_refl) as [Hfound Hothers].
  cbv beta iota.
  match goal with |- context [run (bind (if ?c then _ else _) ?k) ?w1] =>
    destruct (run_maybe_announce c (poll_id p')
                (mkResponse 200 (PollBody "Poll updated successfully" p' creator
                                          (options_of id (db w)))) w1)
      as (w' & Hrun & Hdb & Hrooms & _ & _ & Hout)
  end.
  rewrite Hrun. exists w'.
  cbn [set_db db rooms outbox] in Hdb, Hrooms, Hout.
  split; [reflexivity |]. rewrite Hdb.
  split; [exact Hfound |]. split; [exact Hothers |].
  split; [reflexivity |]. split; [reflexivity |]. split; [exact Hrooms |].
  rewrite Hout. destruct b as [[|] |]; try reflexivity.
  unfold announced. cbn [set_db db db_online io_faulty outbox clock connected].
  rewrite Hon. cbn [poll_id p'] in Hfound |- *. rewrite Hfound.
  change (find_user (creatorId p') (rewrite_poll id p' (db w)))
    with (find_user u (db w)).
  rewrite Hc. change (isPublished p') with true.
  destruct (controller_io w && io_utilities w); cbn [andb]; [| reflexivity].
  destruct (io_faulty w); reflexivity.
Qed.

(** [u1] sends an empty question and withdraws the poll [p]. *)
Example creator_updates_poll_witness :
  exists w',
    run (route_updatePoll "u1" "p" (Some "") (Some false)) demo =
    (Ok (mkResponse 200
           (PollBody "Poll updated successfully"
              (mkPoll "p" "Tabs or spaces?" false "u1") (mkUser "u1" "Ann")
              [mkPollOption "A" "tabs" "p"; mkPollOption "B" "spaces" "p"])), w')
    /\ outbox w' = outbox demo.
Proof.
  destruct (creator_updates_poll "u1" "p" (Some "") (Some false)
              (mkPoll "p" "Tabs or spaces?" true "u1") (mkUser "u1" "Ann") demo)
    as (w' & Hrun & _ & _ & _ & _ & _ & Hout);
    [reflexivity | discriminate | reflexivity | reflexivity | reflexivity |].
  exists w'. split; [exact Hrun | exact Hout].
Defined.

(** X12. Publication by the creator sets the flag and opens the poll:
    afterwards the poll is published, a join request for it is admitted
    and votes for its options are accepted; options and votes are
    untouched, and so is every other poll.  Every such call announces
    the poll, whether or not it was published before. *)
Theorem publish_opens_poll (u id : Id) (p : Poll) (creator : User) (w : World) :
  db_online w = true -> id <> "" ->
  find_poll id (db w) = Some p -> creatorId p = u ->
  find_user u (db w) = Some creator ->
  exists w',
    run (route_publishPoll u id) w =
    (Ok (mkResponse 200
           (PollBody "Poll published successfully" (mkPoll id (question p) true u)
                     creator (options_of id (db w)))), w')
    /\ published id (db w')
    /\ joinable (ArgString id) (db w') = Some id
    /\ (forall O, option_in_poll id O (db w) = true -> poll_accepts id O (db w'))
    /\ poll_options (db w') = poll_options (db w)
    /\ votes (db w') = votes (db w)
    /\ (forall P, P <> id -> find_poll P (db w') = find_poll P (db w))
    /\ (controller_io w = true -> io_utilities w = true -> io_faulty w = false ->
        outbox w' =
        (outbox w ++
         [mkEmission ToEveryone "new-poll-published"
            (NewPollPayload id (question p) (user_name creator)
                            (options_of id (db w)) (clock w))
            (connected w)])%list).
Proof.
  intros Hon Hid Hp Hu Hc.
  set (p' := mkPoll id (question p) true u).
  assert (Hp' : p' = updated id None (Some true) p)
    by (unfold p', updated; rewrite Hu; reflexivity).
  unfold route_publishPoll. rewrite (run_guarded_owner u id p _ w Hon Hid Hp Hu).
  rewrite run_asyncHandler. unfold publishPoll. rewrite run_await.
  unfold prisma at 1. rewrite Hon.
  rewrite (poll_update_ok id None (Some true) (db w) p creator Hp) by (rewrite Hu; exact Hc).
  rewrite <- Hp'. cbv beta iota. rewrite run_call. cbn [io_ready].
  cbn [set_db controller_io io_utilities fst].
  destruct (rewrite_poll_lookup id p p' (db w) Hp eq_refl) as [Hfound Hothers].
  cbv beta iota.
  match goal with |- context [run (bind (if ?c then _ else _) ?k) ?w1] =>
    destruct (run_maybe_announce c (poll_id p')
                (mkResponse 200 (PollBody "Poll published successfully" p' creator
                                          (options_of id (db w)))) w1)
      as (w' & Hrun & Hdb & Hrooms & _ & _ & Hout)
  end.
  rewrite Hrun. exists w'.
  cbn [set_db db rooms outbox] in Hdb, Hrooms, Hout.
  split; [reflexivity |]. rewrite Hdb.
  assert (Hpub : has_published_poll id (rewrite_poll id p' (db w)) = true).
  { unfold has_published_poll. apply existsb_exists. exists p'.
    unfold find_poll in Hfound. apply find_some in Hfound as [Hin _].
    split; [exact Hin |]. cbn. rewrite String.eqb_refl. reflexivity. }
  split; [exists p'; split; [exact Hfound | reflexivity] |].
  split; [cbn [joinable]; apply String.eqb_neq in Hid; rewrite Hid, Hpub; reflexivity |].
  split; [intros O HO; apply poll_accepts_iff; split; [exact Hpub | exact HO] |].
  split; [reflexivity |]. split; [reflexivity |]. split.
  - exact Hothers.
  - intros Hcio Hiu Hf. rewrite Hout, Hcio, Hiu. cbn [andb].
    unfold announced. cbn [set_db db db_online io_faulty outbox clock connected].
    rewrite Hon, Hf. cbn [andb negb]. change (poll_id p') with id. rewrite Hfound.
    change (find_user (creatorId p') (rewrite_poll id p' (db w)))
      with (find_user u (db w)).
    rewrite Hc. reflexivity.
Qed.

(** [u2] publishes the draft [q]; socket [s2] can then join it. *)
Example publish_opens_poll_witness :
  exists w',
    run (route_publishPoll "u2" "q") demo =
    (Ok (mkResponse 200
           (PollBody "Poll published successfully"
              (mkPoll "q" "Vim or Emacs?" true "u2") (mkUser "u2" "Bob")
              [mkPollOption "C" "vim" "q"; mkPollOption "D" "emacs" "q"])), w')
    /\ joinable (ArgString "q") (db demo) = None
    /\ joinable (ArgString "q") (db w') = Some "q".
Proof.
  destruct (publish_opens_poll "u2" "q" (mkPoll "q" "Vim or Emacs?" false "u2")
              (mkUser "u2" "Bob") demo)
    as (w' & Hrun & _ & Hjoin & _);
    [reflexivity | discriminate | reflexivity | reflexivity | reflexivity |].
  exists w'. split; [exact Hrun |]. split; [reflexivity | exact Hjoin].
Defined.

(** X13. [broadcastNewPoll] never throws and leaves tables and rooms
    alone.  It sends nothing for a poll that is missing or a draft; for
    a published poll, with the database and the transport up, it sends
    one [new-poll-published] packet to every connected socket. *)
Theorem drafts_are_never_announced (P : Id) (w : World) :
  exists w',
    run (broadcastNewPoll P) w = (Ok tt, w')
    /\ db w' = db w /\ rooms w' = rooms w
    /\ (~ published P (db w) -> outbox w' = outbox w)
    /\ (forall p creator,
           find_poll P (db w) = Some p -> isPublished p = true ->
           find_user (creatorId p) (db w) = Some creator ->
           db_online w = true -> io_faulty w = false ->
           outbox w' =
           (outbox w ++
            [mkEmission ToEveryone "new-poll-published"
               (NewPollPayload P (question p) (user_name creator)
                               (options_of P (db w)) (clock w))
               (connected w)])%list).
Proof.
  destruct (run_broadcastNewPoll_outbox P w) as (w' & Hrun & Hdb & Hrooms & _ & _ & Hout).
  exists w'. split; [exact Hrun |]. split; [exact Hdb |]. split; [exact Hrooms |].
  split.
  - intro Hnot. rewrite Hout. destruct (_ && _); [| reflexivity].
    destruct (find_poll P (db w)) as [p |] eqn:Hp; [| reflexivity].
    destruct (find_user _ (db w)); [| reflexivity].
    destruct (isPublished p) eqn:Hpub; [| reflexivity].
    exfalso. apply Hnot. exists p. split; [exact Hp | exact Hpub].
  - intros p creator Hp Hpub Hc Hon Hf. rewrite Hout, Hon, Hf, Hp, Hc, Hpub.
    cbn [andb negb]. apply find_some in Hp as [_ Hp]. apply String.eqb_eq in Hp.
    rewrite Hp. reflexivity.
Qed.

Example drafts_are_never_announced_witness :
  exists w',
    run (broadcastNewPoll "q") demo = (Ok tt, w') /\ outbox w' = outbox demo.
Proof.
  destruct (drafts_are_never_announced "q" demo) as (w' & Hrun & _ & _ & Hquiet & _).
  exists w'. split; [exact Hrun |]. apply Hquiet.
  intros (p & Hp & Hpub). vm_compute in Hp. inversion Hp; subst. discriminate Hpub.
Defined.

(** * Percentages of one poll, taken together *)

Lemma percentage_tenths (votes total : nat) :
  0 < total -> votes <= total -> (Z.of_nat total < 2 ^ 40)%Z ->
  exists n : Z,
    percentage votes total = fixed1 n /\ (0 <= n <= 1000)%Z
    /\ (- Z.of_nat total <= 2 * (n * Z.of_nat total - 1000 * Z.of_nat votes)
        <= Z.of_nat total)%Z.
Proof.
  intros Ht Hle Hbound.
  destruct (percentage_nearest votes total Ht Hle Hbound) as (n & Hn & Herr).
  exists n. split; [exact Hn |]. split; [| exact Herr].
  set (T := Z.of_nat total) in *. set (C := Z.of_nat votes) in *.
  assert (HT : (0 < T)%Z) by (unfold T; lia).
  assert (HC : (0 <= C <= T)%Z) by (unfold C, T; lia).
  split.
  - destruct (Z_lt_le_dec n 0) as [Hneg | Hok]; [| exact Hok]. exfalso.
    assert ((n * T <= - T)%Z) by nia. lia.
  - destruct (Z_lt_le_dec 1000 n) as [Hbig | Hok]; [| exact Hok]. exfalso.
    assert ((1001 * T <= n * T)%Z) by nia. lia.
Qed.

Lemma percentages_of_counts (cs : list nat) (t : nat) :
  0 < t -> (Z.of_nat t < 2 ^ 40)%Z -> (forall c, In c cs -> c <= t) ->
  exists ns : list Z,
    map (fun c => percentage c t) cs = map fixed1 ns
    /\ length ns = length cs
    /\ Forall (fun n => (0 <= n <= 1000)%Z) ns
    /\ (- (Z.of_nat (length cs) * Z.of_nat t)
        <= 2 * (Zsum ns * Z.of_nat t - 1000 * Z.of_nat (list_sum cs))
        <= Z.of_nat (length cs) * Z.of_nat t)%Z.
Proof.
  intros Ht Hbound. induction cs as [| c cs IH]; intro Hle.
  - exists []. cbn. repeat split; try lia. constructor.
  - destruct IH as (ns & Hmap & Hlen & Hrange & Hsum);
      [intros x Hx; apply Hle; right; exact Hx |].
    destruct (percentage_tenths c t Ht (Hle c (or_introl eq_refl)) Hbound)
      as (n & Hn & Hn01 & Herr).
    exists (n :: ns). cbn [map length Zsum fold_right]. fold (Zsum ns).
    rewrite Hn, Hmap, Hlen. split; [reflexivity |]. split; [reflexivity |].
    split; [constructor; assumption |].
    rewrite list_sum_cons, Nat2Z.inj_add, Nat2Z.inj_succ.
    set (T := Z.of_nat t) in *. set (K := Z.of_nat (length cs)) in *.
    set (C := Z.of_nat c) in *. set (S := Z.of_nat (list_sum cs)) in *.
    replace (2 * ((n + Zsum ns) * T - 1000 * (C + S)))%Z
      with (2 * (n * T - 1000 * C) + 2 * (Zsum ns * T - 1000 * S))%Z by ring.
    replace (Z.succ K * T)%Z with (T + K * T)%Z by ring.
    generalize dependent (K * T)%Z. generalize dependent (Zsum ns * T)%Z.
    generalize dependent (n * T)%Z. intros; lia.
Qed.

(** X14. The percentages of the results of a poll add up to 100, within
    0.05 for each option: they are the decimal forms of numbers of
    tenths between 0 and 1000 whose sum is at most half a tenth per
    option away from 1000 tenths (below 2^40 votes). *)
Theorem percentages_add_up (P : Id) (w : World) (p : Poll) :
  db_online w = true -> poll_options_pkey (db w) = true ->
  find_poll P (db w) = Some p ->
  0 < ledger_count P (db w) ->
  (Z.of_nat (ledger_count P (db w)) < 2 ^ 40)%Z ->
  exists r ns,
    run (route_getPollResults P) w = (Ok (mkResponse 200 (ResultsBody r)), w)
    /\ map res_percentage (results_options r) = map fixed1 ns
    /\ Forall (fun n => (0 <= n <= 1000)%Z) ns
    /\ (2 * Z.abs (Zsum ns - 1000) <= Z.of_nat (length (results_options r)))%Z.
Proof.
  intros Hon Hpk Hp Hpos Hbound.
  pose proof (snapshot_total_ledger P (db w) Hpk) as Htotal.
  unfold snapshot_total in Htotal.
  unfold route_getPollResults. rewrite run_asyncHandler.
  unfold getPollResults. rewrite run_await. unfold prisma at 1. rewrite Hon.
  unfold poll_findUnique_counts. rewrite find_any_poll, Hp, set_db_same.
  fold (counts P (db w)). cbn [run]. rewrite Htotal.
  set (t := ledger_count P (db w)) in *.
  destruct (percentages_of_counts (map snd (counts P (db w))) t Hpos Hbound)
    as (ns & Hmap & Hlen & Hrange & Hsum).
  { intros c Hc. rewrite <- Htotal, sum_votes_spec.
    apply le_list_sum. exact Hc. }
  eexists. exists ns. split; [reflexivity |].
  cbn [results_options]. rewrite !map_map in *. cbn [res_percentage].
  split; [exact Hmap |]. split; [exact Hrange |].
  rewrite length_map in *. rewrite <- sum_votes_spec, Htotal in Hsum. fold t in Hsum.
  set (T := Z.of_nat t) in *. set (K := Z.of_nat (length (counts P (db w)))) in *.
  assert (HT : (0 < T)%Z) by (unfold T; lia).
  replace (2 * (Zsum ns * T - 1000 * T))%Z with ((2 * (Zsum ns - 1000)) * T)%Z in Hsum by ring.
  destruct Hsum as [Hlo Hhi].
  replace (- (K * T))%Z with ((- K) * T)%Z in Hlo by ring.
  apply Z.mul_le_mono_pos_r in Hlo; [| exact HT].
  apply Z.mul_le_mono_pos_r in Hhi; [| exact HT].
  lia.
Qed.

Example percentages_add_up_witness :
  exists r ns,
    run (route_getPollResults "p") demo_voted
    = (Ok (mkResponse 200 (ResultsBody r)), demo_voted)
    /\ map res_percentage (results_options r) = map fixed1 ns
    /\ (2 * Z.abs (Zsum ns - 1000) <= 2)%Z.
Proof.
  destruct (percentages_add_up "p" demo_voted (mkPoll "p" "Tabs or spaces?" true "u1"))
    as (r & ns & Hrun & Hmap & _ & Hsum).
  - reflexivity.
  - reflexivity.
  - reflexivity.
  - vm_compute. lia.
  - vm_compute. reflexivity.
  - exists r, ns. split; [exact Hrun |]. split; [exact Hmap |].
    assert (Hr : r = mkResults "p" "Tabs or spaces?" 1
                       [mkOptionResult "A" "tabs" 1 "100.0";
                        mkOptionResult "B" "spaces" 0 "0.0"]).
    { assert (H : run (route_getPollResults "p") demo_voted
                  = (Ok (mkResponse 200 (ResultsBody
                           (mkResults "p" "Tabs or spaces?" 1
                              [mkOptionResult "A" "tabs" 1 "100.0";
                               mkOptionResult "B" "spaces" 0 "0.0"]))), demo_voted))
        by (vm_compute; reflexivity).
      rewrite H in Hrun. inversion Hrun. reflexivity. }
    rewrite Hr in Hsum. exact Hsum.
Defined.

(** X15. The percentage of an option lies between 0.0 and 100.0; it is
    100.0 for an option that has every vote and 0.0 for an option
    without a vote (below 2^40 votes). *)
Theorem percentage_range (votes total : nat) :
  0 < total -> votes <= total -> (Z.of_nat total < 2 ^ 40)%Z ->
  (exists n, percentage votes total = fixed1 n /\ (0 <= n <= 1000)%Z)
  /\ (votes = total -> percentage votes total = "100.0")
  /\ (votes = 0 -> percentage votes total = "0.0").
Proof.
  intros Ht Hle Hbound.
  destruct (percentage_nearest votes total Ht Hle Hbound) as (n & Hn & Herr).
  set (T := Z.of_nat total) in *. set (C := Z.of_nat votes) in *.
  assert (HT : (0 < T)%Z) by (unfold T; lia).
  assert (HC : (0 <= C <= T)%Z) by (unfold C, T; lia).
  assert (Hrange : (0 <= n <= 1000)%Z).
  { split.
    - destruct (Z_lt_le_dec n 0) as [Hneg | Hok]; [| exact Hok]. exfalso.
      assert ((n * T <= - T)%Z) by nia. lia.
    - destruct (Z_lt_le_dec 1000 n) as [Hbig | Hok]; [| exact Hok]. exfalso.
      assert ((1001 * T <= n * T)%Z) by nia. lia. }
  split; [exists n; split; assumption |]. split.
  - intro E. assert (C = T) by (unfold C, T; lia).
    assert (n = 1000)%Z as -> by nia. exact Hn.
  - intro E. assert (C = 0)%Z by (unfold C; lia).
    assert (n = 0)%Z as -> by nia. exact Hn.
Qed.

Example percentage_range_witness :
  percentage 3 3 = "100.0" /\ percentage 0 3 = "0.0".
Proof.
  destruct (percentage_range 3 3) as (_ & Hall & _); [lia | lia | vm_compute; reflexivity |].
  destruct (percentage_range 0 3) as (_ & _ & Hnone); [lia | lia | vm_compute; reflexivity |].
  split; [apply Hall | apply Hnone]; reflexivity.
Defined.

(** * Authentication *)

Lemma prefix_app (p t : string) : prefix p (p ++ t) = true.
Proof.
  induction p as [| c p IH]; cbn; [destruct t; reflexivity |].
  destruct (Ascii.ascii_dec c c) as [_ | N]; [exact IH | contradiction].
Qed.

Lemma prefix_split (p h : string) :
  prefix p h = true -> exists t, h = p ++ t.
Proof.
  revert h. induction p as [| c p IH]; intros h Hp; [exists h; reflexivity |].
  destruct h as [| c' h]; [discriminate Hp |]. cbn in Hp.
  destruct (Ascii.ascii_dec c c') as [<- | _]; [| discriminate Hp].
  destruct (IH h Hp) as (t & ->). exists t. reflexivity.
Qed.

Lemma substring_all (t : string) : substring 0 (String.length t) t = t.
Proof. induction t as [| c t IH]; cbn; [reflexivity | rewrite IH; reflexivity]. Qed.

Lemma substring_skip (p t : string) (m : nat) :
  substring (String.length p) m (p ++ t) = substring 0 m t.
Proof. induction p as [| c p IH]; cbn; [reflexivity | exact IH]. Qed.

Lemma string_length_app (p t : string) :
  String.length (p ++ t) = String.length p + String.length t.
Proof. induction p as [| c p IH]; cbn; [reflexivity | rewrite IH; reflexivity]. Qed.

Lemma extract_bearer (t : string) :
  extractTokenFromHeader ("Bearer " ++ t) = Some t.
Proof.
  unfold extractTokenFromHeader.
  rewrite (prefix_app "Bearer " t).
  change ("Bearer " ++ t =? "") with false. cbn [orb negb].
  rewrite string_length_app.
  change (String.length "Bearer ") with 7.
  replace (7 + String.length t - 7) with (String.length t) by lia.
  rewrite (substring_skip "Bearer " t), substring_all. reflexivity.
Qed.

Lemma extract_only_bearer (h t : string) :
  extractTokenFromHeader h = Some t -> h = "Bearer " ++ t.
Proof.
  unfold extractTokenFromHeader.
  destruct (h =? ""); [discriminate |]. cbn [orb].
  destruct (prefix "Bearer " h) eqn:Hp; [| discriminate]. cbn [negb].
  destruct (prefix_split "Bearer " h Hp) as (rest & ->).
  rewrite string_length_app.
  change (String.length "Bearer ") with 7.
  replace (7 + String.length rest - 7) with (String.length rest) by lia.
  rewrite (substring_skip "Bearer " rest), substring_all.
  intro H; inversion H; reflexivity.
Qed.

(** X17. [extractTokenFromHeader] returns a token exactly for the
    headers that are [Bearer ] followed by that token: the scheme is
    matched with its case and its one space, and what follows is
    returned unchanged, also when it is empty. *)
Theorem extractTokenFromHeader_bearer (h t : string) :
  extractTokenFromHeader h = Some t <-> h = "Bearer " ++ t.
Proof.
  split; [apply extract_only_bearer | intros ->; apply extract_bearer].
Qed.

Lemma find_user_id (u : Id) (d : Database) (user : User) :
  find_user u d = Some user -> user_id user = u.
Proof.
  unfold find_user. intro H. apply find_some in H as [_ E].
  apply String.eqb_eq. exact E.
Qed.

Section Authenticated.
Variable verifyAccessToken : string -> option JWTPayload.

Lemma authenticateToken_cases (authorization : option string) (w : World) :
  AuthCase verifyAccessToken authorization w (run (authenticateToken verifyAccessToken authorization) w).
Proof.
  unfold authenticateToken.
  destruct authorization as [h |]; cbn [falsy];
    [| cbn; apply Refused; intros; discriminate].
  destruct (h =? "") eqn:Hh.
  { cbn. apply Refused. intros token payload E.
    assert (Eh : h = "Bearer " ++ token) by congruence.
    rewrite Eh in Hh. discriminate Hh. }
  destruct (extractTokenFromHeader h) as [t |] eqn:Ht; cbn [falsy].
  2:{ cbn. apply Refused. intros token payload E.
      assert (Eh : h = "Bearer " ++ token) by congruence.
      rewrite Eh, extract_bearer in Ht. discriminate Ht. }
  apply extract_only_bearer in Ht. subst h.
  assert (Honly : forall token, Some ("Bearer " ++ t) = Some ("Bearer " ++ token) ->
                                token = t).
  { intros token E. inversion E. reflexivity. }
  destruct (t =? "") eqn:Hempty.
  { cbn. apply Refused. intros token payload E Hne.
    apply Honly in E. subst token. apply String.eqb_eq in Hempty. contradiction. }
  apply String.eqb_neq in Hempty.
  destruct (verifyAccessToken t) as [payload |] eqn:Hverify.
  2:{ cbn. apply Refused. intros token payload E _ Hv.
      apply Honly in E. subst token. congruence. }
  rewrite run_try_catch, run_await. unfold prisma, user_findUnique.
  destruct (db_online w) eqn:Hon.
  - rewrite set_db_same.
    destruct (find_user (payload_userId payload) (db w)) as [user |] eqn:Hu; cbn.
    + eapply Passed with (token := t); solve [reflexivity | eassumption].
    + apply Refused. intros token payload' E _ Hv.
      apply Honly in E. subst token.
      assert (payload' = payload) as -> by congruence. split; [exact Hon | exact Hu].
  - cbn. eapply Failed500 with (token := t); solve [reflexivity | eassumption].
Qed.

(** X18. [authenticateToken] never throws and writes nothing to the
    tables, the rooms or the outbox.  It lets a request through
    exactly when the header is [Bearer ] followed by a token that is
    not empty and verifies, the database answers, and the user of the
    payload exists; that user becomes [req.user].  Every other request
    is answered 401, or 500 when the database cannot be reached. *)
Theorem authenticateToken_gate (authorization : option string) (w : World) :
  exists outcome w',
    run (authenticateToken verifyAccessToken authorization) w = (Ok outcome, w')
    /\ db w' = db w /\ rooms w' = rooms w /\ outbox w' = outbox w
    /\ (forall user,
          outcome = inr user <->
          db_online w = true
          /\ exists token payload,
               authorization = Some ("Bearer " ++ token) /\ token <> ""
               /\ verifyAccessToken token = Some payload
               /\ find_user (payload_userId payload) (db w) = Some user)
    /\ (forall response,
          outcome = inl response ->
          status response = 401
          \/ (status response = 500 /\ db_online w = false)).
Proof.
  destruct (authenticateToken_cases authorization w)
    as [message Hnot | token payload Ha Hne Hv Hoff | token payload user Ha Hne Hv Hon Hu];
    eexists; eexists; (split; [reflexivity |]); repeat (split; [reflexivity |]).
  - split.
    + intro user. split; [discriminate |].
      intros (Hon & token & payload & Ha & Hne & Hv & Hu).
      destruct (Hnot token payload Ha Hne Hv) as [_ Hnone]. congruence.
    + intros response E. inversion E. left. reflexivity.
  - split.
    + intro user. split; [discriminate |]. intros (Hon & _). congruence.
    + intros response E. inversion E. right. split; [reflexivity | exact Hoff].
  - split.
    + intro user'. split.
      * intro E. inversion E; subst user'. split; [exact Hon |].
        exists token, payload. repeat split; assumption.
      * intros (_ & token' & payload' & Ha' & _ & Hv' & Hu').
        rewrite Ha in Ha'. inversion Ha'; subst token'.
        assert (payload' = payload) as -> by congruence. congruence.
    + intros response E. discriminate E.
Qed.

Lemma filter_others_snoc (u u' : Id) (l : list Vote) (v : Vote) :
  vote_userId v = u -> u' <> u ->
  filter (fun x => vote_userId x =? u') (l ++ [v])
  = filter (fun x => vote_userId x =? u') l.
Proof.
  intros Hv Hne. rewrite filter_app. cbn. rewrite Hv.
  assert (E : (u =? u') = false) by (apply String.eqb_neq; congruence).
  rewrite E. apply app_nil_r.
Qed.

Lemma filter_others_move (u' : Id) (existing : Vote) (O : Id) (l : list Vote) :
  u' <> vote_userId existing ->
  (forall x, In x l -> vote_id x = vote_id existing -> x = existing) ->
  filter (fun x => vote_userId x =? u') (map (move_row existing O) l)
  = filter (fun x => vote_userId x =? u') l.
Proof.
  intros Hne Hkey. induction l as [| x l IH]; [reflexivity |].
  cbn [map filter]. rewrite IH by (intros y Hy; apply Hkey; right; exact Hy).
  unfold move_row at 1 2. destruct (vote_id x =? vote_id existing) eqn:E;
    [| reflexivity].
  apply String.eqb_eq in E. rewrite (Hkey x (or_introl eq_refl) E).
  cbn [moved vote_userId].
  assert (E' : (vote_userId existing =? u') = false)
    by (apply String.eqb_neq; congruence).
  rewrite E'. reflexivity.
Qed.

Lemma submitVote_own_rows (u P O : Id) (w : World) :
  constraints_hold (db w) = true ->
  forall u', u' <> u ->
    filter (fun v => vote_userId v =? u')
           (votes (db (snd (run (route_submitVote (Some u) P O) w))))
    = filter (fun v => vote_userId v =? u') (votes (db w)).
Proof.
  intros Hc u' Hne. unfold route_submitVote. rewrite run_asyncHandler.
  destruct (submitVote_cases (Some u) P O w)
    as [e | u0 row d' w' Hu _ Hon Hacc Hnone Hcr Hafter
        | u0 existing row d' w' Hu _ Hon Hacc Hex _ Hupd Hafter]; cbn [snd].
  - reflexivity.
  - inversion Hu; subst u0. destruct Hafter as [-> _].
    destruct (@created_db (db w) d' u P O (clock w) row Hc Hacc Hnone Hcr)
      as (_ & _ & _ & _ & _ & -> & Hrow & _).
    apply (filter_others_snoc u); assumption.
  - inversion Hu; subst u0. destruct Hafter as [-> _].
    destruct (@moved_db (db w) d' u P O existing row Hc Hacc Hex Hupd)
      as (_ & _ & _ & _ & _ & -> & _).
    pose proof (find_some _ _ Hex) as [Hin Hon'].
    rewrite vote_on_poll_split in Hon'. apply andb_true_iff in Hon' as [Eu _].
    apply String.eqb_eq in Eu.
    apply filter_others_move; [congruence |].
    intros x Hx E. apply constraints_split in Hc as (_ & _ & Hv & _).
    apply (@same_key_same_row Vote vote_id (votes (db w))); assumption.
Qed.

(** X19. [POST /api/polls/:pollId/vote] behind [authenticateToken]
    changes the vote table only for a request whose header is [Bearer ]
    followed by a token that verifies and whose user exists, and then
    only rows of the user the token names: the rows of every other
    user are as before. *)
Theorem vote_is_cast_as_token_user (authorization : option string) (P O : Id)
    (w : World) :
  constraints_hold (db w) = true ->
  votes (db (snd (run (post_vote verifyAccessToken authorization P O) w)))
  <> votes (db w) ->
  exists token payload,
    authorization = Some ("Bearer " ++ token)
    /\ verifyAccessToken token = Some payload
    /\ find_user (payload_userId payload) (db w) <> None
    /\ forall u, u <> payload_userId payload ->
         filter (fun v => vote_userId v =? u)
           (votes (db (snd (run (post_vote verifyAccessToken authorization P O) w))))
         = filter (fun v => vote_userId v =? u) (votes (db w)).
Proof.
  intros Hc. unfold post_vote, authenticated. rewrite run_bind.
  destruct (authenticateToken_cases authorization w)
    as [message Hnot | token payload Ha Hne Hv Hoff | token payload user Ha Hne Hv Hon Hu];
    cbn [run snd db set_console].
  - intro H. contradiction H. reflexivity.
  - intro H. contradiction H. reflexivity.
  - intros _. exists token, payload.
    split; [exact Ha |]. split; [exact Hv |]. split; [congruence |].
    intros u Hneq. rewrite (find_user_id _ _ _ Hu).
    apply submitVote_own_rows; assumption.
Qed.

End Authenticated.

(** A verifier that accepts the token [tok] as one of [u1]. *)
Example vote_is_cast_as_token_user_witness :
  exists token payload,
    Some "Bearer tok" = Some ("Bearer " ++ token)
    /\ (if token =? "tok" then Some (mkJWTPayload "u1" "ann@example.org") else None)
       = Some payload
    /\ find_user (payload_userId payload) (db demo) <> None
    /\ forall u, u <> payload_userId payload ->
         filter (fun v => vote_userId v =? u)
           (votes (db (snd (run (post_vote
                                   (fun t => if t =? "tok"
                                             then Some (mkJWTPayload "u1" "ann@example.org")
                                             else None)
                                   (Some "Bearer tok") "p" "A") demo))))
         = filter (fun v => vote_userId v =? u) (votes (db demo)).
Proof.
  apply (vote_is_cast_as_token_user
           (fun t => if t =? "tok" then Some (mkJWTPayload "u1" "ann@example.org")
                     else None)
           (Some "Bearer tok") "p" "A" demo).
  - reflexivity.
  - vm_compute. discriminate.
Defined.

(** * Rooms: leaving *)

Lemma room_of_injective (a b : Id) : room_of a = room_of b -> a = b.
Proof. unfold room_of. intro H. inversion H. reflexivity. Qed.

Lemma existsb_filter_false {A} (f g : A -> bool) (l : list A) :
  existsb f l = false -> existsb f (filter g l) = false.
Proof.
  induction l as [| a l IH]; [reflexivity |]. cbn. intro H.
  apply orb_false_elim in H as [Ha Hl].
  destruct (g a); cbn; [rewrite Ha |]; apply IH; exact Hl.
Qed.

Lemma not_member_not_in (room : string) (sid : SocketId)
    (l : list (string * SocketId)) :
  existsb (fun m => (fst m =? room) && (snd m =? sid)) l = false ->
  existsb (String.eqb sid) (map snd (filter (fun m => fst m =? room) l)) = false.
Proof.
  induction l as [| [r s] l IH]; [reflexivity |]. cbn [existsb fst snd filter].
  intro H. apply orb_false_elim in H as [Ha Hl].
  destruct (r =? room); cbn [map existsb snd]; [| exact (IH Hl)].
  cbn [andb] in Ha. rewrite (String.eqb_sym sid s), Ha. exact (IH Hl).
Qed.

Lemma filter_out_absent {A} (f : A -> bool) (l : list A) :
  existsb f l = false -> filter (fun a => negb (f a)) l = l.
Proof.
  induction l as [| a l IH]; [reflexivity |]. cbn. intro H.
  apply orb_false_elim in H as [Ha Hl]. rewrite Ha. cbn. rewrite (IH Hl). reflexivity.
Qed.

Lemma existsb_filter_out {A} (f g : A -> bool) (l : list A) :
  existsb f (filter (fun a => negb (g a)) l)
  = existsb (fun a => f a && negb (g a)) l.
Proof.
  induction l as [| a l IH]; [reflexivity |]. cbn.
  destruct (g a); cbn; rewrite IH; [rewrite andb_false_r | rewrite andb_true_r];
    reflexivity.
Qed.

Section Left.
Variable P : Id.
Variable sid : SocketId.
Variable mail : list Emission.

Lemma left_same {X} (act : Action X) :
  (forall w, rooms (snd (act w)) = rooms w /\ outbox (snd (act w)) = outbox w) ->
  forall w, left_with P sid mail w -> left_with P sid mail (snd (act w)).
Proof.
  intros H w [Hm Hr]. destruct (H w) as [Er Eo].
  unfold left_with, is_member, received_in_room in *. rewrite Er, Eo.
  split; assumption.
Qed.

Lemma left_prisma {X} (q : Database -> Outcome X * Database) (w : World) :
  left_with P sid mail w -> left_with P sid mail (snd (prisma q w)).
Proof.
  apply (left_same (prisma q)). intro w0. unfold prisma.
  destruct (db_online w0); [destruct (q (db w0)) |]; split; reflexivity.
Qed.

Lemma left_emit (c : Channel) (ev : string) (p : Payload) (w : World) :
  left_with P sid mail w -> left_with P sid mail (snd (emit c ev p w)).
Proof.
  intros [Hm Hr]. unfold emit. destruct (io_faulty w); [split; assumption |].
  cbn [snd]. split; [exact Hm |].
  unfold received_in_room. cbn [set_outbox outbox]. rewrite filter_app.
  cbn [filter channel recipients].
  assert (E : to_room (room_of P) c && existsb (String.eqb sid) (deliver_to c w) = false).
  { unfold is_member in Hm.
    destruct c as [s | r | r s |]; cbn [to_room deliver_to]; try reflexivity;
      (destruct (r =? room_of P) eqn:Er; [| reflexivity]);
      apply String.eqb_eq in Er; subst r; cbn [andb]; unfold members.
    - apply not_member_not_in. exact Hm.
    - apply existsb_filter_false, not_member_not_in. exact Hm. }
  rewrite E, app_nil_r. exact Hr.
Qed.

Lemma left_join (sid' : SocketId) (room : string) (w : World) :
  room <> room_of P \/ sid' <> sid ->
  left_with P sid mail w -> left_with P sid mail (snd (socket_join sid' room w)).
Proof.
  intros Hne [Hm Hr]. unfold socket_join. cbn [snd].
  destruct (is_member room sid' w); [split; assumption |].
  split; [| exact Hr]. unfold is_member in *. cbn [set_rooms rooms].
  rewrite existsb_app. apply orb_false_intro; [exact Hm |].
  cbn [existsb fst snd]. rewrite orb_false_r.
  destruct Hne as [Hne | Hne]; apply String.eqb_neq in Hne; rewrite Hne;
    [reflexivity | apply andb_false_r].
Qed.

Lemma left_add (sid' : SocketId) (room : string) (w : World) :
  left_with P sid mail w ->
  left_with P sid mail (snd (currentPollRooms_add sid' room w)).
Proof.
  apply (left_same (currentPollRooms_add sid' room)). intro w0.
  unfold currentPollRooms_add. destruct (existsb _ _); split; reflexivity.
Qed.

Lemma left_leave (sid' : SocketId) (room : string) (w : World) :
  left_with P sid mail w -> left_with P sid mail (snd (socket_leave sid' room w)).
Proof.
  intros [Hm Hr]. split; [| exact Hr]. unfold is_member in *.
  cbn [socket_leave snd set_rooms rooms]. apply existsb_filter_false. exact Hm.
Qed.

Lemma left_handle_event (e : Event) :
  e <> Served (JoinPoll sid (ArgString P)) ->
  keeps (left_with P sid mail) (handle_event e).
Proof.
  intro Hne.
  apply (keeps_handle_event (left_with P sid mail)
           (fun s room => room <> room_of P \/ s <> sid)).
  - intros X q _. apply left_prisma.
  - intros u O w. apply left_prisma.
  - intros id O. apply left_prisma.
  - intros id q b. apply left_prisma.
  - intros q b u texts. apply left_prisma.
  - apply left_emit.
  - intros line. apply left_same. intro. split; reflexivity.
  - intros s room w. apply left_join.
  - intros s room w _. apply left_add.
  - apply left_leave.
  - intros s room. apply left_same. intro. split; reflexivity.
  - destruct e as [[user P0 O | u id q b | u id | id | s [P0 |]] | |];
      try exact Logic.I. cbn [joins_only].
    destruct (String.eqb_spec s sid) as [-> | Hs]; [| right; exact Hs].
    left. intro E. apply room_of_injective in E. subst P0. apply Hne. reflexivity.
Qed.

End Left.

Lemma leave_poll_left (sid : SocketId) (P : Id) (w : World) :
  left_with P sid (received_in_room (room_of P) sid w)
            (snd (run (leave_poll sid P) w)).
Proof.
  assert (Hout : is_member (room_of P) sid (snd (socket_leave sid (room_of P) w)) = false).
  { unfold is_member. cbn [socket_leave snd set_rooms rooms].
    rewrite existsb_filter_out. apply not_true_iff_false. intro H.
    apply existsb_exists in H as (m & _ & Hm).
    destruct ((fst m =? room_of P) && (snd m =? sid)); discriminate Hm. }
  assert (Hstart : left_with P sid (received_in_room (room_of P) sid w)
                             (snd (socket_leave sid (room_of P) w))).
  { split; [exact Hout | reflexivity]. }
  unfold leave_poll. rewrite run_try_catch, run_await.
  destruct (socket_leave sid (room_of P) w) as [[[] | e] w1] eqn:Hleave;
    [| discriminate Hleave].
  cbn [snd] in Hstart. rewrite run_call. cbn [currentPollRooms_delete].
  set (w2 := set_currentPollRooms _ w1).
  assert (H2 : left_with P sid (received_in_room (room_of P) sid w) w2)
    by exact Hstart.
  rewrite run_call. cbn [console_log].
  set (w3 := set_console _ w2).
  assert (H3 : left_with P sid (received_in_room (room_of P) sid w) w3) by exact H2.
  rewrite run_call. cbn [room_size]. rewrite run_call.
  pose proof (left_emit P sid _ (ToRoomExcept (room_of P) sid) "user-left-poll"
                (PresencePayload "A user left the poll"
                                 (length (members (room_of P) w3))) w3 H3) as H4.
  destruct (emit _ _ _ w3) as [[[] | e] w4]; cbn [snd] in H4; [exact H4 |].
  cbn [run]. rewrite run_call. cbn [console_log].
  set (w5 := set_console _ w4).
  assert (H5 : left_with P sid (received_in_room (room_of P) sid w) w5) by exact H4.
  rewrite run_call.
  pose proof (left_emit P sid _ (ToSocket sid) "error"
                (MessagePayload "Failed to leave poll room") w5 H5) as H6.
  destruct (emit _ _ _ w5) as [[[] | e'] w6]; cbn [snd] in H6; exact H6.
Qed.

(** X20. Once a socket has left the room of a poll, no packet sent to
    that room reaches it, whatever requests and socket events follow
    and in whatever order their awaited operations complete, as long as
    the socket does not join the poll again; [leave-poll] itself sends
    the socket nothing in the room. *)
Theorem leaving_ends_room_packets (sid : SocketId) (P : Id) (events : list Event)
    (schedule : list nat) (w : World) :
  Forall (fun e => e <> Served (JoinPoll sid (ArgString P))) events ->
  received_in_room (room_of P) sid (serve_events (LeavePoll sid P :: events) w)
  = received_in_room (room_of P) sid w
  /\ received_in_room (room_of P) sid
       (snd (interleave schedule (map handle_event events)
               (snd (run (leave_poll sid P) w))))
     = received_in_room (room_of P) sid w.
Proof.
  intro Hne. pose proof (leave_poll_left sid P w) as Hleft.
  assert (Hkeeps : Forall (fun e => keeps (left_with P sid
                                             (received_in_room (room_of P) sid w))
                                          (handle_event e)) events).
  { eapply Forall_impl; [| exact Hne]. intros e He. apply left_handle_event. exact He. }
  split.
  - cbn [serve_events fold_left handle_event].
    apply (serve_events_keeps _ events _ Hkeeps Hleft).
  - destruct (interleave_keeps
                (left_with P sid (received_in_room (room_of P) sid w))
                schedule (map handle_event events)
                (snd (run (leave_poll sid P) w))) as [_ [_ H]].
    + apply Forall_forall. intros p Hp. apply in_map_iff in Hp as (e & <- & He).
      rewrite Forall_forall in Hkeeps. apply Hkeeps. exact He.
    + exact Hleft.
    + exact H.
Qed.

(** [s1] leaves the room of [p]; then [u1] votes and [s2] joins. *)
Example leaving_ends_room_packets_witness :
  received_in_room (room_of "p") "s1"
    (serve_events [LeavePoll "s1" "p";
                   Served (SubmitVote (Some "u1") "p" "A");
                   Served (JoinPoll "s2" (ArgString "p"))] demo)
  = received_in_room (room_of "p") "s1" demo
  /\ received_in_room (room_of "p") "s1"
       (snd (interleave [0; 1; 0; 1; 0; 1; 0; 1]
               (map handle_event [Served (SubmitVote (Some "u1") "p" "A");
                                  Served (JoinPoll "s2" (ArgString "p"))])
               (snd (run (leave_poll "s1" "p") demo))))
     = received_in_room (room_of "p") "s1" demo.
Proof.
  apply (leaving_ends_room_packets "s1" "p"
           [Served (SubmitVote (Some "u1") "p" "A");
            Served (JoinPoll "s2" (ArgString "p"))]
           [0; 1; 0; 1; 0; 1; 0; 1] demo).
  repeat constructor; discriminate.
Defined.

(** The vote that [s1] misses reaches [s2], who stayed. *)
Example staying_socket_is_served :
  map recipients
      (filter (fun e => event e =? "poll-updated")
              (outbox (serve_events [Served (JoinPoll "s2" (ArgString "p"));
                                     LeavePoll "s1" "p";
                                     Served (SubmitVote (Some "u1") "p" "A")] demo)))
  = [["s2"]].
Proof. vm_compute. reflexivity. Qed.

(** * Rooms: membership and its record on the socket *)

Lemma members_after_leave (room : string) (sid : SocketId)
    (l : list (string * SocketId)) :
  map snd (filter (fun m => fst m =? room)
             (filter (fun m => negb ((fst m =? room) && (snd m =? sid))) l))
  = filter (fun s => negb (s =? sid)) (map snd (filter (fun m => fst m =? room) l)).
Proof.
  induction l as [| [r s] l IH]; [reflexivity |]. cbn [filter fst snd].
  destruct (r =? room) eqn:Er; cbn [andb negb].
  - destruct (s =? sid) eqn:Es; cbn [negb filter map fst snd].
    + rewrite Es. cbn [negb]. exact IH.
    + rewrite Er, Es. cbn [negb map snd]. rewrite IH. reflexivity.
  - cbn [filter fst]. rewrite Er. exact IH.
Qed.

Lemma members_of_other_room (room room' : string) (sid : SocketId)
    (l : list (string * SocketId)) :
  room' <> room ->
  map snd (filter (fun m => fst m =? room')
             (filter (fun m => negb ((fst m =? room) && (snd m =? sid))) l))
  = map snd (filter (fun m => fst m =? room') l).
Proof.
  intro Hne. induction l as [| [r s] l IH]; [reflexivity |]. cbn [filter fst snd].
  destruct (r =? room) eqn:Er; cbn [andb negb].
  - apply String.eqb_eq in Er. subst r.
    assert (E : (room =? room') = false) by (apply String.eqb_neq; congruence).
    rewrite E. destruct (s =? sid); cbn [negb filter fst]; rewrite ?E; exact IH.
  - cbn [filter fst]. destruct (r =? room'); cbn [map snd]; rewrite IH; reflexivity.
Qed.

Lemma filter_twice {A} (f : A -> bool) (l : list A) :
  filter f (filter f l) = filter f l.
Proof.
  induction l as [| a l IH]; [reflexivity |]. cbn.
  destruct (f a) eqn:E; cbn; rewrite ?E, IH; reflexivity.
Qed.

Lemma filter_out_snoc {A} (f : A -> bool) (l : list A) (a : A) :
  existsb f l = false -> f a = true ->
  filter (fun x => negb (f x)) (l ++ [a]) = l.
Proof.
  intros Hl Ha. rewrite filter_app, (filter_out_absent f l Hl). cbn.
  rewrite Ha. apply app_nil_r.
Qed.

(** X21. [leave-poll] asks nothing of the socket or of the poll: it
    takes the socket out of the room named after the argument, leaves
    every other room alone, and sends the members that remain one
    [user-left-poll] packet with their number, also when the socket had
    never joined.  The tables are not touched. *)
Theorem leave_poll_notifies (sid : SocketId) (pollId : string) (w : World) :
  io_faulty w = false ->
  exists w',
    run (leave_poll sid pollId) w = (Ok tt, w')
    /\ members (room_of pollId) w'
       = filter (fun s => negb (s =? sid)) (members (room_of pollId) w)
    /\ (forall room, room <> room_of pollId -> members room w' = members room w)
    /\ db w' = db w
    /\ outbox w' =
       (outbox w ++
        [mkEmission (ToRoomExcept (room_of pollId) sid) "user-left-poll"
           (PresencePayload "A user left the poll"
                            (length (members (room_of pollId) w')))
           (members (room_of pollId) w')])%list.
Proof.
  intro Hf. destruct w as [d on cio iu f cn rm cpr ob cs ck]. cbn in Hf. subst f.
  eexists. split; [reflexivity |]. unfold members.
  cbn [rooms db outbox set_rooms set_currentPollRooms set_console set_outbox
       currentPollRooms console].
  split; [apply members_after_leave |].
  split; [intros room Hne; apply members_of_other_room; exact Hne |].
  split; [reflexivity |].
  rewrite members_after_leave. unfold deliver_to, members.
  cbn [rooms set_rooms set_currentPollRooms set_console].
  rewrite members_after_leave, filter_twice. reflexivity.
Qed.

(** [s2] never joined the room of [p]; [s1], a member, is told. *)
Example leave_poll_notifies_witness :
  exists w',
    run (leave_poll "s2" "p") demo = (Ok tt, w')
    /\ members (room_of "p") w' = ["s1"]
    /\ outbox w' =
       [mkEmission (ToRoomExcept (room_of "p") "s2") "user-left-poll"
          (PresencePayload "A user left the poll" 1) ["s1"]].
Proof.
  destruct (leave_poll_notifies "s2" "p" demo) as (w' & Hrun & Hm & _ & _ & Hout);
    [reflexivity |].
  exists w'. split; [exact Hrun |].
  assert (E : members (room_of "p") w' = ["s1"]) by (rewrite Hm; reflexivity).
  split; [exact E |]. rewrite Hout, E. reflexivity.
Defined.

(** What [join-poll] and [leave-poll] do to the memberships. *)
Lemma join_poll_rooms (sid : SocketId) (arg : EventArg) (w : World) :
  rooms_are (rooms w) (currentPollRooms w) (snd (run (join_poll sid arg) w))
  \/ exists pollId,
       arg = ArgString pollId
       /\ rooms_are (rooms (snd (socket_join sid (room_of pollId) w)))
                    (currentPollRooms (snd (currentPollRooms_add sid (room_of pollId) w)))
                    (snd (run (join_poll sid arg) w)).
Proof.
  unfold join_poll, rooms_are. rewrite run_try_catch.
  destruct w as [d on cio iu f cn rm cpr ob cs ck].
  destruct arg as [P |]; [| left; destruct f; cbn; split; reflexivity].
  destruct (P =? ""); [left; destruct f; cbn; split; reflexivity |].
  rewrite run_await. unfold prisma. cbn [db_online].
  destruct on; [| left; destruct f; cbn; split; reflexivity].
  unfold poll_findUnique_counts. cbn [db set_db].
  destruct (find _ (polls d)) as [p |]; [| left; destruct f; cbn; split; reflexivity].
  right. exists P. split; [reflexivity |].
  cbn [rethrow]. rewrite run_await. unfold socket_join.
  destruct (is_member (room_of P) sid _); cbn [rethrow];
    rewrite run_call; unfold currentPollRooms_add;
    cbn [currentPollRooms set_rooms set_db];
    match goal with |- context [existsb ?g cpr] => destruct (existsb g cpr) end;
    cbn [rethrow];
    destruct f; cbn; split; reflexivity.
Qed.

Lemma leave_poll_rooms (sid : SocketId) (pollId : string) (w : World) :
  rooms_are
    (filter (fun m => negb ((fst m =? room_of pollId) && (snd m =? sid))) (rooms w))
    (filter (fun m => negb ((fst m =? sid) && (snd m =? room_of pollId)))
            (currentPollRooms w))
    (snd (run (leave_poll sid pollId) w)).
Proof.
  unfold leave_poll, rooms_are. rewrite run_try_catch.
  destruct w as [d on cio iu f cn rm cpr ob cs ck].
  destruct f; cbn; split; reflexivity.
Qed.

(** X22. A socket that joins a poll and then leaves it is where it
    was: the rooms and the record of the socket are as before the two
    events, whether the join was admitted or not, and the tables were
    never touched. *)
Theorem join_then_leave_restores (sid : SocketId) (P : Id) (w : World) :
  is_member (room_of P) sid w = false ->
  existsb (fun m => (fst m =? sid) && (snd m =? room_of P)) (currentPollRooms w)
  = false ->
  rooms (serve_events [Served (JoinPoll sid (ArgString P)); LeavePoll sid P] w)
  = rooms w
  /\ currentPollRooms
       (serve_events [Served (JoinPoll sid (ArgString P)); LeavePoll sid P] w)
     = currentPollRooms w
  /\ db (serve_events [Served (JoinPoll sid (ArgString P)); LeavePoll sid P] w)
     = db w.
Proof.
  intros Hm Ht. cbn [serve_events fold_left handle_event handle].
  set (w1 := snd (run (join_poll sid (ArgString P)) w)).
  destruct (leave_poll_rooms sid P w1) as [Hr Hc].
  assert (Hdb : db (snd (run (leave_poll sid P) w1)) = db w).
  { transitivity (db w1).
    - apply (run_keeps (in_db (fun d => d = db w1))); [| reflexivity].
      apply (keeps_leave_poll (in_db (fun d => d = db w1)));
        intros; unfold in_db in *; cbn; try assumption.
      unfold emit. destruct (io_faulty _); assumption.
    - destruct (run_join_poll sid (ArgString P) w) as (E & _). exact E. }
  rewrite Hr, Hc, Hdb.
  destruct (join_poll_rooms sid (ArgString P) w) as [[Er Ec] | (Q & E & Er & Ec)];
    fold w1 in Er, Ec; rewrite Er, Ec.
  - unfold is_member in Hm.
    split; [apply filter_out_absent; exact Hm |].
    split; [apply filter_out_absent; exact Ht | reflexivity].
  - inversion E; subst Q. unfold socket_join, currentPollRooms_add.
    rewrite Hm, Ht. cbn [snd set_rooms set_currentPollRooms rooms currentPollRooms].
    unfold is_member in Hm.
    split; [| split; [| reflexivity]];
      (apply filter_out_snoc; [assumption |]);
      cbn [fst snd]; rewrite !String.eqb_refl; reflexivity.
Qed.

Example join_then_leave_restores_witness :
  rooms (serve_events [Served (JoinPoll "s2" (ArgString "p")); LeavePoll "s2" "p"] demo)
  = rooms demo
  /\ currentPollRooms
       (serve_events [Served (JoinPoll "s2" (ArgString "p")); LeavePoll "s2" "p"] demo)
     = currentPollRooms demo
  /\ db (serve_events [Served (JoinPoll "s2" (ArgString "p")); LeavePoll "s2" "p"] demo)
     = db demo.
Proof.
  apply (join_then_leave_restores "s2" "p" demo); reflexivity.
Defined.

(** ** The record of the socket follows the rooms *)

Lemma existsb_agree {A} (f g : A -> bool) (l : list A) :
  (forall a, f a = g a) -> existsb f l = existsb g l.
Proof.
  intro H. induction l as [| a l IH]; [reflexivity |]. cbn. rewrite H, IH. reflexivity.
Qed.

Lemma tracked_of_same (w w' : World) :
  rooms_are (rooms w) (currentPollRooms w) w' -> rooms_tracked w -> rooms_tracked w'.
Proof.
  intros [Er Ec] H s Q. unfold is_member. rewrite Er, Ec. apply H.
Qed.

Lemma tracked_join (sid : SocketId) (P : Id) (w w' : World) :
  rooms_are (rooms (snd (socket_join sid (room_of P) w)))
            (currentPollRooms (snd (currentPollRooms_add sid (room_of P) w))) w' ->
  rooms_tracked w -> rooms_tracked w'.
Proof.
  intros [Er Ec] H s Q. unfold is_member. rewrite Er, Ec.
  unfold socket_join, currentPollRooms_add. rewrite <- (H sid P).
  destruct (is_member (room_of P) sid w);
    cbn [snd set_rooms set_currentPollRooms rooms currentPollRooms].
  - apply H.
  - rewrite !existsb_app. f_equal; [apply H |].
    cbn [existsb fst snd]. rewrite andb_comm. reflexivity.
Qed.

Lemma tracked_leave (sid : SocketId) (P : Id) (w w' : World) :
  rooms_are
    (filter (fun m => negb ((fst m =? room_of P) && (snd m =? sid))) (rooms w))
    (filter (fun m => negb ((fst m =? sid) && (snd m =? room_of P)))
            (currentPollRooms w)) w' ->
  rooms_tracked w -> rooms_tracked w'.
Proof.
  intros [Er Ec] H s Q. unfold is_member. rewrite Er, Ec.
  assert (Hcase : (room_of Q =? room_of P) && (s =? sid) = true
                  \/ (room_of Q =? room_of P) && (s =? sid) = false)
    by (destruct (_ && _); auto).
  destruct Hcase as [Hsame | Hother].
  - apply andb_true_iff in Hsame as [EQ Es]. apply String.eqb_eq in EQ, Es. subst s.
    rewrite EQ.
    transitivity false; [| symmetry]; apply not_true_iff_false; intro Hex;
      apply existsb_exists in Hex as (m & Hin & Hm);
      apply filter_In in Hin as [_ Hkeep]; rewrite Hm in Hkeep; discriminate Hkeep.
  - specialize (H s Q). unfold is_member in H.
    rewrite !existsb_filter_out.
    transitivity (existsb (fun m => (fst m =? room_of Q) && (snd m =? s)) (rooms w)).
    + apply existsb_agree. intros [r x]. cbn [fst snd].
      destruct ((r =? room_of Q) && (x =? s)) eqn:E; [| reflexivity].
      apply andb_true_iff in E as [E1 E2]. apply String.eqb_eq in E1, E2. subst r x.
      rewrite Hother. reflexivity.
    + rewrite H. symmetry. apply existsb_agree. intros [x r]. cbn [fst snd].
      destruct ((x =? s) && (r =? room_of Q)) eqn:E; [| reflexivity].
      apply andb_true_iff in E as [E1 E2]. apply String.eqb_eq in E1, E2. subst r x.
      rewrite (andb_comm (s =? sid)), Hother. reflexivity.
Qed.

Lemma rooms_are_same {X} (r : list (string * SocketId)) (c : list (SocketId * string))
    (act : Action X) :
  (forall w, rooms (snd (act w)) = rooms w
             /\ currentPollRooms (snd (act w)) = currentPollRooms w) ->
  forall w, rooms_are r c w -> rooms_are r c (snd (act w)).
Proof.
  intros H w [Er Ec]. destruct (H w) as [Hr Hc]. unfold rooms_are.
  rewrite Hr, Hc. split; assumption.
Qed.

Lemma prisma_memberships {X} (q : Database -> Outcome X * Database) (w : World) :
  rooms (snd (prisma q w)) = rooms w
  /\ currentPollRooms (snd (prisma q w)) = currentPollRooms w.
Proof.
  unfold prisma. destruct (db_online w); [destruct (q (db w)) |]; split; reflexivity.
Qed.

Lemma emit_memberships (c : Channel) (ev : string) (p : Payload) (w : World) :
  rooms (snd (emit c ev p w)) = rooms w
  /\ currentPollRooms (snd (emit c ev p w)) = currentPollRooms w.
Proof. unfold emit. destruct (io_faulty w); split; reflexivity. Qed.

Ltac memberships :=
  intros; try contradiction;
  first
    [ apply rooms_are_same; [| assumption]; intro;
      first [ apply prisma_memberships | apply emit_memberships | split; reflexivity ]
    | exact Logic.I ].

Lemma handle_event_tracked (e : Event) (w : World) :
  rooms_tracked w -> rooms_tracked (snd (run (handle_event e) w)).
Proof.
  intro H.
  destruct e as [r | user q texts b | sid pollId]; cbn [handle_event].
  - destruct r as [user P O | u id q b | u id | id | sid arg].
    5:{ cbn [handle].
        destruct (join_poll_rooms sid arg w) as [Hsame | (P & _ & Hjoin)].
        - apply (tracked_of_same w); assumption.
        - apply (tracked_join sid P w); assumption. }
    all: apply (tracked_of_same w); [| exact H];
      apply (run_keeps (rooms_are (rooms w) (currentPollRooms w)));
        [| split; reflexivity];
      apply (keeps_handle (rooms_are (rooms w) (currentPollRooms w))
                          (fun _ _ => False)); memberships.
  - apply (tracked_of_same w); [| exact H].
    apply (run_keeps (rooms_are (rooms w) (currentPollRooms w)));
      [| split; reflexivity].
    apply keeps_discard, keeps_asyncHandler_json, keeps_createPoll; memberships.
  - apply (tracked_leave sid pollId w); [| exact H]. apply leave_poll_rooms.
Qed.

(** X23. The rooms a socket keeps in [socket.currentPollRooms] are the
    poll rooms it is a member of, after any sequence of requests and of
    [join-poll] and [leave-poll] events, if they were before: every
    handler that changes one changes the other. *)
Theorem rooms_stay_tracked (events : list Event) (w : World) :
  rooms_tracked w -> rooms_tracked (serve_events events w).
Proof.
  revert w. induction events as [| e rest IH]; intros w H; [exact H |].
  cbn [serve_events fold_left]. apply IH, handle_event_tracked, H.
Qed.

Lemma demo_rooms_tracked : rooms_tracked demo.
Proof.
  intros s Q. unfold is_member. cbn [demo rooms currentPollRooms existsb fst snd].
  rewrite andb_comm. reflexivity.
Qed.

Example rooms_stay_tracked_witness :
  rooms_tracked
    (serve_events [Served (JoinPoll "s2" (ArgString "p"));
                   Served (SubmitVote (Some "u1") "p" "A");
                   LeavePoll "s1" "p"] demo).
Proof.
  apply (rooms_stay_tracked
           [Served (JoinPoll "s2" (ArgString "p"));
            Served (SubmitVote (Some "u1") "p" "A");
            LeavePoll "s1" "p"] demo).
  exact demo_rooms_tracked.
Defined.

(** * Broadcasts when the requests interleave *)

Set Implicit Arguments.










(** ** What a turn shows to a socket *)




(** ** Handlers that leave the vote table alone *)





















(** ** The two writes of a vote, while others wait *)





(** ** Composition within a turn *)




(** ** The broadcast of a vote *)


(** ** Votes *)




(** ** Every handler *)










(** The two votes of [u1] interleaved, both rows written before either
    broadcast reads: socket [s1] sees the total 2 twice. *)
Example interleaved_votes_observed :
  observed_totals "p" "s1"
    (snd (interleave [0; 1; 0; 1; 0; 1; 0; 1]
            (map handle [SubmitVote (Some "u1") "p" "A";
                         SubmitVote (Some "u1") "p" "B"]) demo))
  = [2; 2].
Proof. vm_compute. reflexivity. Qed.
